(** * Signal-Equalizer: band set, gain-curve synthesis and local processing

    A shallow embedding of the equalizer core of the repository:

    - [generateGainArray], [processWithBackend], [applySimpleProcessing],
      [addSlider], [updateSlider], [removeSlider]
      (Frontend/app/src/contexts/AudioContext.jsx, the provider that starts
      at line 427 of that file);
    - [saveSettings], [loadSettings]
      (Frontend/app/src/components/GenericMode.jsx);
    - the sample loop of [playSelectedRegion]
      (Frontend/app/src/components/modes/GenericMode.jsx).

    Numbers.  A JavaScript number is an IEEE-754 double.  The module
    [JsNum] keeps the three special values (NaN and the two infinities) and
    takes every finite double to be the real number it denotes: rounding
    (also the rounding to single precision of a [Float32Array]), overflow
    and the sign of zero are not modelled there.  Division by zero, the
    arithmetic of NaN and of the infinities, and comparisons with NaN are as
    in JavaScript.  A statement proved over [JsNum] is a statement about
    the expressions of the code evaluated exactly.  Where the rounding
    decides a property (an identity such as [1 + (g - 1) = g], the
    associativity of the product, the equivalence of two comparisons), the
    code is modelled a second time in the module [Double], over the binary64
    numbers of the kernel, and the property is settled there.

    Objects.  Audio buffers live in an explicit store and are passed by
    reference.  The band collection is a React state: the functions of one
    render read the [sliders] constant of that render and hand a new list to
    [setSliders].  The audio context of the provider is taken to exist, as
    [applyEqualizer] checks before it calls [processWithBackend]. *)

From Stdlib Require Import Reals Lra Lia ZArith List String Bool Permutation.
From Stdlib Require Import Ascii DecimalString Sorted Floats.
Import ListNotations.

Set Implicit Arguments.

(* ================================================================== *)
(** * JavaScript numbers *)
(* ================================================================== *)

Module JsNum.

Open Scope R_scope.

Inductive num : Type :=
| Fin (r : R)
| PInf
| NInf
| NaN.

Definition is_finite (x : num) : bool :=
  match x with Fin _ => true | _ => false end.

(** The real number denoted by a finite value (0 for the special values). *)
Definition to_R (x : num) : R :=
  match x with Fin r => r | _ => 0 end.

Definition Req_b (a b : R) : bool := if Req_dec_T a b then true else false.
Definition Rle_b (a b : R) : bool := if Rle_dec a b then true else false.
Definition Rlt_b (a b : R) : bool := if Rlt_dec a b then true else false.

Definition num_neg (x : num) : num :=
  match x with
  | Fin r => Fin (- r)
  | PInf => NInf
  | NInf => PInf
  | NaN => NaN
  end.

(** An infinity [i] times the finite real [r]: NaN for 0, else signed. *)
Definition inf_times (i : num) (r : R) : num :=
  if Req_b r 0 then NaN else if Rlt_b 0 r then i else num_neg i.

(** [x * y] *)
Definition num_mul (x y : num) : num :=
  match x, y with
  | NaN, _ | _, NaN => NaN
  | Fin a, Fin b => Fin (a * b)
  | Fin a, PInf | PInf, Fin a => inf_times PInf a
  | Fin a, NInf | NInf, Fin a => inf_times NInf a
  | PInf, PInf | NInf, NInf => PInf
  | PInf, NInf | NInf, PInf => NInf
  end.

(** [x + y] *)
Definition num_add (x y : num) : num :=
  match x, y with
  | NaN, _ | _, NaN => NaN
  | Fin a, Fin b => Fin (a + b)
  | PInf, NInf | NInf, PInf => NaN
  | PInf, _ | _, PInf => PInf
  | NInf, _ | _, NInf => NInf
  end.

(** [x - y] *)
Definition num_sub (x y : num) : num := num_add x (num_neg y).

(** [x / y].  A finite non-zero dividend over zero is an infinity with the
    sign of the dividend (the zero divisor is taken as +0); 0 / 0 is NaN. *)
Definition num_div (x y : num) : num :=
  match x, y with
  | NaN, _ | _, NaN => NaN
  | Fin a, Fin b =>
      if Req_b b 0
      then (if Req_b a 0 then NaN else if Rlt_b 0 a then PInf else NInf)
      else Fin (a / b)
  | Fin _, (PInf | NInf) => Fin 0
  | (PInf | NInf), (PInf | NInf) => NaN
  | PInf, Fin b => if Rle_b 0 b then PInf else NInf
  | NInf, Fin b => if Rle_b 0 b then NInf else PInf
  end.

(** [Math.abs] *)
Definition Math_abs (x : num) : num :=
  match x with
  | Fin r => Fin (Rabs r)
  | PInf | NInf => PInf
  | NaN => NaN
  end.

(** [x <= y]: false as soon as one side is NaN. *)
Definition num_leb (x y : num) : bool :=
  match x, y with
  | NaN, _ | _, NaN => false
  | Fin a, Fin b => Rle_b a b
  | NInf, _ | _, PInf => true
  | PInf, _ | _, NInf => false
  end.

(** [x < y] *)
Definition num_ltb (x y : num) : bool :=
  match x, y with
  | NaN, _ | _, NaN => false
  | Fin a, Fin b => Rlt_b a b
  | PInf, _ | _, NInf => false
  | NInf, _ | _, PInf => true
  end.

(** [x === y] on numbers: NaN is different from everything. *)
Definition num_eqb (x y : num) : bool :=
  match x, y with
  | Fin a, Fin b => Req_b a b
  | PInf, PInf | NInf, NInf => true
  | _, _ => false
  end.

(** [Math.cos]: NaN at NaN and at the infinities. *)
Definition Math_cos (x : num) : num :=
  match x with
  | Fin r => Fin (cos r)
  | _ => NaN
  end.

Definition Math_PI : num := Fin PI.

(** [Math.min] and [Math.max] of two arguments: NaN if either is NaN. *)
Definition Math_min (x y : num) : num :=
  match x, y with
  | NaN, _ | _, NaN => NaN
  | _, _ => if num_leb x y then x else y
  end.

Definition Math_max (x y : num) : num :=
  match x, y with
  | NaN, _ | _, NaN => NaN
  | _, _ => if num_leb x y then y else x
  end.

(** Truthiness of a number, as tested by [||]: 0 and NaN are falsy. *)
Definition truthy (x : num) : bool :=
  match x with
  | Fin r => negb (Req_b r 0)
  | NaN => false
  | _ => true
  end.

(** The value read from a missing array element or property is
    [undefined], which arithmetic converts to NaN. *)
Definition undefined_to_num (o : option num) : num :=
  match o with Some x => x | None => NaN end.

End JsNum.

Export JsNum.

Declare Scope num_scope.
Delimit Scope num_scope with num.
Infix "*" := num_mul : num_scope.
Infix "+" := num_add : num_scope.
Infix "-" := num_sub : num_scope.
Infix "/" := num_div : num_scope.
Infix "<=?" := num_leb : num_scope.

(* ================================================================== *)
(** * Arrays of numbers *)
(* ================================================================== *)

Module JsArray.

(** [new Array(n).fill(v)] *)
Definition fill (n : nat) (v : num) : list num := repeat v n.

(** [a[i]] used as a number. *)
Definition get (a : list num) (i : nat) : num :=
  undefined_to_num (nth_error a i).

(** [a[i] = v].  Inside the array the element is replaced; past the end a
    JavaScript array grows, the skipped elements being holes (read back as
    [undefined], NaN in arithmetic). *)
Fixpoint set (a : list num) (i : nat) (v : num) : list num :=
  match a, i with
  | [], O => [v]
  | [], S j => NaN :: set [] j v
  | _ :: t, O => v :: t
  | x :: t, S j => x :: set t j v
  end.

(** [for (let i = lo; i < lo + n; i++) body(i)] over a threaded state. *)
Definition for_range {St : Type} (lo n : nat) (body : nat -> St -> St)
  (s : St) : St :=
  fold_left (fun s i => body i s) (seq lo n) s.

End JsArray.

(* ================================================================== *)
(** * The gain-curve synthesizer *)
(* ================================================================== *)

(** A band object [{ id, centerFreq, width, gain, label }]. *)
Record Slider : Type := mkSlider {
  id : Z;
  centerFreq : num;
  width : num;
  gain : num;
  label : string
}.

Module Synth.

Import JsArray.
Local Open Scope num_scope.

(** The body of the inner [for] loop of [generateGainArray] at index [i],
    for the band [slider] whose [halfWidth] has been computed. *)
Definition bin_step (frequencyBins : list num) (slider : Slider)
  (halfWidth : num) (i : nat) (gains : list num) : list num :=
  let freq := get frequencyBins i in
  let distance := Math_abs (freq - centerFreq slider) in
  if distance <=? halfWidth then
    let norm := distance / halfWidth in
    let smooth := Math_cos ((norm * Math_PI) / Fin 2) in
    let smoothGain := Fin 1 + (gain slider - Fin 1) * smooth in
    set gains i (get gains i * smoothGain)
  else gains.

(** [generateGainArray(sliders, frequencyBins)]: the outer [forEach] over the
    bands, the inner [for] over the bins, updating [gains] in place. *)
Definition generateGainArray (sliders : list Slider)
  (frequencyBins : list num) : list num :=
  let gains := fill (List.length frequencyBins) (Fin 1) in
  fold_left
    (fun gains slider =>
       let halfWidth := width slider / Fin 2 in
       for_range 0 (List.length frequencyBins)
         (bin_step frequencyBins slider halfWidth) gains)
    sliders gains.

(** ** The contribution of one band at one frequency *)

Definition halfWidth_of (s : Slider) : num := width s / Fin 2.

Definition distance_of (s : Slider) (freq : num) : num :=
  Math_abs (freq - centerFreq s).

(** The test [distance <= halfWidth] of the code. *)
Definition covers (s : Slider) (freq : num) : bool :=
  distance_of s freq <=? halfWidth_of s.

Definition smoothGain_of (s : Slider) (freq : num) : num :=
  Fin 1
  + (gain s - Fin 1)
    * Math_cos (((distance_of s freq / halfWidth_of s) * Math_PI) / Fin 2).

(** What one band does to the accumulated gain [g] of one bin. *)
Definition apply_band (freq : num) (g : num) (s : Slider) : num :=
  if covers s freq then g * smoothGain_of s freq else g.

(** The gain of one bin: the bands folded in list order from 1. *)
Definition bin_gain (sliders : list Slider) (freq : num) : num :=
  fold_left (apply_band freq) sliders (Fin 1).

End Synth.

(** ** The gain curve in the words of the specification *)

Module SynthSpec.

Local Open Scope R_scope.

(** A band whose three numeric fields are finite numbers. *)
Definition real_band (b : Slider) : Prop :=
  is_finite (centerFreq b) = true /\ is_finite (width b) = true /\
  is_finite (gain b) = true.




End SynthSpec.

(* ================================================================== *)
(** * Audio buffers, the object store and exceptions *)
(* ================================================================== *)

Module Audio.

(** An [AudioBuffer]: [numberOfChannels] is the number of channel arrays,
    each a [Float32Array] of [length] samples. *)
Record AudioBuffer : Type := mkBuffer {
  sampleRate : num;
  length : nat;
  channels : list (list num)
}.

Definition numberOfChannels (b : AudioBuffer) : nat := List.length (channels b).

(** The store of audio buffers.  A reference is an index into the store;
    two names for the same reference are aliases for one object. *)
Definition Heap : Type := list AudioBuffer.
Definition ref : Type := nat.

Inductive error : Type :=
| NetworkError
| BackendError (status : Z)
| SyntaxError
| TypeError
| NotSupportedError
| IndexSizeError
| RangeError.

(** The outcome of running a piece of code: it returns or it throws; the
    store is kept in both cases (a [throw] does not undo earlier writes). *)
Inductive outcome (A : Type) : Type :=
| Normal (a : A) (h : Heap)
| Throw (e : error) (h : Heap).

Arguments Throw {A} e h.

Definition M (A : Type) : Type := Heap -> outcome A.

Definition ret {A} (a : A) : M A := fun h => Normal a h.

Definition throw {A} (e : error) : M A := fun h => Throw e h.

Definition bind {A B} (m : M A) (k : A -> M B) : M B :=
  fun h => match m h with
           | Normal a h' => k a h'
           | Throw e h' => Throw e h'
           end.

(** [try { m } catch (error) { handler(error) }] *)
Definition try_catch {A} (m : M A) (handler : error -> M A) : M A :=
  fun h => match m h with
           | Normal a h' => Normal a h'
           | Throw e h' => handler e h'
           end.

Notation "x <- m ;; k" := (bind m (fun x => k))
  (at level 61, m at next level, right associativity).
Notation "m ;;; k" := (bind m (fun _ => k))
  (at level 61, right associativity).

(** [for (let i = 0; i < n; i++) body(i)] *)
Fixpoint for_loop_from (lo n : nat) (body : nat -> M unit) : M unit :=
  match n with
  | O => ret tt
  | S n' => body lo ;;; for_loop_from (S lo) n' body
  end.

Definition for_loop (n : nat) (body : nat -> M unit) : M unit :=
  for_loop_from 0 n body.

(** Reading the object behind a reference. *)
Definition deref (r : ref) : M AudioBuffer :=
  fun h => match nth_error h r with
           | Some b => Normal b h
           | None => Throw TypeError h
           end.

(** [audioContext.createBuffer(numberOfChannels, length, sampleRate)]: a new
    zero-filled buffer.  The Web Audio API rejects a zero channel count and a
    zero length with a [NotSupportedError]. *)
Definition createBuffer (nch len : nat) (rate : num) : M ref :=
  fun h =>
    if (nch =? 0)%nat || (len =? 0)%nat then Throw NotSupportedError h
    else Normal (List.length h)
                (h ++ [mkBuffer rate len (repeat (repeat (Fin 0) len) nch)]).

(** The [Float32Array] returned by [buffer.getChannelData(ch)]: a view of
    channel [ch] of the buffer, not a copy. *)
Record ChannelView : Type := mkView { view_buffer : ref; view_channel : nat }.

Definition getChannelData (r : ref) (ch : nat) : M ChannelView :=
  b <- deref r ;;
  if (ch <? numberOfChannels b)%nat then ret (mkView r ch)
  else throw IndexSizeError.

(** [view[i]] as a number ([undefined], hence NaN, outside the array). *)
Definition view_get (v : ChannelView) (i : nat) : M num :=
  b <- deref (view_buffer v) ;;
  ret (undefined_to_num
         (match nth_error (channels b) (view_channel v) with
          | Some data => nth_error data i
          | None => None
          end)).

(** Replacement of element [i] of a list; nothing changes outside it. *)
Fixpoint list_update {A} (l : list A) (i : nat) (f : A -> A) : list A :=
  match l, i with
  | [], _ => []
  | x :: t, O => f x :: t
  | x :: t, S j => x :: list_update t j f
  end.

(** [view[i] = x]: a typed array has a fixed length, a write outside it is
    ignored. *)
Definition view_set (v : ChannelView) (i : nat) (x : num) : M unit :=
  fun h =>
    Normal tt
      (list_update h (view_buffer v)
         (fun b => mkBuffer (sampleRate b) (length b)
                     (list_update (channels b) (view_channel v)
                        (fun data => list_update data i (fun _ => x))))).

(** [Array.from(view)] *)
Definition array_from (v : ChannelView) : M (list num) :=
  b <- deref (view_buffer v) ;;
  ret (nth (view_channel v) (channels b) []).

(** ** Local processing *)

(** [applySimpleProcessing(audioBuffer, gainArray)] *)
Definition applySimpleProcessing (audioBuffer : ref) (gainArray : list num)
  : M ref :=
  src <- deref audioBuffer ;;
  clonedBuffer <- createBuffer (numberOfChannels src) (length src)
                    (sampleRate src) ;;
  for_loop (numberOfChannels src)
    (fun ch =>
       inputData <- getChannelData audioBuffer ch ;;
       outputData <- getChannelData clonedBuffer ch ;;
       for_loop (length src)
         (fun i =>
            x <- view_get inputData i ;;
            view_set outputData i (num_mul x (JsArray.get gainArray i)))) ;;;
  ret clonedBuffer.

(** ** Delegation to the processing service *)

(** The body of the POST request. *)
Record Request : Type := mkRequest {
  audioData : list num;
  req_gainArray : list num;
  req_sampleRate : num;
  bands : list Slider;
  mode : string
}.

(** ** The body of the response *)

(** A JSON value as [JSON.parse] builds it.  The characters of a string
    stand for its UTF-16 code units, each below 256 here.  The members of
    an object are listed in the order of the text. *)
#[warnings="-register-all"]
Inductive JSON : Type :=
| JNull
| JBool (b : bool)
| JNumber (x : num)
| JString (s : string)
| JArray (items : list JSON)
| JObject (members : list (string * JSON)).

(** [object[key]] on an object built by [JSON.parse]; [None] is [undefined].
    When the text repeats a key, the object holds the last value. *)
Fixpoint member (members : list (string * JSON)) (key : string)
  : option JSON :=
  match members with
  | [] => None
  | (k, v) :: rest =>
      match member rest key with
      | Some later => Some later
      | None => if String.eqb k key then Some v else None
      end
  end.

(** *** [StringToNumber] (ECMA-262, 7.1.4.1.1)

    The text is trimmed of white space; the empty text is 0; otherwise it
    must be, as a whole, a binary, octal or hexadecimal integer ([0b], [0o],
    [0x]) or a signed decimal literal ([Infinity], or digits with an optional
    fraction and exponent), and is NaN if it is not.  A literal denotes the
    real number it writes. *)

(** White space and line terminators among the characters below 256. *)
Definition is_white_space (c : ascii) : bool :=
  existsb (Nat.eqb (nat_of_ascii c)) [9; 10; 11; 12; 13; 32; 160]%nat.

Fixpoint drop_white_space (l : list ascii) : list ascii :=
  match l with
  | c :: rest => if is_white_space c then drop_white_space rest else l
  | [] => []
  end.

Definition trim (l : list ascii) : list ascii :=
  rev (drop_white_space (rev (drop_white_space l))).

(** The value of a digit in the given radix. *)
Definition digit (radix : nat) (c : ascii) : option nat :=
  let n := nat_of_ascii c in
  let value :=
    if (48 <=? n)%nat && (n <=? 57)%nat then Some (n - 48)%nat
    else if (97 <=? n)%nat && (n <=? 102)%nat then Some (n - 87)%nat
    else if (65 <=? n)%nat && (n <=? 70)%nat then Some (n - 55)%nat
    else None in
  match value with
  | Some d => if (d <? radix)%nat then Some d else None
  | None => None
  end.

(** The longest run of digits at the start of a text, and what follows. *)
Fixpoint span_digits (radix : nat) (l : list ascii)
  : list nat * list ascii :=
  match l with
  | c :: rest =>
      match digit radix c with
      | Some d => let (ds, r) := span_digits radix rest in (d :: ds, r)
      | None => ([], l)
      end
  | [] => ([], [])
  end.

Definition digits_value (radix : nat) (ds : list nat) : Z :=
  fold_left (fun acc d => (acc * Z.of_nat radix + Z.of_nat d)%Z) ds 0%Z.

Definition is_char (c : ascii) (s : string) : bool :=
  existsb (Ascii.eqb c) (list_ascii_of_string s).

Definition NonDecimalIntegerLiteral (l : list ascii) : option num :=
  match l with
  | zero :: c :: rest =>
      let radix :=
        if is_char c "xX" then 16%nat
        else if is_char c "oO" then 8%nat
        else if is_char c "bB" then 2%nat
        else 0%nat in
      if negb (is_char zero "0") || (radix =? 0)%nat then None
      else
        match span_digits radix rest with
        | ((_ :: _) as ds, []) => Some (Fin (IZR (digits_value radix ds)))
        | _ => None
        end
  | _ => None
  end.

(** The exponent after the digits: 0 when the text ends there. *)
Definition ExponentPart (l : list ascii) : option Z :=
  match l with
  | [] => Some 0%Z
  | c :: rest =>
      if is_char c "eE" then
        let (negative, rest) :=
          match rest with
          | sign :: r =>
              if is_char sign "-" then (true, r)
              else if is_char sign "+" then (false, r)
              else (false, rest)
          | [] => (false, rest)
          end in
        match span_digits 10 rest with
        | ((_ :: _) as ds, []) =>
            Some (if negative then (- digits_value 10 ds)%Z
                  else digits_value 10 ds)
        | _ => None
        end
      else None
  end.

Definition StrUnsignedDecimalLiteral (l : list ascii) : option num :=
  if String.eqb (string_of_list_ascii l) "Infinity" then Some PInf
  else
    let (int_digits, r1) := span_digits 10 l in
    let (dot, r2) :=
      match r1 with
      | c :: r => if is_char c "." then (true, r) else (false, r1)
      | [] => (false, r1)
      end in
    let (frac_digits, r3) :=
      if dot then span_digits 10 r2 else ([], r2) in
    match int_digits ++ frac_digits with
    | [] => None
    | (_ :: _) as ds =>
        match ExponentPart r3 with
        | Some e =>
            Some (Fin (IZR (digits_value 10 ds)
                       * powerRZ 10 (e - Z.of_nat (List.length frac_digits))))
        | None => None
        end
    end.

Definition StrDecimalLiteral (l : list ascii) : option num :=
  match l with
  | c :: rest =>
      if is_char c "+" then StrUnsignedDecimalLiteral rest
      else if is_char c "-" then
        option_map num_neg (StrUnsignedDecimalLiteral rest)
      else StrUnsignedDecimalLiteral l
  | [] => None
  end.

Definition StringToNumber (s : string) : num :=
  match trim (list_ascii_of_string s) with
  | [] => Fin 0
  | (_ :: _) as l =>
      match NonDecimalIntegerLiteral l with
      | Some x => x
      | None =>
          match StrDecimalLiteral l with
          | Some x => x
          | None => NaN
          end
      end
  end.

(** [ToNumber] of a JSON value.  An array is first turned into text by
    [join]: the empty array gives the empty text (0), an array of one
    element the text of that element (nothing for [null]), and a longer
    array a text with a comma, which is no number. *)
Fixpoint ToNumber (v : JSON) : num :=
  match v with
  | JNull => Fin 0
  | JBool b => if b then Fin 1 else Fin 0
  | JNumber x => x
  | JString s => StringToNumber s
  | JArray [] => Fin 0
  | JArray [item] =>
      match item with
      | JNull => Fin 0
      | JBool _ | JObject _ => NaN
      | _ => ToNumber item
      end
  | JArray _ => NaN
  | JObject _ => NaN
  end.

(** [ToNumber] of a value that may be [undefined] ([None]). *)
Definition ToNumber_value (v : option JSON) : num :=
  match v with
  | Some j => ToNumber j
  | None => NaN
  end.

(** The integer part of a real, towards zero. *)
Definition IntegerPart (r : R) : Z :=
  if Rle_dec 0 r then Int_part r else (- Int_part (- r))%Z.

(** The conversion of a value to the [unsigned long] of Web IDL: NaN and
    the infinities give 0, other numbers their integer part modulo 2^32. *)
Definition ToUnsignedLong (v : option JSON) : nat :=
  match ToNumber_value v with
  | Fin r => Z.to_nat (IntegerPart r mod 4294967296)
  | _ => 0%nat
  end.

(** [ToLength]: the integer part, limited to 0 .. 2^53 - 1. *)
Definition ToLength (v : option JSON) : Z :=
  match ToNumber_value v with
  | Fin r => Z.min (Z.max 0 (IntegerPart r)) 9007199254740991
  | PInf => 9007199254740991%Z
  | _ => 0%Z
  end.

(** What [response.json()] gives: the body is not JSON, or it is a JSON
    value. *)
Inductive Body : Type :=
| InvalidJSON
| Parsed (result : JSON).

(** What [fetch] gives: the promise is rejected (service unreachable), or a
    response with its [ok] flag, its status and its body. *)
Inductive FetchResult : Type :=
| Rejected
| Responded (ok : bool) (status : Z) (body : Body).

(** The service, as seen from the caller. *)
Definition Backend : Type := Request -> FetchResult.

(** [result.processedAudio]: [undefined] ([None]) unless [result] is an
    object with that member; reading a property of [null] is a
    [TypeError]. *)
Definition read_processedAudio (result : JSON) : M (option JSON) :=
  match result with
  | JNull => throw TypeError
  | JObject members => ret (member members "processedAudio")
  | _ => ret None
  end.

(** [processedAudio.length] as the [unsigned long] that [createBuffer]
    takes.  Reading a property of [undefined] or [null] is a [TypeError].
    The length of an array or of a string is below 2^32 and is passed as it
    is; an object has the length that its [length] member converts to; a
    number or a boolean has no [length], and [undefined] converts to 0. *)
Definition length_argument (processedAudio : option JSON) : M nat :=
  match processedAudio with
  | None | Some JNull => throw TypeError
  | Some (JArray items) => ret (List.length items)
  | Some (JString s) => ret (String.length s)
  | Some (JObject members) => ret (ToUnsignedLong (member members "length"))
  | Some (JBool _) | Some (JNumber _) => ret 0%nat
  end.

(** The source of [TypedArray.prototype.set] read as an array-like object:
    its length, and its element of index [k] ([None] is [undefined]). *)
Definition source_length (source : JSON) : Z :=
  match source with
  | JArray items => Z.of_nat (List.length items)
  | JString s => Z.of_nat (String.length s)
  | JObject members => ToLength (member members "length")
  | _ => 0%Z
  end.

Definition source_item (source : JSON) (k : nat) : option JSON :=
  match source with
  | JArray items => nth_error items k
  | JString s =>
      option_map (fun c => JString (String c EmptyString)) (String.get k s)
  | JObject members =>
      member members (NilEmpty.string_of_uint (Nat.to_uint k))
  | _ => None
  end.

(** [view.set(source)]: [source] is read as an array-like object and each
    element is stored as the number [ToNumber] makes of it; a source longer
    than the view is a [RangeError], [undefined] and [null] are a
    [TypeError]. *)
Definition view_set_all (v : ChannelView) (source : option JSON) : M unit :=
  b <- deref (view_buffer v) ;;
  match source with
  | None | Some JNull => throw TypeError
  | Some src =>
      if (source_length src <=? Z.of_nat (length b))%Z then
        for_loop (Z.to_nat (source_length src))
          (fun k => view_set v k (ToNumber_value (source_item src k)))
      else throw RangeError
  end.

(** [processWithBackend(audioBuffer, bands, gainArray)]; [currentMode] is the
    mode held by the provider and [backend] the service behind the URL. *)
Definition processWithBackend (backend : Backend) (currentMode : string)
  (audioBuffer : ref) (bands : list Slider) (gainArray : list num) : M ref :=
  try_catch
    (channel0 <- getChannelData audioBuffer 0 ;;
     data <- array_from channel0 ;;
     src <- deref audioBuffer ;;
     let requestData :=
       mkRequest data gainArray (sampleRate src) bands currentMode in
     match backend requestData with
     | Rejected => throw NetworkError
     | Responded ok status body =>
         if negb ok then throw (BackendError status)
         else
           match body with
           | InvalidJSON => throw SyntaxError
           | Parsed result =>
               processedAudio <- read_processedAudio result ;;
               len <- length_argument processedAudio ;;
               processedBuffer <- createBuffer 1 len (sampleRate src) ;;
               out <- getChannelData processedBuffer 0 ;;
               view_set_all out processedAudio ;;;
               ret processedBuffer
           end
     end)
    (fun _ => applySimpleProcessing audioBuffer gainArray).

(** The failures of the request after which the [try] block throws before
    it asks for a buffer: unreachable service, a status outside 2xx ([ok]
    false), a body that is not JSON, and a body without [processedAudio]
    (the body is [null] or no object, or the member is missing or
    [null]). *)
Definition request_failed (r : FetchResult) : bool :=
  match r with
  | Rejected => true
  | Responded false _ _ => true
  | Responded true _ InvalidJSON => true
  | Responded true _ (Parsed (JObject members)) =>
      match member members "processedAudio" with
      | None | Some JNull => true
      | Some _ => false
      end
  | Responded true _ (Parsed _) => true
  end.

(** A reference to a buffer as the platform builds them: at least one
    channel, at least one sample, every channel of the announced length. *)
Definition valid_buffer (b : AudioBuffer) : Prop :=
  (0 < numberOfChannels b)%nat /\ (0 < length b)%nat /\
  Forall (fun data => List.length data = length b) (channels b).

Definition valid_ref (h : Heap) (r : ref) : Prop :=
  exists b, nth_error h r = Some b /\ valid_buffer b.

(** The store while the clone is being filled: the store at the call, then
    one more buffer of the shape of [src]. *)
Definition filling (h0 : Heap) (src : AudioBuffer) (h : Heap) : Prop :=
  exists out,
    h = h0 ++ [out] /\
    sampleRate out = sampleRate src /\
    length out = length src /\
    numberOfChannels out = numberOfChannels src /\
    Forall (fun data => List.length data = length src) (channels out).

End Audio.

(* ================================================================== *)
(** * The band collection *)
(* ================================================================== *)

Module BandSet.

Local Open Scope string_scope.

(** A partial band object, as passed to [addSlider] and [updateSlider] and as
    stored in a settings file: each property is present or missing. *)
Record SliderData : Type := mkData {
  opt_id : option Z;
  opt_centerFreq : option num;
  opt_width : option num;
  opt_gain : option num;
  opt_label : option string
}.

Definition emptyData : SliderData := mkData None None None None None.

(** [value || fallback] for a number property: a missing property, 0 and
    NaN give the fallback. *)
Definition or_num (value : option num) (fallback : num) : num :=
  match value with
  | Some x => if truthy x then x else fallback
  | None => fallback
  end.

(** [value || fallback] for a string property: the empty string is falsy. *)
Definition or_string (value : option string) (fallback : string) : string :=
  match value with
  | Some s => if String.eqb s "" then fallback else s
  | None => fallback
  end.

(** One property of [{ ...base, ...over }]: the later object wins where it
    has the property. *)
Definition spread {A} (base : A) (over : option A) : A :=
  match over with Some x => x | None => base end.

(** [{ ...slider, ...updates }] *)
Definition merge (slider : Slider) (updates : SliderData) : Slider :=
  mkSlider (spread (id slider) (opt_id updates))
           (spread (centerFreq slider) (opt_centerFreq updates))
           (spread (width slider) (opt_width updates))
           (spread (gain slider) (opt_gain updates))
           (spread (label slider) (opt_label updates)).

(** The template literal [`Band ${n}`]. *)
Definition band_label (n : nat) : string :=
  "Band " ++ NilEmpty.string_of_uint (Nat.to_uint n).

(** The provider keeps the collection in a React state cell.  During one
    render, [sliders] is a constant: the functions below read that constant
    and hand a new list to [setSliders]; they do not see what an earlier
    call of the same render handed to [setSliders].  Each function is
    therefore a function of the [sliders] of its render, and what it gives
    to [setSliders] is part of its result.  [debouncedApply] only schedules
    [applyEqualizer], which stores the very list it is given, and is left
    out. *)

(** [addSlider(sliderData)], with [now] the value of [Date.now()]: the
    returned band and the list given to [setSliders]. *)
Definition addSlider (sliders : list Slider) (now : Z)
  (sliderData : SliderData) : Slider * list Slider :=
  let newSlider :=
    merge
      (mkSlider now
         (or_num (opt_centerFreq sliderData) (Fin 1000))
         (or_num (opt_width sliderData) (Fin 500))
         (or_num (opt_gain sliderData) (Fin 1))
         (or_string (opt_label sliderData)
            (band_label (List.length sliders + 1))))
      sliderData in
  let updatedSliders := (sliders ++ [newSlider])%list in
  (newSlider, updatedSliders).

(** How a call ends: it returns or it throws. *)
Inductive BandSetError : Type := NotFoundError | ValidationError.

Inductive completion (A : Type) : Type :=
| Returned (a : A)
| Thrown (e : BandSetError).

Arguments Thrown {A} e.

(** [updateSlider(sliderId, updates)]: the list given to [setSliders].  The
    body has no [throw] and calls nothing that throws. *)
Definition updateSlider (sliders : list Slider) (sliderId : Z)
  (updates : SliderData) : completion (list Slider) :=
  let updatedSliders :=
    map (fun slider =>
           if Z.eqb (id slider) sliderId then merge slider updates else slider)
        sliders in
  Returned updatedSliders.

(** [removeSlider(sliderId)]: the list given to [setSliders]. *)
Definition removeSlider (sliders : list Slider) (sliderId : Z) : list Slider :=
  filter (fun slider => negb (Z.eqb (id slider) sliderId)) sliders.

(** ** Settings files *)

(** The settings object; [sliders] is [None] when the property is missing. *)
Record Settings : Type := mkSettings {
  mode : string;
  sliders : option (list SliderData);
  timestamp : string;
  version : string
}.

(** The settings object that [saveSettings()] builds and serialises
    (lines 90 to 105), with [isoNow] the value of
    [new Date().toISOString()].  The call [saveAs(blob, ...)] that follows
    is not part of this definition: the import of [saveAs] is commented
    out in the file, so the call throws a [ReferenceError] unless the page
    defines that name, and no file is written. *)
Definition saveSettings (current : list Slider) (isoNow : string) : Settings :=
  mkSettings "generic"
    (Some (map (fun slider =>
                  mkData (Some (id slider)) (Some (centerFreq slider))
                         (Some (width slider)) (Some (gain slider))
                         (Some (label slider)))
               current))
    isoNow "1.0".

(** The calls [f(x_0), f(x_1), ...] of a [forEach], each call replacing the
    content of the state cell by the list it gives to [setSliders]. *)
Definition forEach_set {A} (f : nat -> A -> list Slider) (xs : list A)
  (cell : list Slider) : list Slider :=
  snd (fold_left (fun '(k, _) x => (S k, f k x)) xs (O, cell)).

(** [loadSettings(event)] once the file has been read and parsed into
    [settings] (JSON text keeps every finite number and every string as it
    is).  [current] is the [sliders] constant of the render that created the
    handler: [removeSlider] and [addSlider] are the functions of that render,
    also inside the [setTimeout] callback.  [clock k] is the value of
    [Date.now()] in call [k] of [addSlider].  The result is the content of
    the state cell after the callback has run. *)
Definition loadSettings (current : list Slider) (clock : nat -> Z)
  (settings : Settings) (cell : list Slider) : list Slider :=
  if String.eqb (mode settings) "generic" then
    match sliders settings with
    | Some loaded =>
        let cell :=
          forEach_set (fun _ slider => removeSlider current (id slider))
            current cell in
        forEach_set
          (fun k sliderData => snd (addSlider current (clock k) sliderData))
          loaded cell
    | None => cell
    end
  else cell.

(** The state cell threaded from call to call: what a sequence of
    [addSlider] calls gives when each call is made by a render that has seen
    the list stored by the previous one. *)
Definition add_each (clock : nat -> Z) (loaded : list SliderData)
  (start : list Slider) : list Slider :=
  snd (fold_left
         (fun '(k, cur) sliderData =>
            (S k, snd (addSlider cur (clock k) sliderData)))
         loaded (O, start)).


End BandSet.

(* ================================================================== *)
(** * Preview of a selected region *)
(* ================================================================== *)

Module Preview.

Import Audio.

(** A selection on the 800-pixel waveform canvas, with the sample indices
    when they were calculated beforehand. *)
Record Selection : Type := mkSelection {
  start : R;
  end_ : R;
  startSample : option Z;
  endSample : option Z
}.

(** [Math.floor] of a finite number. *)
Definition Math_floor (r : R) : Z := Int_part r.

(** [channelData[k]] used as a number, for an index that may be negative. *)
Definition sample_at (channelData : list num) (k : Z) : num :=
  if (k <? 0)%Z then NaN else JsArray.get channelData (Z.to_nat k).

(** [audioData[i] = v] on a [Float32Array]: ignored outside the array. *)
Definition typed_set (a : list num) (i : nat) (v : num) : list num :=
  list_update a i (fun _ => v).

(** The body of the loop "Copy and apply gain if needed" at index [i]. *)
Definition copy_step (channelData : list num) (startSample : Z)
  (useGain : bool) (gainValue : num) (i : nat) (audioData : list num)
  : list num :=
  let sourceIndex := (startSample + Z.of_nat i)%Z in
  if (sourceIndex <? Z.of_nat (List.length channelData))%Z then
    if useGain && negb (num_eqb gainValue (Fin 1)) then
      typed_set audioData i
        (Math_max (Fin (-1))
           (Math_min (Fin 1)
              (num_mul (sample_at channelData sourceIndex) gainValue)))
    else typed_set audioData i (sample_at channelData sourceIndex)
  else audioData.

(** The loop, over a new [Float32Array(segmentLength)] (all zeros). *)
Definition copy_region (channelData : list num) (startSample : Z)
  (segmentLength : nat) (useGain : bool) (gainValue : num) : list num :=
  JsArray.for_range 0 segmentLength
    (copy_step channelData startSample useGain gainValue)
    (JsArray.fill segmentLength (Fin 0)).

(** The sample indices of a selection: those stored with it, or else those
    calculated from its pixels and the number of samples of the input. *)
Definition sample_range (sel : Selection) (input : AudioBuffer) : Z * Z :=
  match startSample sel, endSample sel with
  | Some s, Some e => (s, e)
  | _, _ =>
      let totalSamples := INR (length input) in
      (Math_floor ((start sel / 800) * totalSamples)%R,
       Math_floor ((end_ sel / 800) * totalSamples)%R)
  end.

(** [playSelectedRegion(useGain, gainValue)] up to the samples handed to the
    playback buffer: [None] when the function returns early (no selection,
    no input signal, empty segment). *)
Definition playSelectedRegion (currentSelection selection : option Selection)
  (inputSignal : option AudioBuffer) (useGain : bool) (gainValue : num)
  : option (list num) :=
  let selectionToUse :=
    match currentSelection with Some s => Some s | None => selection end in
  match selectionToUse, inputSignal with
  | Some sel, Some input =>
      let '(startSample, endSample) := sample_range sel input in
      let segmentLength := (endSample - startSample)%Z in
      if (segmentLength <=? 0)%Z then None
      else
        let channelData := nth 0 (channels input) [] in
        Some (copy_region channelData startSample (Z.to_nat segmentLength)
                useGain gainValue)
  | _, _ => None
  end.

(** The sample written at index [i], or the one already there. *)
Definition region_sample (channelData : list num) (startSample : Z)
  (useGain : bool) (gainValue : num) (i : nat) (old : num) : num :=
  let sourceIndex := (startSample + Z.of_nat i)%Z in
  if (sourceIndex <? Z.of_nat (List.length channelData))%Z then
    if useGain && negb (num_eqb gainValue (Fin 1)) then
      Math_max (Fin (-1))
        (Math_min (Fin 1)
           (num_mul (sample_at channelData sourceIndex) gainValue))
    else sample_at channelData sourceIndex
  else old.

End Preview.

(* ================================================================== *)
(** * The provider: frequency bins, the log, applying the equalizer *)
(* ================================================================== *)

Module Provider.

Import Audio.

(** [x >= y] *)
Definition num_geb (x y : num) : bool := num_leb y x.

(** [getFrequencyBins()].  [analyser] is the [frequencyBinCount] of
    [analyserRef.current] when there is an analyser; [contextSampleRate] is
    [audioContextRef.current?.sampleRate]. *)
Definition getFrequencyBins (analyser : option nat)
  (contextSampleRate : option num) : list num :=
  match analyser with
  | None => []
  | Some binCount =>
      let sampleRate := BandSet.or_num contextSampleRate (Fin 44100) in
      JsArray.for_range 0 binCount
        (fun i frequencies =>
           frequencies
           ++ [num_div (num_mul (Fin (INR i)) (num_div sampleRate (Fin 2)))
                 (Fin (INR binCount))])
        []
  end.

(** The test of [logEqualizerEffects] for "this band affects [freq]". *)
Definition affects (freq : num) (band : Slider) : bool :=
  let startFreq := num_sub (centerFreq band) (num_div (width band) (Fin 2)) in
  let endFreq := num_add (centerFreq band) (num_div (width band) (Fin 2)) in
  num_geb freq startFreq && num_leb freq endFreq.



(** The state of the provider that [applyEqualizer] reads and writes. *)
Record ProviderState : Type := mkState {
  inputSignal : option ref;
  outputSignal : option ref;
  sliders : list Slider;
  isProcessing : bool
}.

(** [applyEqualizer(bands)].  [context] is the sample rate of
    [audioContextRef.current] when there is a context.  The event sent to
    the signal viewer and the console log change no state and are left
    out. *)
Definition applyEqualizer (backend : Backend) (currentMode : string)
  (context : option num) (analyser : option nat) (st : ProviderState)
  (bands : list Slider) : M ProviderState :=
  match inputSignal st, context with
  | Some input, Some _ =>
      let st1 := mkState (inputSignal st) (outputSignal st) bands true in
      st2 <- try_catch
               (let frequencyBins := getFrequencyBins analyser context in
                let gainArray :=
                  Synth.generateGainArray bands frequencyBins in
                processedBuffer <-
                  processWithBackend backend currentMode input bands
                    gainArray ;;
                ret (mkState (inputSignal st1) (Some processedBuffer)
                       (sliders st1) (isProcessing st1)))
               (fun _ => ret st1) ;;
      ret (mkState (inputSignal st2) (outputSignal st2) (sliders st2) false)
  | _, _ => ret st
  end.


(** The samples written by [applySimpleProcessing] for one channel. *)
Definition processed_channel (gainArray : list num) (data : list num)
  : list num :=
  map (fun ix => num_mul (snd ix) (JsArray.get gainArray (fst ix)))
      (combine (seq 0 (List.length data)) data).

End Provider.

(** The earlier [generateGainArray] kept in the same file (the provider
    that starts at line 787): a rectangular window, the gain of a band
    replacing the gain of the bin. *)
Module ProviderV1.

Import JsArray.

Definition bin_step (frequencyBins : list num) (slider : Slider)
  (startFreq endFreq : num) (i : nat) (gains : list num) : list num :=
  let freq := get frequencyBins i in
  if Provider.num_geb freq startFreq && num_leb freq endFreq then
    set gains i (gain slider)
  else gains.

Definition generateGainArray (sliders : list Slider)
  (frequencyBins : list num) : list num :=
  let gains := fill (List.length frequencyBins) (Fin 1) in
  fold_left
    (fun gains slider =>
       let startFreq :=
         num_sub (centerFreq slider) (num_div (width slider) (Fin 2)) in
       let endFreq :=
         num_add (centerFreq slider) (num_div (width slider) (Fin 2)) in
       for_range 0 (List.length frequencyBins)
         (bin_step frequencyBins slider startFreq endFreq) gains)
    sliders gains.

(** The band that decides a bin: the last one in the list whose range
    holds the frequency. *)
Definition last_affecting (sliders : list Slider) (freq : num)
  : option Slider :=
  find (Provider.affects freq) (rev sliders).

(** What one band does to the gain of one bin in the earlier version. *)
Definition replace_gain (freq : num) (g : num) (s : Slider) : num :=
  if Provider.affects freq s then gain s else g.

End ProviderV1.

(** ** What the loops of [applySimpleProcessing] do to the clone *)

Module AudioPure.

Import Audio.

(** The sample [i] of channel [ch] of a buffer, as [view_get] reads it. *)
Definition sample_of (b : AudioBuffer) (ch i : nat) : num :=
  undefined_to_num
    (match nth_error (channels b) ch with
     | Some data => nth_error data i
     | None => None
     end).

(** The channels after [view[i] = x] on channel [ch]. *)
Definition write_channels (chs : list (list num)) (ch i : nat) (x : num)
  : list (list num) :=
  list_update chs ch (fun data => list_update data i (fun _ => x)).

(** The buffer after [view[i] = x] on its channel [ch]. *)
Definition write_sample (b : AudioBuffer) (ch i : nat) (x : num)
  : AudioBuffer :=
  mkBuffer (sampleRate b) (length b) (write_channels (channels b) ch i x).

(** The value stored at sample [i] of channel [ch] of the clone. *)
Definition processed_value (src : AudioBuffer) (gainArray : list num)
  (ch i : nat) : num :=
  num_mul (sample_of src ch i) (JsArray.get gainArray i).

End AudioPure.

(* ================================================================== *)
(** * The two generic-mode components *)
(* ================================================================== *)

(** components/GenericMode.jsx *)
Module GenericModeOld.

Import BandSet.

(** The calls of a [forEach], each call storing the list it computed; a
    call that throws ends the [forEach]. *)
Definition forEach_calls {A} (f : A -> completion (list Slider))
  (xs : list A) (cell : list Slider) : completion (list Slider) :=
  fold_left
    (fun acc x =>
       match acc with
       | Returned _ => f x
       | Thrown e => Thrown e
       end)
    xs (Returned cell).

(** [handleResetAll()]: [current] is the [sliders] constant of the render,
    read by every [updateSlider] call of the [forEach]; the result is the
    content of the state cell after the last call. *)
Definition handleResetAll (current : list Slider) (cell : list Slider)
  : completion (list Slider) :=
  let resetSliders :=
    map (fun slider =>
           mkSlider (id slider) (centerFreq slider) (width slider) (Fin 1)
             (label slider))
        current in
  forEach_calls
    (fun slider =>
       updateSlider current (id slider)
         (mkData None None None (Some (Fin 1)) None))
    resetSliders cell.

(** The band [b] with its gain set to 1. *)
Definition unit_gain (b : Slider) : Slider :=
  mkSlider (id b) (centerFreq b) (width b) (Fin 1) (label b).

End GenericModeOld.

(** components/modes/GenericMode.jsx.  This component keeps a list of bands
    of its own, updated with [setSliders(prev => ...)]: such an update is
    applied to the list left by the update before it. *)
Module GenericModeNew.

Import BandSet Audio Preview.
Local Open Scope R_scope.

(** The selection being dragged on the canvas. *)
Record Drag : Type := mkDrag {
  drag_start : R;
  drag_end : R;
  drag_width : R
}.

(** [handleMouseMove(e)], with [x = e.clientX - rect.left]: the selection
    stored, or [None] when the handler returns at once. *)
Definition handleMouseMove (isSelecting : bool) (selection : option Drag)
  (hasInputSignal : bool) (x : R) : option Drag :=
  match selection with
  | Some sel =>
      if isSelecting && hasInputSignal then
        let boundedX := Rmax 0 (Rmin 800 x) in
        Some (mkDrag (Rmin (drag_start sel) boundedX)
                     (Rmax (drag_start sel) boundedX)
                     (Rabs (boundedX - drag_start sel)))
      else None
  | None => None
  end.

(** [Math.round] of a finite number: halves go up. *)
Definition Math_round (r : R) : Z := Int_part (r + 1 / 2).

(** [handleAddSlider(sliderData)]: the band returned by the provider's
    [addSlider] and the local list with that band appended. *)
Definition handleAddSlider (providerSliders : list Slider) (now : Z)
  (sliderData : SliderData) (prev : list Slider) : Slider * list Slider :=
  let newSlider := fst (addSlider providerSliders now sliderData) in
  (newSlider, (prev ++ [newSlider])%list).

(** [handleUpdateSlider(sliderId, updates)] on the local list. *)
Definition handleUpdateSlider (sliderId : Z) (updates : SliderData)
  (prev : list Slider) : list Slider :=
  map (fun slider =>
         if Z.eqb (id slider) sliderId then merge slider updates else slider)
      prev.

(** [handleResetAllGains()]: the local list after the updates queued by the
    [forEach] over [sliders], the local list of the render. *)
Definition handleResetAllGains (sliders : list Slider) (prev : list Slider)
  : list Slider :=
  fold_left
    (fun prev slider =>
       handleUpdateSlider (id slider)
         (mkData None None None (Some (Fin 1)) None) prev)
    sliders prev.




(** The records written by [handleSaveSettings()]: no [id]. *)
Definition handleSaveSettings (sliders : list Slider) (isoNow : string)
  : Settings :=
  mkSettings "generic"
    (Some (map (fun slider =>
                  mkData None (Some (centerFreq slider))
                         (Some (width slider)) (Some (gain slider))
                         (Some (label slider)))
               sliders))
    isoNow "1.0".

Section BandFromSelection.

(** The conversion of a number to text in a template literal. *)
Variable Number_toString : Z -> string.

(** [createBandFromSelection()]: the region stored for the band (and as
    [currentSelection]), the new band and the local list; [None] when there
    is no selection or no input signal. *)
Definition createBandFromSelection (selection : option Drag)
  (inputSignal : option AudioBuffer) (providerSliders : list Slider)
  (now : Z) (prev : list Slider)
  : option (Selection * Slider * list Slider) :=
  match selection, inputSignal with
  | Some sel, Some input =>
      let startFreq := (drag_start sel / 800) * 20000 in
      let endFreq := (drag_end sel / 800) * 20000 in
      let centerFreq := (startFreq + endFreq) / 2 in
      let bandwidth := endFreq - startFreq in
      let totalSamples := INR (length input) in
      let startSample := Math_floor ((drag_start sel / 800) * totalSamples) in
      let endSample := Math_floor ((drag_end sel / 800) * totalSamples) in
      let validatedSelection :=
        mkSelection (Rmax 0 (drag_start sel)) (Rmin 800 (drag_end sel))
          (Some startSample) (Some endSample) in
      let '(newSlider, local) :=
        handleAddSlider providerSliders now
          (mkData None
             (Some (Fin (Rmax 20 (Rmin 20000 centerFreq))))
             (Some (Fin (Rmax 50 (Rmin 5000 bandwidth))))
             (Some (Fin 1))
             (Some (Number_toString (Math_round centerFreq) ++ "Hz Band")%string))
          prev in
      Some (validatedSelection, newSlider, local)
  | _, _ => None
  end.

End BandFromSelection.

(** How [handleBandPreview(gain)] ends. *)
Inductive PreviewOutcome : Type :=
| NoSignal
| NoRegion
| IncompleteRegion
| Played (samples : option (list num)).

(** [!value] for a sample index that may be missing: missing and 0 are
    falsy. *)
Definition falsy_index (value : option Z) : bool :=
  match value with
  | Some z => Z.eqb z 0
  | None => true
  end.

(** [handleBandPreview(gain)]; [IncompleteRegion] also resets
    [currentSelection]. *)
Definition handleBandPreview (inputSignal : option AudioBuffer)
  (currentSelection selection : option Selection) (gain : num)
  : PreviewOutcome :=
  match inputSignal with
  | None => NoSignal
  | Some _ =>
      match currentSelection with
      | None => NoRegion
      | Some cur =>
          if falsy_index (startSample cur) || falsy_index (endSample cur)
          then IncompleteRegion
          else Played (playSelectedRegion currentSelection selection
                         inputSignal true gain)
      end
  end.

(** The sample played for the input sample [x]. *)
Definition preview_sample (useGain : bool) (gainValue : num) (x : num)
  : num :=
  if useGain && negb (num_eqb gainValue (Fin 1)) then
    Math_max (Fin (-1)) (Math_min (Fin 1) (num_mul x gainValue))
  else x.

(** A band with the id replaced. *)
Definition with_id (i : Z) (b : Slider) : Slider :=
  mkSlider i (centerFreq b) (width b) (gain b) (label b).

End GenericModeNew.

(* ================================================================== *)
(** * The frequency graph and its range sliders *)
(* ================================================================== *)

(** The component [FrequencyGraph]. *)
Module FrequencyGraph.

Definition STEP_HZ : num := Fin 10.
Definition MIN_LOG_HZ : num := Fin 125.

(** [x > y] *)
Definition num_gtb (x y : num) : bool := num_ltb y x.

(** [Math.round]: the nearest integer, halves going up. *)
Definition Math_round (x : num) : num :=
  match x with
  | Fin r => Fin (IZR (Int_part (r + 1 / 2)))
  | _ => x
  end.

(** [snapToStep(value, step)] *)
Definition snapToStep (value step : num) : num :=
  num_mul (Math_round (num_div value step)) step.

(** [normalizeRange(start, end)] *)
Definition normalizeRange (start end_ : num) : num * num :=
  if num_leb start end_ then (start, end_) else (end_, start).

(** A point of the spectrum. *)
Record Point : Type := mkPoint {
  frequency : num;
  magnitude : num
}.

(** A range slider [{ id, startHz, endHz, gain, label }]. *)
Record RangeSlider : Type := mkRange {
  id : Z;
  startHz : num;
  endHz : num;
  gain : num;
  label : string
}.

(** The draft range [{ startHz, endHz }]. *)
Record DraftRange : Type := mkDraft {
  draft_startHz : num;
  draft_endHz : num
}.

(** [maxHz]: the [reduce] over the frequencies, from 0. *)
Definition maxHz (frequencyData : list Point) : num :=
  fold_left (fun acc point => Math_max acc (frequency point))
    frequencyData (Fin 0).

Definition safeMaxHz (frequencyData : list Point) : num :=
  Math_max (maxHz frequencyData) MIN_LOG_HZ.

(** The adjustment of a range made by the two effects that run when
    [safeMaxHz] changes. *)
Definition adjust_range (safeMax startHz endHz : num) : num * num :=
  let start :=
    Math_min (Math_max startHz (Fin 0)) (num_sub safeMax STEP_HZ) in
  let end_ := Math_min (Math_max endHz STEP_HZ) safeMax in
  let end_ :=
    if num_ltb (num_sub end_ start) STEP_HZ
    then Math_min safeMax (num_add start STEP_HZ)
    else end_ in
  (start, end_).

(** The effect on the draft range. *)
Definition adjust_draft (safeMax : num) (prev : DraftRange) : DraftRange :=
  let '(start, end_) :=
    adjust_range safeMax (draft_startHz prev) (draft_endHz prev) in
  mkDraft start end_.

(** The effect on the list of sliders. *)
Definition adjust_sliders (safeMax : num) (prev : list RangeSlider)
  : list RangeSlider :=
  map (fun slider =>
         let '(start, end_) :=
           adjust_range safeMax (startHz slider) (endHz slider) in
         mkRange (id slider) start end_ (gain slider) (label slider))
      prev.



(** The new ends of a range when [field] is set to [numeric]. *)
Definition move_end (safeMax : num) (field : string) (numeric : num)
  (startHz endHz : num) : num * num :=
  if String.eqb field "startHz" then
    let startHz :=
      Math_min (Math_max (Fin 0) numeric) (num_sub safeMax STEP_HZ) in
    let endHz :=
      if num_gtb startHz (num_sub endHz STEP_HZ)
      then Math_min safeMax (num_add startHz STEP_HZ)
      else endHz in
    (startHz, endHz)
  else
    let endHz := Math_max (Math_min safeMax numeric) STEP_HZ in
    let startHz :=
      if num_ltb endHz (num_add startHz STEP_HZ)
      then Math_max (Fin 0) (num_sub endHz STEP_HZ)
      else startHz in
    (startHz, endHz).

(** [handleDraftRangeChange(field, rawValue)], [raw] being
    [Number(rawValue)]. *)
Definition handleDraftRangeChange (safeMax : num) (field : string)
  (raw : num) (prev : DraftRange) : DraftRange :=
  let numeric := snapToStep raw STEP_HZ in
  let '(nextStart, nextEnd) :=
    move_end safeMax field numeric (draft_startHz prev) (draft_endHz prev) in
  mkDraft nextStart nextEnd.

(** [updateSliderRange(id, field, rawValue)], [raw] being
    [Number(rawValue)]. *)
Definition updateSliderRange (safeMax : num) (sliderId : Z) (field : string)
  (raw : num) (prev : list RangeSlider) : list RangeSlider :=
  let numeric := snapToStep raw STEP_HZ in
  map (fun slider =>
         if negb (Z.eqb (id slider) sliderId) then slider
         else
           let '(startHz, endHz) :=
             move_end safeMax field numeric (startHz slider) (endHz slider) in
           mkRange (id slider) startHz endHz (gain slider) (label slider))
      prev.

(** [updateSliderGain(id, rawValue)], [raw] being [Number(rawValue)]. *)
Definition updateSliderGain (sliderId : Z) (raw : num)
  (prev : list RangeSlider) : list RangeSlider :=
  let numeric := Math_min (Fin 2) (Math_max (Fin 0) raw) in
  map (fun slider =>
         if Z.eqb (id slider) sliderId
         then mkRange (id slider) (startHz slider) (endHz slider) numeric
                (label slider)
         else slider)
      prev.

(** [updateSliderLabel(id, value)] *)
Definition updateSliderLabel (sliderId : Z) (value : string)
  (prev : list RangeSlider) : list RangeSlider :=
  map (fun slider =>
         if Z.eqb (id slider) sliderId
         then mkRange (id slider) (startHz slider) (endHz slider)
                (gain slider) value
         else slider)
      prev.

(** [removeSlider(id)] *)
Definition removeSlider (sliderId : Z) (prev : list RangeSlider)
  : list RangeSlider :=
  filter (fun slider => negb (Z.eqb (id slider) sliderId)) prev.

Section AddFromDraft.

(** The conversion of a number to text in a template literal. *)
Variable Number_toString : Z -> string.

(** [addSliderFromDraft()]: [sliderList] is the list of the render, from
    which the id is taken; [prev] is the list the update is applied to. *)
Definition addSliderFromDraft (sliderList : list RangeSlider)
  (draftRange : DraftRange) (prev : list RangeSlider) : list RangeSlider :=
  let '(start, end_) :=
    normalizeRange (draft_startHz draftRange) (draft_endHz draftRange) in
  let nextId :=
    match rev sliderList with
    | lastSlider :: _ => (id lastSlider + 1)%Z
    | [] => 1%Z
    end in
  prev ++ [mkRange nextId start end_ (Fin 1)
             ("Range " ++ Number_toString nextId)%string].

End AddFromDraft.

(** [canAddDraft] *)
Definition canAddDraft (draftRange : DraftRange) : bool :=
  num_leb STEP_HZ
    (num_sub (draft_endHz draftRange) (draft_startHz draftRange)).

(** An upper bound that is a finite number of at least twice the step. *)
Definition wide_enough (safeMax : num) (m : R) : Prop :=
  safeMax = Fin m /\ (20 <= m)%R.



End FrequencyGraph.

(* ================================================================== *)
(** * The synthetic test signal *)
(* ================================================================== *)

(** utils/SyntheticSignal.jsx *)
Module SyntheticSignal.

Local Open Scope R_scope.

(** [Math.sin]: NaN at NaN and at the infinities. *)
Definition Math_sin (x : num) : num :=
  match x with
  | Fin r => Fin (sin r)
  | _ => NaN
  end.

(** The fields of a [SyntheticSignalGenerator]. *)
Record Generator : Type := mkGenerator {
  frequencies : list num;
  amplitudes : list num;
  duration : nat;
  sampleRate : nat
}.

(** [new SyntheticSignalGenerator()] *)
#[warnings="-abstract-large-number"]
Definition newGenerator : Generator :=
  mkGenerator
    [Fin 50; Fin 100; Fin 250; Fin 500; Fin 1000; Fin 2000; Fin 4000;
     Fin 8000; Fin 12000]
    [Fin (3 / 10); Fin (5 / 10); Fin (4 / 10); Fin (6 / 10); Fin (8 / 10);
     Fin (5 / 10); Fin (4 / 10); Fin (3 / 10); Fin (2 / 10)]
    5 44100.

(** The sample of index [i]: the [forEach] over the frequencies adds one
    sine wave per frequency; the sum is divided by the number of
    frequencies. *)
Definition sample_at (g : Generator) (i : nat) : num :=
  let time := num_div (Fin (INR i)) (Fin (INR (sampleRate g))) in
  let sample :=
    fold_left
      (fun sample index_freq =>
         let amplitude := JsArray.get (amplitudes g) (fst index_freq) in
         num_add sample
           (num_mul amplitude
              (Math_sin
                 (num_mul
                    (num_mul (num_mul (Fin 2) Math_PI) (snd index_freq))
                    time))))
      (combine (seq 0 (List.length (frequencies g))) (frequencies g))
      (Fin 0) in
  num_div sample (Fin (INR (List.length (frequencies g)))).

(** The [signal] array built by [generateSignal()]. *)
Definition generateSignal (g : Generator) : list num :=
  JsArray.for_range 0 (duration g * sampleRate g)
    (fun i signal => Preview.typed_set signal i (sample_at g i))
    (JsArray.fill (duration g * sampleRate g) (Fin 0)).

(** The sum of the absolute values of a list of reals. *)
Definition sum_abs (l : list R) : R :=
  fold_right (fun a acc => Rabs a + acc) 0 l.

End SyntheticSignal.

(** ** The WAV file of the synthetic signal *)

Module Wav.

Local Open Scope Z_scope.

(** The bytes of an [ArrayBuffer], each from 0 to 255. *)
Definition Bytes : Type := list Z.

(** A write of the bytes [bs] at byte offset [off] through a [DataView]:
    a [RangeError] ([None]) when they do not fit in the buffer. *)
Definition store (buf : Bytes) (off : nat) (bs : list Z) : option Bytes :=
  if (off + List.length bs <=? List.length buf)%nat then
    Some (firstn off buf ++ bs ++ skipn (off + List.length bs) buf)
  else None.

(** The [size] bytes of [v], least significant first. *)
Definition le_bytes (size : nat) (v : Z) : list Z :=
  map (fun k => (v / 256 ^ Z.of_nat k) mod 256) (seq 0 size).

(** The integer part of a real, towards zero. *)
Definition truncate (r : R) : Z :=
  if Rle_dec 0 r then Int_part r else - Int_part (- r).

(** The 16 bits stored for a number by [setInt16]: the integer part modulo
    2^16; 0 for NaN and the infinities. *)
Definition ToInt16 (x : num) : Z :=
  match x with
  | Fin r => truncate r mod 65536
  | _ => 0
  end.

Definition setUint8 (buf : Bytes) (off : nat) (v : Z) : option Bytes :=
  store buf off [v mod 256].

(** [view.setUint16(off, v, true)] *)
Definition setUint16 (buf : Bytes) (off : nat) (v : Z) : option Bytes :=
  store buf off (le_bytes 2 (v mod 65536)).

(** [view.setUint32(off, v, true)] *)
Definition setUint32 (buf : Bytes) (off : nat) (v : Z) : option Bytes :=
  store buf off (le_bytes 4 (v mod 4294967296)).

(** [view.setInt16(off, x, true)] *)
Definition setInt16 (buf : Bytes) (off : nat) (x : num) : option Bytes :=
  store buf off (le_bytes 2 (ToInt16 x)).

Definition and_then (o : option Bytes) (k : Bytes -> option Bytes)
  : option Bytes :=
  match o with Some buf => k buf | None => None end.

Notation "o >>= k" := (and_then o k) (at level 50, left associativity).

(** [string.charCodeAt(i)] for each character. *)
Definition charCodes (s : string) : list Z :=
  map (fun c => Z.of_N (Ascii.N_of_ascii c)) (list_ascii_of_string s).

(** [writeString(offset, string)] *)
Definition writeString (buf : Bytes) (offset : nat) (s : string)
  : option Bytes :=
  fst (fold_left
         (fun '(acc, i) code =>
            (acc >>= (fun b => setUint8 b (offset + i) code), S i))
         (charCodes s) (Some buf, O)).

(** The value given to [setInt16] for the sample [x]. *)
Definition scaled_sample (x : num) : num :=
  let sample := Math_max (Fin (-1)) (Math_min (Fin 1) x) in
  if num_ltb sample (Fin 0)
  then num_mul sample (Fin 32768)
  else num_mul sample (Fin 32767).

(** The loop "Write audio samples", from byte offset [offset]. *)
Fixpoint write_samples (buf : Bytes) (offset : nat) (audioData : list num)
  : option Bytes :=
  match audioData with
  | [] => Some buf
  | x :: rest =>
      setInt16 buf offset (scaled_sample x)
      >>= (fun b => write_samples b (offset + 2) rest)
  end.

(** [createWavBuffer(audioData, sampleRate)] *)
Definition createWavBuffer (audioData : list num) (sampleRate : nat)
  : option Bytes :=
  let length := Z.of_nat (List.length audioData) in
  let rate := Z.of_nat sampleRate in
  let buffer := repeat 0 (44 + List.length audioData * 2) in
  writeString buffer 0 "RIFF"
  >>= (fun b => setUint32 b 4 (36 + length * 2))
  >>= (fun b => writeString b 8 "WAVE")
  >>= (fun b => writeString b 12 "fmt ")
  >>= (fun b => setUint32 b 16 16)
  >>= (fun b => setUint16 b 20 1)
  >>= (fun b => setUint16 b 22 1)
  >>= (fun b => setUint32 b 24 rate)
  >>= (fun b => setUint32 b 28 (rate * 2))
  >>= (fun b => setUint16 b 32 2)
  >>= (fun b => setUint16 b 34 16)
  >>= (fun b => writeString b 36 "data")
  >>= (fun b => setUint32 b 40 (length * 2))
  >>= (fun b => write_samples b 44 audioData).

(** Reading back: the unsigned value of bytes given least significant
    first, and the signed value of 16 bits. *)
Fixpoint le_value (bs : list Z) : Z :=
  match bs with
  | [] => 0
  | b :: rest => b + 256 * le_value rest
  end.

Definition getUint (size : nat) (buf : Bytes) (off : nat) : Z :=
  le_value (firstn size (skipn off buf)).

Definition getInt16 (buf : Bytes) (off : nat) : Z :=
  let v := getUint 2 buf off in
  if v <? 32768 then v else v - 65536.

(** The 16-bit sample of the file for the sample [x] of the signal. *)
Definition pcm (x : num) : Z :=
  match scaled_sample x with
  | Fin r => truncate r
  | _ => 0
  end.

(** The bytes of one sample. *)
Definition sample_bytes (x : num) : list Z :=
  le_bytes 2 (ToInt16 (scaled_sample x)).

(** The 44 bytes of the header for [n] samples at [rate] samples a
    second. *)
Definition header (n rate : Z) : list Z :=
  charCodes "RIFF" ++ le_bytes 4 ((36 + n * 2) mod 4294967296)
  ++ charCodes "WAVE" ++ charCodes "fmt "
  ++ le_bytes 4 (16 mod 4294967296) ++ le_bytes 2 (1 mod 65536)
  ++ le_bytes 2 (1 mod 65536)
  ++ le_bytes 4 (rate mod 4294967296)
  ++ le_bytes 4 ((rate * 2) mod 4294967296)
  ++ le_bytes 2 (2 mod 65536) ++ le_bytes 2 (16 mod 65536)
  ++ charCodes "data" ++ le_bytes 4 ((n * 2) mod 4294967296).

End Wav.

(* ================================================================== *)
(** * The gain-curve synthesizer in double precision *)
(* ================================================================== *)

(** [generateGainArray] once more, with every number the IEEE-754 binary64
    value that JavaScript computes with: sums, differences, products and
    quotients are rounded to the nearest double.  This is the model for the
    statements that the rounding decides.  [Math.cos] is approximated by
    the platform: ECMA-262 fixes only its value at zero (1) and at NaN and
    the infinities (NaN), so the approximation elsewhere is a parameter,
    [cos_approx]. *)
Module Double.

Local Open Scope float_scope.

(** A band object [{ id, centerFreq, width, gain, label }]. *)
Record Slider : Type := mkSlider {
  id : Z;
  centerFreq : float;
  width : float;
  gain : float;
  label : string
}.

(** [Math.PI] *)
Definition Math_PI : float := 0x1.921fb54442d18p+1.

(** [a[i]] used as a number ([undefined], hence NaN, outside the array). *)
Definition get (a : list float) (i : nat) : float :=
  match nth_error a i with
  | Some x => x
  | None => nan
  end.

(** [a[i] = v] *)
Fixpoint set (a : list float) (i : nat) (v : float) : list float :=
  match a, i with
  | [], O => [v]
  | [], S j => nan :: set [] j v
  | _ :: t, O => v :: t
  | x :: t, S j => x :: set t j v
  end.

Section Platform.

Variable cos_approx : float -> float.

(** [Math.cos] *)
Definition Math_cos (x : float) : float :=
  if is_nan x || is_infinity x then nan
  else if x =? 0 then 1
  else cos_approx x.

(** The body of the inner [for] loop of [generateGainArray]. *)
Definition bin_step (frequencyBins : list float) (slider : Slider)
  (halfWidth : float) (i : nat) (gains : list float) : list float :=
  let freq := get frequencyBins i in
  let distance := abs (freq - centerFreq slider) in
  if distance <=? halfWidth then
    let norm := distance / halfWidth in
    let smooth := Math_cos ((norm * Math_PI) / 2) in
    let smoothGain := 1 + (gain slider - 1) * smooth in
    set gains i (get gains i * smoothGain)
  else gains.

(** [generateGainArray(sliders, frequencyBins)] *)
Definition generateGainArray (sliders : list Slider)
  (frequencyBins : list float) : list float :=
  let gains := repeat 1 (List.length frequencyBins) in
  fold_left
    (fun gains slider =>
       let halfWidth := width slider / 2 in
       JsArray.for_range 0 (List.length frequencyBins)
         (bin_step frequencyBins slider halfWidth) gains)
    sliders gains.

(** The test [distance <= halfWidth] of [generateGainArray]. *)
Definition covers (s : Slider) (freq : float) : bool :=
  abs (freq - centerFreq s) <=? width s / 2.

(** The factor [smoothGain] of a band at a frequency. *)
Definition smoothGain_of (s : Slider) (freq : float) : float :=
  1 + (gain s - 1)
      * Math_cos (((abs (freq - centerFreq s) / (width s / 2)) * Math_PI) / 2).

(** What one band does to the accumulated gain [g] of one bin. *)
Definition apply_band (freq : float) (g : float) (s : Slider) : float :=
  if covers s freq then g * smoothGain_of s freq else g.

(** The factors of one entry of the curve: those of the bands that cover
    the frequency, in the order of the list. *)
Definition factors (sliders : list Slider) (freq : float) : list float :=
  map (fun s => smoothGain_of s freq)
      (filter (fun s => covers s freq) sliders).

(** The product of a list of factors, taken from 1 in list order. *)
Definition product (fs : list float) : float := fold_left mul fs 1.

End Platform.


(** The test of [logEqualizerEffects] for "this band affects [freq]". *)
Definition affects (freq : float) (band : Slider) : bool :=
  let startFreq := centerFreq band - width band / 2 in
  let endFreq := centerFreq band + width band / 2 in
  (startFreq <=? freq) && (freq <=? endFreq).

(** [Math.max] and [Math.min] of two numbers: NaN if either is NaN, and
    +0 above -0. *)
Definition Math_max (a b : float) : float :=
  if is_nan a || is_nan b then nan
  else if a <? b then b
  else if b <? a then a
  else if a =? 0 then a + b
  else a.

Definition Math_min (a b : float) : float :=
  if is_nan a || is_nan b then nan
  else if a <? b then a
  else if b <? a then b
  else if a =? 0 then - (- a - b)
  else a.


End Double.

(* ================================================================== *)
(** * Concrete bands, axes and buffers *)
(* ================================================================== *)

Module Examples.

Local Open Scope R_scope.
Import BandSet Audio.

(** The end-to-end example of the specification: one band centred at 100 Hz,
    150 Hz wide, gain 1.5, over the axis 25, 100, 175, 500 Hz. *)
Definition example_band : Slider :=
  mkSlider 1 (Fin 100) (Fin 150) (Fin (3 / 2)) "Bass".

Definition example_axis : list num := [Fin 25; Fin 100; Fin 175; Fin 500].

(** A store with one mono buffer of two samples. *)
Definition example_input : AudioBuffer :=
  mkBuffer (Fin 44100) 2 [[Fin (1 / 2); Fin (- (1 / 4))]].

Definition bass : Slider := mkSlider 1 (Fin 100) (Fin 150) (Fin 1) "Bass".
Definition mid : Slider := mkSlider 2 (Fin 1000) (Fin 800) (Fin 1) "Mid".


(** A selection of the first two samples, with its sample indices. *)
Definition first_two : Preview.Selection :=
  Preview.mkSelection 0 (16 / 10) (Some 0%Z) (Some 2%Z).

(** The body [{"processedAudio": [1, 0]}] of a service that answers as
    expected, and two bodies whose [processedAudio] is no array of numbers:
    [{"processedAudio": "oops"}] and [{"processedAudio": ["a", "b"]}]. *)
Definition good_body : Body :=
  Parsed (JObject [("processedAudio"%string,
                    JArray [JNumber (Fin 1); JNumber (Fin 0)])]).

Definition text_body : Body :=
  Parsed (JObject [("processedAudio"%string, JString "oops")]).

Definition words_body : Body :=
  Parsed (JObject [("processedAudio"%string,
                    JArray [JString "a"; JString "b"])]).

(** A zero-bandwidth band at 1500 Hz, and an axis that has its centre. *)
Definition notch : Slider := mkSlider 4 (Fin 1500) (Fin 0) (Fin 2) "Notch".

Definition notch_axis : list num := [Fin 0; Fin 1500; Fin 3000].

(** Bands and frequencies in double precision.  Two bands of gains 0.1 and
    1 centred at 1000 Hz; three bands of gains 0.1, 0.1 and 0.3 centred at
    1000 Hz, in two orders; the band that [createBandFromSelection] makes
    of a selection from pixel 400 to pixel 581. *)
#[warnings="-inexact-float"]
Definition tenth : Double.Slider :=
  Double.mkSlider 1 1000 500 0.1 "A".


#[warnings="-inexact-float"]
Definition tenth_again : Double.Slider :=
  Double.mkSlider 5 1000 800 0.1 "B".

#[warnings="-inexact-float"]
Definition three_tenths : Double.Slider :=
  Double.mkSlider 3 1000 300 0.3 "C".

(** A platform whose approximation of the cosine is never asked. *)
Definition no_cos : float -> float := fun _ => nan.


End Examples.

(* ================================================================== *)
(** * Facts about numbers *)
(* ================================================================== *)

Module NumFacts.

Local Open Scope R_scope.

Lemma Req_b_true (a b : R) : a = b -> Req_b a b = true.
Proof.
  intros H. unfold Req_b.
  destruct (Req_dec_T a b); [reflexivity | contradiction].
Qed.

Lemma Req_b_false (a b : R) : a <> b -> Req_b a b = false.
Proof.
  intros H. unfold Req_b.
  destruct (Req_dec_T a b); [contradiction | reflexivity].
Qed.

Lemma Rle_b_true (a b : R) : a <= b -> Rle_b a b = true.
Proof.
  intros H. unfold Rle_b.
  destruct (Rle_dec a b); [reflexivity | contradiction].
Qed.

Lemma Rle_b_false (a b : R) : b < a -> Rle_b a b = false.
Proof.
  intros H. unfold Rle_b. destruct (Rle_dec a b); [lra | reflexivity].
Qed.

Lemma Rlt_b_true (a b : R) : a < b -> Rlt_b a b = true.
Proof.
  intros H. unfold Rlt_b.
  destruct (Rlt_dec a b); [reflexivity | contradiction].
Qed.

Lemma Rlt_b_false (a b : R) : b <= a -> Rlt_b a b = false.
Proof.
  intros H. unfold Rlt_b. destruct (Rlt_dec a b); [lra | reflexivity].
Qed.

Lemma inf_times_pos (i : num) (r : R) : 0 < r -> inf_times i r = i.
Proof.
  intros H. unfold inf_times.
  rewrite Req_b_false by lra. rewrite Rlt_b_true by lra. reflexivity.
Qed.

Lemma inf_times_neg (i : num) (r : R) : r < 0 -> inf_times i r = num_neg i.
Proof.
  intros H. unfold inf_times.
  rewrite Req_b_false by lra. rewrite Rlt_b_false by lra. reflexivity.
Qed.

Lemma inf_times_zero (i : num) : inf_times i 0 = NaN.
Proof. unfold inf_times. rewrite Req_b_true by reflexivity. reflexivity. Qed.

Lemma num_mul_comm (x y : num) : num_mul x y = num_mul y x.
Proof.
  destruct x, y; simpl; try reflexivity.
  f_equal. ring.
Qed.


Lemma num_mul_NaN_r (x : num) : num_mul x NaN = NaN.
Proof. destruct x; reflexivity. Qed.

Lemma num_add_NaN_r (x : num) : num_add x NaN = NaN.
Proof. destruct x; reflexivity. Qed.

Lemma num_div_zero_zero : num_div (Fin 0) (Fin 0) = NaN.
Proof. simpl. rewrite Req_b_true by reflexivity. reflexivity. Qed.

Lemma num_div_by_2 (a : R) : num_div (Fin a) (Fin 2) = Fin (a / 2).
Proof. simpl. rewrite Req_b_false by lra. reflexivity. Qed.

(** Multiplying by a real of known sign. *)
Lemma mul_sign_pos (a b : R) : 0 < a -> 0 < b -> 0 < a * b.
Proof. intros. apply Rmult_lt_0_compat; assumption. Qed.

Lemma mul_sign_neg_pos (a b : R) : a < 0 -> 0 < b -> a * b < 0.
Proof. intros. nra. Qed.

Lemma mul_sign_neg_neg (a b : R) : a < 0 -> b < 0 -> 0 < a * b.
Proof. intros. nra. Qed.

Ltac real_sign r :=
  lazymatch goal with
  | _ : r < 0 |- _ => fail
  | _ : r = 0 |- _ => fail
  | _ : 0 < r |- _ => fail
  | _ =>
      let H := fresh "Hsign" in
      destruct (Rtotal_order r 0) as [H | [H | H]];
      [ | | apply Rgt_lt in H ]
  end.

Ltac all_signs :=
  repeat match goal with r : R |- _ => real_sign r end.

Lemma inf_times_eq_zero (i : num) (r : R) : r = 0 -> inf_times i r = NaN.
Proof. intros ->. apply inf_times_zero. Qed.

Ltac sign_side :=
  solve [ assumption
        | apply mul_sign_pos; assumption
        | apply mul_sign_neg_neg; assumption
        | apply mul_sign_neg_pos; assumption
        | rewrite Rmult_comm; apply mul_sign_neg_pos; assumption
        | match goal with H : ?r = 0 |- _ => rewrite H; ring end ].

Ltac norm_inf :=
  repeat first
    [ rewrite inf_times_eq_zero by sign_side
    | rewrite inf_times_pos by sign_side
    | rewrite inf_times_neg by sign_side ];
  simpl.

Lemma num_mul_assoc (x y z : num) :
  num_mul (num_mul x y) z = num_mul x (num_mul y z).
Proof.
  destruct x as [a| | |], y as [b| | |], z as [c| | |]; simpl;
    try reflexivity;
    try (f_equal; ring);
    all_signs;
    norm_inf; try reflexivity; norm_inf; reflexivity.
Qed.

End NumFacts.

(* ================================================================== *)
(** * The synthesizer computes, bin by bin, a fold over the bands *)
(* ================================================================== *)

Module SynthFacts.

Import JsArray Synth NumFacts.

Lemma get_middle (pre suf : list num) (x : num) :
  get (pre ++ x :: suf) (List.length pre) = x.
Proof.
  unfold get. rewrite nth_error_app2 by lia.
  rewrite Nat.sub_diag. reflexivity.
Qed.

Lemma set_middle (pre suf : list num) (x v : num) :
  set (pre ++ x :: suf) (List.length pre) v = pre ++ v :: suf.
Proof.
  induction pre as [| p pre IH]; simpl.
  - reflexivity.
  - rewrite IH. reflexivity.
Qed.

Lemma bin_step_middle (s : Slider) (bpre bsuf gpre gsuf : list num)
  (f g : num) :
  List.length gpre = List.length bpre ->
  bin_step (bpre ++ f :: bsuf) s (halfWidth_of s) (List.length bpre)
    (gpre ++ g :: gsuf)
  = gpre ++ apply_band f g s :: gsuf.
Proof.
  intros Hlen. unfold bin_step, apply_band, covers, smoothGain_of, distance_of.
  rewrite get_middle. rewrite <- Hlen.
  destruct (num_leb (Math_abs (num_sub f (centerFreq s))) (halfWidth_of s)).
  - rewrite get_middle, set_middle. reflexivity.
  - reflexivity.
Qed.

(** One band: the inner loop maps [apply_band] over the bins still to do. *)
Lemma inner_loop_from (s : Slider) (bsuf : list num) :
  forall bpre gpre gsuf,
    List.length gpre = List.length bpre ->
    List.length gsuf = List.length bsuf ->
    for_range (List.length bpre) (List.length bsuf)
      (bin_step (bpre ++ bsuf) s (halfWidth_of s)) (gpre ++ gsuf)
    = gpre ++ map (fun fg => apply_band (fst fg) (snd fg) s)
                  (combine bsuf gsuf).
Proof.
  unfold for_range.
  induction bsuf as [| f bsuf IH]; intros bpre gpre gsuf Hpre Hsuf.
  - destruct gsuf; [reflexivity | discriminate].
  - destruct gsuf as [| g gsuf]; [discriminate |].
    simpl in Hsuf. injection Hsuf as Hsuf.
    cbn [List.length seq fold_left combine map fst snd].
    rewrite bin_step_middle by assumption.
    replace (bpre ++ f :: bsuf) with ((bpre ++ [f]) ++ bsuf)
      by (rewrite <- app_assoc; reflexivity).
    replace (gpre ++ apply_band f g s :: gsuf)
      with ((gpre ++ [apply_band f g s]) ++ gsuf)
      by (rewrite <- app_assoc; reflexivity).
    replace (S (List.length bpre)) with (List.length (bpre ++ [f]))
      by (rewrite length_app; simpl; lia).
    rewrite IH.
    + rewrite <- app_assoc. reflexivity.
    + rewrite !length_app. simpl. lia.
    + assumption.
Qed.

Lemma inner_loop (s : Slider) (bins : list num) (h : num -> num) :
  for_range 0 (List.length bins) (bin_step bins s (halfWidth_of s))
    (map h bins)
  = map (fun f => apply_band f (h f) s) bins.
Proof.
  pose proof (@inner_loop_from s bins [] [] (map h bins) eq_refl) as H.
  simpl in H. rewrite H by apply length_map.
  clear H. induction bins as [| f bins IH]; simpl.
  - reflexivity.
  - rewrite IH. reflexivity.
Qed.

Lemma outer_loop (sliders : list Slider) (bins : list num) :
  forall h : num -> num,
    fold_left
      (fun gains slider =>
         for_range 0 (List.length bins)
           (bin_step bins slider (num_div (width slider) (Fin 2))) gains)
      sliders (map h bins)
    = map (fun f => fold_left (apply_band f) sliders (h f)) bins.
Proof.
  induction sliders as [| s sliders IH]; intros h; simpl.
  - reflexivity.
  - change (num_div (width s) (Fin 2)) with (halfWidth_of s).
    rewrite inner_loop. apply (IH (fun f => apply_band f (h f) s)).
Qed.

(** The array built by the two nested loops holds, for each bin, the fold
    of the bands over that bin's frequency. *)
Lemma generateGainArray_map (sliders : list Slider) (bins : list num) :
  generateGainArray sliders bins = map (bin_gain sliders) bins.
Proof.
  unfold generateGainArray, bin_gain, fill.
  replace (repeat (Fin 1) (List.length bins))
    with (map (fun _ : num => Fin 1) bins).
  - apply outer_loop.
  - induction bins; simpl; congruence.
Qed.

Lemma generateGainArray_length (sliders : list Slider) (bins : list num) :
  List.length (generateGainArray sliders bins) = List.length bins.
Proof. rewrite generateGainArray_map. apply length_map. Qed.

End SynthFacts.

(* ================================================================== *)
(** * Facts about the synthesizer in double precision *)
(* ================================================================== *)

Module DoubleFacts.

Import JsArray.
Local Open Scope float_scope.

(** A number that is neither NaN nor an infinity is a zero or has a sign, a
    mantissa and an exponent. *)
Lemma finite_cases (f : float) :
  PrimFloat.is_finite f = true ->
  (exists s, Prim2SF f = S754_zero s)
  \/ exists s m e, Prim2SF f = S754_finite s m e.
Proof.
  unfold PrimFloat.is_finite, is_nan, is_infinity. intros H.
  rewrite !eqb_spec, abs_spec in H.
  destruct (Prim2SF f) as [s | s | | s m e] eqn:E.
  - left. eauto.
  - destruct s; vm_compute in H; discriminate.
  - vm_compute in H. discriminate.
  - right. eauto.
Qed.

(** [f - f] is +0 for such a number. *)
Lemma sub_diag (f : float) : PrimFloat.is_finite f = true -> f - f = 0.
Proof.
  intros H. rewrite <- (SF2Prim_Prim2SF (f - f)), sub_spec.
  destruct (@finite_cases f H) as [[s E] | (s & m & e & E)]; rewrite E.
  - destruct s; reflexivity.
  - unfold SF64sub, SFsub. cbv zeta.
    assert (D : forall z : Z, IntDef.Z.sub z z = 0%Z)
      by (intros z; apply Z.sub_diag).
    rewrite Z.min_id. unfold shl_align. rewrite !D. reflexivity.
Qed.




Section Loops.

Variable cos_approx : float -> float.

Lemma double_get_middle (pre suf : list float) (x : float) :
  Double.get (pre ++ x :: suf) (List.length pre) = x.
Proof.
  unfold Double.get. rewrite nth_error_app2 by lia.
  rewrite Nat.sub_diag. reflexivity.
Qed.

Lemma double_set_middle (pre suf : list float) (x v : float) :
  Double.set (pre ++ x :: suf) (List.length pre) v = pre ++ v :: suf.
Proof.
  induction pre as [| p pre IH]; cbn [Double.set app List.length].
  - reflexivity.
  - rewrite IH. reflexivity.
Qed.

Lemma double_bin_step_middle (s : Double.Slider)
  (bpre bsuf gpre gsuf : list float) (f g : float) :
  List.length gpre = List.length bpre ->
  Double.bin_step cos_approx (bpre ++ f :: bsuf) s (Double.width s / 2)
    (List.length bpre) (gpre ++ g :: gsuf)
  = gpre ++ Double.apply_band cos_approx f g s :: gsuf.
Proof.
  intros Hlen.
  unfold Double.bin_step, Double.apply_band, Double.covers,
    Double.smoothGain_of.
  rewrite double_get_middle. rewrite <- Hlen. cbv zeta.
  destruct (abs (f - Double.centerFreq s) <=? Double.width s / 2).
  - rewrite double_get_middle, double_set_middle. reflexivity.
  - reflexivity.
Qed.

Lemma double_inner_loop_from (s : Double.Slider) (bsuf : list float) :
  forall bpre gpre gsuf,
    List.length gpre = List.length bpre ->
    List.length gsuf = List.length bsuf ->
    for_range (List.length bpre) (List.length bsuf)
      (Double.bin_step cos_approx (bpre ++ bsuf) s (Double.width s / 2))
      (gpre ++ gsuf)
    = gpre ++ map (fun fg => Double.apply_band cos_approx (fst fg) (snd fg) s)
                  (combine bsuf gsuf).
Proof.
  unfold for_range.
  induction bsuf as [| f bsuf IH]; intros bpre gpre gsuf Hpre Hsuf.
  - destruct gsuf; [reflexivity | discriminate].
  - destruct gsuf as [| g gsuf]; [discriminate |].
    cbn [List.length] in Hsuf. injection Hsuf as Hsuf.
    cbn [List.length seq fold_left combine map fst snd].
    rewrite double_bin_step_middle by assumption.
    replace (bpre ++ f :: bsuf) with ((bpre ++ [f]) ++ bsuf)
      by (rewrite <- app_assoc; reflexivity).
    replace (gpre ++ Double.apply_band cos_approx f g s :: gsuf)
      with ((gpre ++ [Double.apply_band cos_approx f g s]) ++ gsuf)
      by (rewrite <- app_assoc; reflexivity).
    replace (S (List.length bpre)) with (List.length (bpre ++ [f]))
      by (rewrite length_app; cbn [List.length]; lia).
    rewrite IH.
    + rewrite <- app_assoc. reflexivity.
    + rewrite !length_app. cbn [List.length]. lia.
    + assumption.
Qed.

Lemma double_inner_loop (s : Double.Slider) (bins : list float)
  (h : float -> float) :
  for_range 0 (List.length bins)
    (Double.bin_step cos_approx bins s (Double.width s / 2)) (map h bins)
  = map (fun f => Double.apply_band cos_approx f (h f) s) bins.
Proof.
  pose proof (@double_inner_loop_from s bins [] [] (map h bins) eq_refl) as H.
  cbn [app List.length] in H. rewrite H by apply length_map.
  clear H. induction bins as [| f bins IH]; cbn [map combine fst snd].
  - reflexivity.
  - rewrite IH. reflexivity.
Qed.

Lemma double_outer_loop (sliders : list Double.Slider) (bins : list float) :
  forall h : float -> float,
    fold_left
      (fun gains slider =>
         for_range 0 (List.length bins)
           (Double.bin_step cos_approx bins slider (Double.width slider / 2))
           gains)
      sliders (map h bins)
    = map (fun f => fold_left (Double.apply_band cos_approx f) sliders (h f))
          bins.
Proof.
  induction sliders as [| s sliders IH]; intros h; cbn [fold_left].
  - reflexivity.
  - rewrite double_inner_loop.
    apply (IH (fun f => Double.apply_band cos_approx f (h f) s)).
Qed.

Lemma apply_band_factors (f : float) (sliders : list Double.Slider) :
  forall g,
    fold_left (Double.apply_band cos_approx f) sliders g
    = fold_left mul (Double.factors cos_approx sliders f) g.
Proof.
  unfold Double.factors.
  induction sliders as [| s sliders IH]; intros g; cbn [fold_left filter].
  - reflexivity.
  - rewrite IH. unfold Double.apply_band.
    destruct (Double.covers s f); reflexivity.
Qed.

(** The array built by the two nested loops holds, for each bin, the
    product of the factors of the bands that cover its frequency. *)
Lemma generateGainArray_products (sliders : list Double.Slider)
  (bins : list float) :
  Double.generateGainArray cos_approx sliders bins
  = map (fun f => Double.product (Double.factors cos_approx sliders f)) bins.
Proof.
  unfold Double.generateGainArray, Double.product. cbv zeta.
  replace (repeat 1 (List.length bins))
    with (map (fun _ : float => 1) bins)
    by (induction bins; cbn [map repeat List.length]; congruence).
  rewrite double_outer_loop. apply map_ext. intros f. apply apply_band_factors.
Qed.

Lemma factors_perm (sliders sliders' : list Double.Slider) (f : float) :
  Permutation sliders sliders' ->
  Permutation (Double.factors cos_approx sliders f)
    (Double.factors cos_approx sliders' f).
Proof.
  intros Hperm. unfold Double.factors. apply Permutation_map.
  induction Hperm as [| x l l' _ IH | x y l | l l' l'' _ IH1 _ IH2];
    cbn [filter].
  - constructor.
  - destruct (Double.covers x f); [constructor |]; exact IH.
  - destruct (Double.covers x f), (Double.covers y f);
      try apply Permutation_refl. apply perm_swap.
  - exact (Permutation_trans IH1 IH2).
Qed.


End Loops.

End DoubleFacts.

Module SynthTheorems.

Import JsArray Synth NumFacts SynthFacts SynthSpec Examples DoubleFacts.
Local Open Scope R_scope.

Lemma real_band_fields (b : Slider) :
  real_band b ->
  centerFreq b = Fin (to_R (centerFreq b)) /\
  width b = Fin (to_R (width b)) /\
  gain b = Fin (to_R (gain b)).
Proof.
  intros (Hc & Hw & Hg).
  destruct (centerFreq b), (width b), (gain b); try discriminate.
  simpl. auto.
Qed.







(** One bin under one zero-bandwidth band. *)
Lemma zero_width_bin_gain (i : Z) (c : R) (g : num) (l : string) (f : R) :
  bin_gain [mkSlider i (Fin c) (Fin 0) g l] (Fin f)
  = if Req_b f c then NaN else Fin 1.
Proof.
  unfold bin_gain. cbn [fold_left].
  unfold apply_band, covers, smoothGain_of, distance_of, halfWidth_of.
  cbn [centerFreq width gain].
  rewrite num_div_by_2. replace (0 / 2) with 0 by lra.
  change (Math_abs (num_sub (Fin f) (Fin c))) with (Fin (Rabs (f + - c))).
  unfold Req_b. destruct (Req_dec_T f c) as [Heq | Hne].
  - subst f. replace (c + - c) with 0 by lra. rewrite Rabs_R0.
    cbn [num_leb]. rewrite Rle_b_true by lra.
    rewrite num_div_zero_zero.
    cbn [num_mul num_div Math_cos].
    rewrite num_mul_NaN_r, num_add_NaN_r. reflexivity.
  - cbn [num_leb]. rewrite Rle_b_false; [reflexivity |].
    apply Rabs_pos_lt. lra.
Qed.

(** C2, on the code.  A band of bandwidth 0 centred at [c]: the entry of the
    gain curve for the frequency [f] is 1 when [f] differs from [c], and NaN
    when [f] is [c], whatever the gain of the band: there the code
    evaluates [0 / 0].  So the curve of the band [notch] (1500 Hz, bandwidth
    0, gain 2) over the axis 0, 1500, 3000 Hz is 1, NaN, 1. *)
Theorem C2_zero_width_band_yields_NaN_at_its_centre
  (i : Z) (c : R) (g : num) (l : string) (f : R) :
  generateGainArray [mkSlider i (Fin c) (Fin 0) g l] [Fin f]
  = [if Req_b f c then NaN else Fin 1]
  /\ generateGainArray [notch] notch_axis = [Fin 1; NaN; Fin 1].
Proof.
  split.
  - rewrite generateGainArray_map. cbn [map]. f_equal.
    apply zero_width_bin_gain.
  - rewrite generateGainArray_map. unfold notch_axis, notch. cbn [map].
    rewrite !zero_width_bin_gain.
    rewrite (@Req_b_false 0 1500) by lra.
    rewrite (@Req_b_true 1500 1500) by lra.
    rewrite (@Req_b_false 3000 1500) by lra.
    reflexivity.
Qed.



(** The entry at 1000 Hz for three bands of gains 0.1, 0.1 and 0.3 centred
    there, in two orders. *)
#[warnings="-inexact-float"]
Lemma three_bands_at_centre (cos_approx : float -> float) :
  Double.generateGainArray cos_approx [tenth; tenth_again; three_tenths]
    [1000%float]
  = [0.0029999999999999988%float]
  /\ Double.generateGainArray cos_approx [three_tenths; tenth_again; tenth]
       [1000%float]
     = [0.002999999999999999%float].
Proof. split; reflexivity. Qed.

Lemma different_doubles (a b : float) :
  Prim2SF a <> Prim2SF b -> [a] <> [b].
Proof. intros Hne H. injection H as H. apply Hne. rewrite H. reflexivity. Qed.




Lemma apply_band_swap (freq g : num) (x y : Slider) :
  apply_band freq (apply_band freq g x) y
  = apply_band freq (apply_band freq g y) x.
Proof.
  unfold apply_band.
  destruct (covers x freq), (covers y freq); try reflexivity.
  rewrite !num_mul_assoc.
  f_equal. apply num_mul_comm.
Qed.

Lemma bin_gain_perm (freq : num) (sliders sliders' : list Slider) :
  Permutation sliders sliders' ->
  forall g, fold_left (apply_band freq) sliders g
            = fold_left (apply_band freq) sliders' g.
Proof.
  induction 1 as [| x l l' _ IH | x y l | l l' l'' _ IH1 _ IH2]; intros g.
  - reflexivity.
  - simpl. apply IH.
  - simpl. rewrite apply_band_swap. reflexivity.
  - rewrite IH1. apply IH2.
Qed.

(** C4 as it is stated, on the code.  Three bands centred at 1000 Hz with
    gains 0.1, 0.1 and 0.3: the entry for 1000 Hz is 0.0029999999999999988
    in this order and 0.002999999999999999 with the first and the last band
    exchanged, whatever the cosine of the platform. *)
Lemma C4_counterexample_three_bands_in_two_orders :
  ~ (exists cos_approx : float -> float,
       Double.generateGainArray cos_approx [tenth; tenth_again; three_tenths]
         [1000%float]
       = Double.generateGainArray cos_approx
           [three_tenths; tenth_again; tenth] [1000%float]).
Proof.
  intros [cos_approx H].
  destruct (three_bands_at_centre cos_approx) as [H1 H2].
  rewrite H1, H2 in H.
  revert H. apply different_doubles. vm_compute. discriminate.
Qed.

(** C4, amended.  In double precision every entry of the gain curve is the
    product, taken from 1 in list order with each multiplication rounded, of
    the factors of the bands that cover its frequency; reordering the bands
    reorders these factors and changes nothing else.  In exact arithmetic,
    for bands whose fields are finite numbers, reordering the bands does not
    change the gain curve. *)
Theorem C4_band_order_permutes_the_factors
  (cos_approx : float -> float) (sliders sliders' : list Double.Slider)
  (frequencyBins : list float) (bands bands' : list Slider)
  (axis : list num) :
  Permutation sliders sliders' ->
  Permutation bands bands' ->
  Forall real_band bands ->
  (Double.generateGainArray cos_approx sliders frequencyBins
   = map (fun freq =>
            Double.product (Double.factors cos_approx sliders freq))
         frequencyBins
   /\ Double.generateGainArray cos_approx sliders' frequencyBins
      = map (fun freq =>
               Double.product (Double.factors cos_approx sliders' freq))
            frequencyBins
   /\ forall freq,
        Permutation (Double.factors cos_approx sliders freq)
          (Double.factors cos_approx sliders' freq))
  /\ generateGainArray bands axis = generateGainArray bands' axis.
Proof.
  intros Hperm Hbands _. split; [split; [| split] |].
  - apply generateGainArray_products.
  - apply generateGainArray_products.
  - intros freq. apply factors_perm. exact Hperm.
  - rewrite !generateGainArray_map.
    apply map_ext. intros freq. unfold bin_gain.
    apply bin_gain_perm. assumption.
Qed.

Lemma C4_band_order_permutes_the_factors_witness :
  (Double.generateGainArray no_cos [tenth; three_tenths] [1000%float]
   = map (fun freq =>
            Double.product (Double.factors no_cos [tenth; three_tenths] freq))
         [1000%float]
   /\ Double.generateGainArray no_cos [three_tenths; tenth] [1000%float]
      = map (fun freq =>
               Double.product
                 (Double.factors no_cos [three_tenths; tenth] freq))
            [1000%float]
   /\ forall freq,
        Permutation (Double.factors no_cos [tenth; three_tenths] freq)
          (Double.factors no_cos [three_tenths; tenth] freq))
  /\ generateGainArray
       [example_band; mkSlider 2 (Fin 120) (Fin 100) (Fin (1 / 2)) "Cut"]
       example_axis
     = generateGainArray
         [mkSlider 2 (Fin 120) (Fin 100) (Fin (1 / 2)) "Cut"; example_band]
         example_axis.
Proof.
  apply (@C4_band_order_permutes_the_factors no_cos
           [tenth; three_tenths] [three_tenths; tenth] [1000%float]
           [example_band; mkSlider 2 (Fin 120) (Fin 100) (Fin (1 / 2)) "Cut"]
           [mkSlider 2 (Fin 120) (Fin 100) (Fin (1 / 2)) "Cut"; example_band]
           example_axis).
  - apply perm_swap.
  - apply perm_swap.
  - repeat constructor.
Defined.

End SynthTheorems.

(* ================================================================== *)
(** * Local processing and the fallback *)
(* ================================================================== *)

Module AudioFacts.

Import Audio.

Lemma list_update_length {A} (l : list A) (i : nat) (f : A -> A) :
  List.length (list_update l i f) = List.length l.
Proof.
  revert i. induction l as [| x l IH]; intros [| i]; simpl; auto.
Qed.

Lemma list_update_last {A} (l : list A) (x : A) (f : A -> A) :
  list_update (l ++ [x]) (List.length l) f = l ++ [f x].
Proof.
  induction l as [| y l IH]; simpl; [reflexivity |].
  rewrite IH. reflexivity.
Qed.

Lemma list_update_Forall {A} (P : A -> Prop) (l : list A) (i : nat)
  (f : A -> A) :
  (forall x, P x -> P (f x)) -> Forall P l -> Forall P (list_update l i f).
Proof.
  intros Hf H. revert i.
  induction H as [| x l Hx Hl IH]; intros [| i]; simpl;
    try constructor; auto.
Qed.

(** A loop whose body always returns and keeps [P] returns and keeps [P]. *)
Lemma for_loop_from_invariant (P : Heap -> Prop) (body : nat -> M unit) :
  (forall i h, P h -> exists h', body i h = Normal tt h' /\ P h') ->
  forall n lo h, P h ->
    exists h', for_loop_from lo n body h = Normal tt h' /\ P h'.
Proof.
  intros Hbody. induction n as [| n IH]; intros lo h HP; simpl.
  - exists h. split; [reflexivity | assumption].
  - unfold bind. destruct (Hbody lo h HP) as (h1 & -> & HP1).
    apply IH. assumption.
Qed.

Lemma filling_old (h0 : Heap) (src : AudioBuffer) (h : Heap) (r : ref)
  (b : AudioBuffer) :
  filling h0 src h -> nth_error h0 r = Some b -> nth_error h r = Some b.
Proof.
  intros (out & -> & _) Hr.
  rewrite nth_error_app1; [assumption |].
  apply nth_error_Some. congruence.
Qed.

Lemma filling_view_set (h0 : Heap) (src : AudioBuffer) (h : Heap)
  (ch i : nat) (x : num) :
  filling h0 src h ->
  exists h', view_set (mkView (List.length h0) ch) i x h = Normal tt h'
             /\ filling h0 src h'.
Proof.
  intros (out & -> & Hrate & Hlen & Hnch & Hdata).
  unfold view_set. cbn [view_buffer view_channel].
  rewrite list_update_last.
  eexists. split; [reflexivity |].
  eexists. split; [reflexivity |]. cbn [sampleRate length channels].
  repeat split; try assumption.
  - unfold numberOfChannels in *. cbn [channels].
    rewrite list_update_length. assumption.
  - apply list_update_Forall; [| assumption].
    intros data Hd. rewrite list_update_length. assumption.
Qed.

Lemma filling_channel_body (h0 : Heap) (audioBuffer : ref)
  (src : AudioBuffer) (gainArray : list num) (ch : nat) (h : Heap) :
  nth_error h0 audioBuffer = Some src ->
  (ch < numberOfChannels src)%nat ->
  filling h0 src h ->
  exists h',
    (inputData <- getChannelData audioBuffer ch ;;
     outputData <- getChannelData (List.length h0) ch ;;
     for_loop (length src)
       (fun i =>
          x <- view_get inputData i ;;
          view_set outputData i (num_mul x (JsArray.get gainArray i)))) h
    = Normal tt h'
    /\ filling h0 src h'.
Proof.
  intros Hsrc Hch Hfill.
  unfold bind at 1. unfold getChannelData at 1. unfold bind at 1.
  unfold deref at 1. rewrite (@filling_old h0 src _ _ _ Hfill Hsrc).
  apply Nat.ltb_lt in Hch. rewrite Hch. unfold ret at 1.
  unfold bind at 1. unfold getChannelData at 1. unfold bind at 1.
  unfold deref at 1.
  destruct Hfill as (out & Hh & Hrate & Hlen & Hnch & Hdata).
  assert (Hout : nth_error h (List.length h0) = Some out).
  { subst h. rewrite nth_error_app2 by lia. rewrite Nat.sub_diag.
    reflexivity. }
  rewrite Hout, Hnch, Hch. unfold ret at 1.
  apply for_loop_from_invariant with (P := filling h0 src).
  - intros i h1 H1. unfold bind, view_get, bind, deref.
    cbn [view_buffer view_channel].
    rewrite (@filling_old h0 src _ _ _ H1 Hsrc). unfold ret.
    apply filling_view_set. assumption.
  - exists out. repeat split; assumption.
Qed.

Lemma outer_loop_from (h0 : Heap) (audioBuffer : ref) (src : AudioBuffer)
  (gainArray : list num) (body : nat -> M unit) :
  (forall ch h, (ch < numberOfChannels src)%nat -> filling h0 src h ->
                exists h', body ch h = Normal tt h' /\ filling h0 src h') ->
  forall n lo h,
    (lo + n <= numberOfChannels src)%nat -> filling h0 src h ->
    exists h', for_loop_from lo n body h = Normal tt h' /\ filling h0 src h'.
Proof.
  intros Hbody. induction n as [| n IH]; intros lo h Hle HP; simpl.
  - exists h. split; [reflexivity | assumption].
  - unfold bind. destruct (Hbody lo h) as (h1 & -> & HP1); [lia | assumption |].
    apply IH; [lia | assumption].
Qed.

(** What [applySimpleProcessing] does to the store. *)
Lemma applySimpleProcessing_runs (h : Heap) (audioBuffer : ref)
  (src : AudioBuffer) (gainArray : list num) :
  nth_error h audioBuffer = Some src ->
  valid_buffer src ->
  exists h',
    applySimpleProcessing audioBuffer gainArray h
    = Normal (List.length h) h'
    /\ filling h src h'.
Proof.
  intros Hsrc (Hnch & Hlen & Hdata).
  unfold applySimpleProcessing.
  unfold bind at 1. unfold deref at 1. rewrite Hsrc.
  unfold bind at 1. unfold createBuffer.
  destruct (numberOfChannels src) as [| nch] eqn:En; [lia |].
  destruct (length src) as [| len] eqn:El; [lia |].
  cbn [Nat.eqb orb]. rewrite <- En, <- El.
  set (zero := mkBuffer (sampleRate src) (length src)
                 (repeat (repeat (Fin 0) (length src)) (numberOfChannels src))).
  assert (Hzero : filling h src (h ++ [zero])).
  { exists zero. subst zero. cbn [sampleRate length channels].
    repeat split.
    - unfold numberOfChannels at 1. cbn [channels]. apply repeat_length.
    - apply Forall_forall. intros data Hin.
      apply repeat_spec in Hin. subst data. apply repeat_length. }
  unfold bind at 1. unfold for_loop.
  destruct (@outer_loop_from h audioBuffer src gainArray
              (fun ch =>
                 inputData <- getChannelData audioBuffer ch ;;
                 outputData <- getChannelData (List.length h) ch ;;
                 for_loop (length src)
                   (fun i =>
                      x <- view_get inputData i ;;
                      view_set outputData i
                        (num_mul x (JsArray.get gainArray i))))
              (fun ch h1 Hch H1 =>
                 @filling_channel_body h audioBuffer src gainArray ch h1
                   Hsrc Hch H1)
              (numberOfChannels src) 0%nat (h ++ [zero]) (le_n _) Hzero)
    as (h' & Hrun & Hfill).
  unfold for_loop in Hrun. rewrite Hrun.
  exists h'. split; [reflexivity | assumption].
Qed.

End AudioFacts.

Module AudioTheorems.

Import Audio AudioFacts Examples.

(** The call on the example buffer: the store gains one buffer, whose
    samples are the input samples times the gains of the same index. *)
Example applySimpleProcessing_example :
  applySimpleProcessing 0%nat [Fin 2; Fin 1] [example_input]
  = Normal 1%nat
      [example_input;
       mkBuffer (Fin 44100) 2
         [[Fin (1 / 2 * 2)%R; Fin (- (1 / 4) * 1)%R]]].
Proof. reflexivity. Qed.

(** C9.  [applySimpleProcessing] on a buffer of the store returns a
    reference that was not in the store before the call (a newly allocated
    buffer) with the length, the number of channels and the sample rate of
    the input; every buffer that was in the store, the input first of all,
    is the same after the call. *)
Theorem C9_local_processing_allocates_output_and_keeps_input
  (h : Heap) (audioBuffer : ref) (src : AudioBuffer) (gainArray : list num) :
  nth_error h audioBuffer = Some src ->
  valid_buffer src ->
  exists (clonedBuffer : ref) (h' : Heap) (out : AudioBuffer),
    applySimpleProcessing audioBuffer gainArray h = Normal clonedBuffer h'
    /\ nth_error h clonedBuffer = None
    /\ nth_error h' clonedBuffer = Some out
    /\ length out = length src
    /\ numberOfChannels out = numberOfChannels src
    /\ sampleRate out = sampleRate src
    /\ Forall (fun data => List.length data = length src) (channels out)
    /\ (forall r b, nth_error h r = Some b -> nth_error h' r = Some b)
    /\ nth_error h' audioBuffer = Some src.
Proof.
  intros Hsrc Hvalid.
  destruct (@applySimpleProcessing_runs h audioBuffer src gainArray
              Hsrc Hvalid) as (h' & Hrun & Hfill).
  pose proof Hfill as (out & Hh' & Hrate & Hlen & Hnch & Hdata).
  exists (List.length h), h', out.
  split; [exact Hrun |].
  split; [apply nth_error_None; lia |].
  split.
  { subst h'. rewrite nth_error_app2 by lia. rewrite Nat.sub_diag.
    reflexivity. }
  repeat (split; [assumption |]).
  split.
  - intros r b Hr. exact (@filling_old h src h' r b Hfill Hr).
  - exact (@filling_old h src h' audioBuffer src Hfill Hsrc).
Qed.

Lemma example_input_valid : valid_buffer example_input.
Proof.
  unfold valid_buffer, example_input, numberOfChannels. simpl.
  repeat split; try lia. repeat constructor.
Defined.

Lemma C9_local_processing_allocates_output_and_keeps_input_witness :
  exists (clonedBuffer : ref) (h' : Heap) (out : AudioBuffer),
    applySimpleProcessing 0%nat [Fin 2; Fin 1] [example_input]
    = Normal clonedBuffer h'
    /\ nth_error [example_input] clonedBuffer = None
    /\ nth_error h' clonedBuffer = Some out
    /\ length out = length example_input
    /\ numberOfChannels out = numberOfChannels example_input
    /\ sampleRate out = sampleRate example_input
    /\ Forall (fun data => List.length data = length example_input)
         (channels out)
    /\ (forall r b, nth_error [example_input] r = Some b ->
                    nth_error h' r = Some b)
    /\ nth_error h' 0%nat = Some example_input.
Proof.
  apply (@C9_local_processing_allocates_output_and_keeps_input
           [example_input] 0%nat example_input [Fin 2; Fin 1]).
  - reflexivity.
  - exact example_input_valid.
Defined.

(** A request that succeeds: the buffer returned holds the samples sent
    back by the service. *)
Example processWithBackend_success :
  processWithBackend (fun _ => Responded true 200 good_body)
    "generic" 0%nat [] [Fin 2; Fin 1] [example_input]
  = Normal 1%nat
      [example_input; mkBuffer (Fin 44100) 2 [[Fin 1; Fin 0]]].
Proof. reflexivity. Qed.

(** When the request fails in a way the code detects (service unreachable,
    status outside 2xx, body that is not JSON or carries no
    [processedAudio]), [processWithBackend] does exactly what
    [applySimpleProcessing] does on the same input and gain array, and that
    call returns a buffer: nothing is thrown to the caller. *)
Lemma detected_failure_falls_back
  (backend : Backend) (currentMode : string) (h : Heap) (audioBuffer : ref)
  (src : AudioBuffer) (bands : list Slider) (gainArray : list num) :
  nth_error h audioBuffer = Some src ->
  valid_buffer src ->
  request_failed
    (backend (mkRequest (nth 0 (channels src) []) gainArray (sampleRate src)
                bands currentMode)) = true ->
  processWithBackend backend currentMode audioBuffer bands gainArray h
  = applySimpleProcessing audioBuffer gainArray h
  /\ exists (processedBuffer : ref) (h' : Heap),
       processWithBackend backend currentMode audioBuffer bands gainArray h
       = Normal processedBuffer h'.
Proof.
  intros Hsrc Hvalid Hfail.
  assert (Heq : processWithBackend backend currentMode audioBuffer bands
                  gainArray h
                = applySimpleProcessing audioBuffer gainArray h).
  { unfold processWithBackend, try_catch.
    unfold bind at 1. unfold getChannelData, bind at 1. unfold deref at 1.
    rewrite Hsrc.
    destruct Hvalid as (Hnch & _).
    apply Nat.ltb_lt in Hnch. rewrite Hnch. unfold ret at 1.
    unfold bind at 1. unfold array_from, bind at 1. unfold deref at 1.
    cbn [view_buffer view_channel]. rewrite Hsrc. unfold ret at 1.
    unfold bind at 1. unfold deref at 1. rewrite Hsrc.
    destruct (backend _) as [| ok status body]; [reflexivity |].
    destruct ok; cbn [negb]; [| reflexivity].
    destruct body as [| result]; [reflexivity |].
    cbn [request_failed] in Hfail.
    destruct result as [| b | x | s | items | members]; try reflexivity.
    unfold bind at 1. cbn [read_processedAudio]. unfold ret at 1.
    destruct (member members "processedAudio") as [[| | | | |] |];
      try discriminate Hfail; reflexivity. }
  split; [exact Heq |].
  rewrite Heq.
  destruct (@applySimpleProcessing_runs h audioBuffer src gainArray
              Hsrc Hvalid) as (h' & Hrun & _).
  exists (List.length h), h'. exact Hrun.
Qed.

(** A 2xx response whose [processedAudio] is the empty array also ends in
    the local processing: [createBuffer] rejects the zero length. *)
Lemma empty_processedAudio_falls_back
  (currentMode : string) (status : Z) (h : Heap) (audioBuffer : ref)
  (src : AudioBuffer) (bands : list Slider) (gainArray : list num) :
  nth_error h audioBuffer = Some src ->
  valid_buffer src ->
  processWithBackend
    (fun _ => Responded true status
                (Parsed (JObject [("processedAudio"%string, JArray [])])))
    currentMode audioBuffer bands gainArray h
  = applySimpleProcessing audioBuffer gainArray h.
Proof.
  intros Hsrc (Hnch & _).
  unfold processWithBackend, try_catch.
  unfold bind at 1. unfold getChannelData, bind at 1. unfold deref at 1.
  rewrite Hsrc. apply Nat.ltb_lt in Hnch. rewrite Hnch. unfold ret at 1.
  unfold bind at 1. unfold array_from, bind at 1. unfold deref at 1.
  cbn [view_buffer view_channel]. rewrite Hsrc. unfold ret at 1.
  unfold bind at 1. unfold deref at 1. rewrite Hsrc.
  reflexivity.
Qed.

(** C5, on the code.  The service answers 200 with the body
    [{"processedAudio": "oops"}]: nothing in the [try] block throws, so the
    [catch] with the local processing is not reached.  [createBuffer] gets
    the length 4 of the text and [set] stores [ToNumber] of each character:
    the buffer returned has four samples, all NaN, while the local
    processing of the same input gives the two samples 1 and -0.25.  The
    body [{"processedAudio": ["a", "b"]}] gives two NaN samples in the same
    way. *)
Theorem C5_malformed_body_is_returned_as_NaN_samples :
  processWithBackend (fun _ => Responded true 200 text_body) "generic"
    0%nat [] [Fin 2; Fin 1] [example_input]
  = Normal 1%nat
      [example_input; mkBuffer (Fin 44100) 4 [[NaN; NaN; NaN; NaN]]]
  /\ processWithBackend (fun _ => Responded true 200 words_body) "generic"
       0%nat [] [Fin 2; Fin 1] [example_input]
     = Normal 1%nat [example_input; mkBuffer (Fin 44100) 2 [[NaN; NaN]]]
  /\ applySimpleProcessing 0%nat [Fin 2; Fin 1] [example_input]
     = Normal 1%nat
         [example_input;
          mkBuffer (Fin 44100) 2
            [[Fin (1 / 2 * 2)%R; Fin (- (1 / 4) * 1)%R]]]
  /\ processWithBackend (fun _ => Responded true 200 text_body) "generic"
       0%nat [] [Fin 2; Fin 1] [example_input]
     <> applySimpleProcessing 0%nat [Fin 2; Fin 1] [example_input].
Proof.
  assert (Htext : processWithBackend (fun _ => Responded true 200 text_body)
                    "generic" 0%nat [] [Fin 2; Fin 1] [example_input]
                  = Normal 1%nat
                      [example_input;
                       mkBuffer (Fin 44100) 4 [[NaN; NaN; NaN; NaN]]])
    by reflexivity.
  split; [exact Htext |]. split; [reflexivity |]. split; [reflexivity |].
  rewrite Htext. change (applySimpleProcessing 0%nat [Fin 2; Fin 1]
                           [example_input])
    with (Normal 1%nat
            [example_input;
             mkBuffer (Fin 44100) 2
               [[Fin (1 / 2 * 2)%R; Fin (- (1 / 4) * 1)%R]]]).
  intros H. injection H as H. discriminate H.
Qed.

End AudioTheorems.

(* ================================================================== *)
(** * The band collection: update, add, save and load *)
(* ================================================================== *)

Module BandSetTheorems.

Import BandSet Examples.




Lemma merge_all_present (base s : Slider) :
  merge base
    (mkData (Some (id s)) (Some (centerFreq s)) (Some (width s))
            (Some (gain s)) (Some (label s)))
  = s.
Proof. destruct s. reflexivity. Qed.

(** The band built by [addSlider]: each property is the one of the band
    specification when it has it (0, NaN and the empty string included: the
    spread comes after the [||] defaults), the default otherwise. *)
Lemma addSlider_new_band (current : list Slider) (now : Z)
  (sliderData : SliderData) :
  fst (addSlider current now sliderData)
  = mkSlider (spread now (opt_id sliderData))
             (spread (Fin 1000) (opt_centerFreq sliderData))
             (spread (Fin 500) (opt_width sliderData))
             (spread (Fin 1) (opt_gain sliderData))
             (spread (band_label (List.length current + 1))
                (opt_label sliderData))
  /\ snd (addSlider current now sliderData)
     = current ++ [fst (addSlider current now sliderData)].
Proof.
  split; [| reflexivity].
  destruct sliderData as [[i |] [c |] [w |] [g |] [l |]]; reflexivity.
Qed.

Example addSlider_defaults :
  addSlider [bass; mid] 1700000000000 emptyData
  = (mkSlider 1700000000000 (Fin 1000) (Fin 500) (Fin 1) "Band 3",
     [bass; mid;
      mkSlider 1700000000000 (Fin 1000) (Fin 500) (Fin 1) "Band 3"]).
Proof. reflexivity. Qed.

(** A record written by [saveSettings] comes back from [addSlider] as the
    band it was written from, id included. *)
Lemma addSlider_saved (current : list Slider) (now : Z) (s : Slider) :
  addSlider current now
    (mkData (Some (id s)) (Some (centerFreq s)) (Some (width s))
            (Some (gain s)) (Some (label s)))
  = (s, current ++ [s]).
Proof. unfold addSlider. rewrite merge_all_present. reflexivity. Qed.

Lemma forEach_set_fold {A} (f : nat -> A -> list Slider) (xs : list A) :
  forall k cell x,
    fold_left (fun '(k, _) x => (S k, f k x)) (xs ++ [x]) (k, cell)
    = (S (k + List.length xs), f (k + List.length xs)%nat x).
Proof.
  induction xs as [| y xs IH]; intros k cell x; simpl.
  - rewrite Nat.add_0_r. reflexivity.
  - rewrite IH. rewrite Nat.add_succ_r. reflexivity.
Qed.

(** After a [forEach] of calls made by one render, the state cell holds
    what the last call gave to [setSliders]. *)
Lemma forEach_set_last {A} (f : nat -> A -> list Slider) (xs : list A)
  (x : A) (cell : list Slider) :
  forEach_set f (xs ++ [x]) cell = f (List.length xs) x.
Proof. unfold forEach_set. rewrite forEach_set_fold. reflexivity. Qed.

(** Loading the settings saved from a non-empty collection, in a render
    whose [sliders] is [current]: the cell ends as [current] followed by the
    last saved band. *)
Lemma loadSettings_saved (current saved : list Slider) (s : Slider)
  (clock : nat -> Z) (isoNow : string) (cell : list Slider) :
  loadSettings current clock (saveSettings (saved ++ [s]) isoNow) cell
  = current ++ [s].
Proof.
  unfold loadSettings, saveSettings. cbn [mode sliders].
  cbn [String.eqb Ascii.eqb Bool.eqb andb].
  rewrite map_app. cbn [map].
  rewrite forEach_set_last. rewrite addSlider_saved. reflexivity.
Qed.

(** C6, on the code.  A collection with at least one band is saved, and the
    file is loaded while the collection is still the saved one: the
    collection ends with one band more than was saved, the last band being
    there twice. *)
Theorem C6_round_trip_duplicates_the_last_band
  (saved : list Slider) (s : Slider) (clock : nat -> Z) (isoNow : string) :
  loadSettings (saved ++ [s]) clock (saveSettings (saved ++ [s]) isoNow)
    (saved ++ [s])
  = (saved ++ [s]) ++ [s]
  /\ loadSettings [bass; mid] clock (saveSettings [bass; mid] isoNow)
       [bass; mid]
     = [bass; mid; mid].
Proof.
  split.
  - apply loadSettings_saved.
  - exact (@loadSettings_saved [bass; mid] [bass] mid clock isoNow
             [bass; mid]).
Qed.

Lemma add_each_fold (clock : nat -> Z) (saved : list Slider) :
  forall k start,
    fold_left
      (fun '(k, cur) sliderData =>
         (S k, snd (addSlider cur (clock k) sliderData)))
      (map (fun slider =>
              mkData (Some (id slider)) (Some (centerFreq slider))
                     (Some (width slider)) (Some (gain slider))
                     (Some (label slider))) saved)
      (k, start)
    = ((k + List.length saved)%nat, start ++ saved).
Proof.
  induction saved as [| s saved IH]; intros k start;
    cbn [map fold_left List.length].
  - rewrite Nat.add_0_r, app_nil_r. reflexivity.
  - rewrite addSlider_saved. cbn [snd]. rewrite IH.
    rewrite <- app_assoc. rewrite Nat.add_succ_r. reflexivity.
Qed.

(** With the state threaded from one [addSlider] call to the next, the saved
    records give back the saved collection, band for band and in order. *)
Lemma add_each_saved (clock : nat -> Z) (saved : list Slider)
  (isoNow : string) :
  match sliders (saveSettings saved isoNow) with
  | Some loaded => add_each clock loaded [] = saved
  | None => False
  end.
Proof.
  unfold saveSettings, add_each. cbn [sliders].
  rewrite add_each_fold. reflexivity.
Qed.

(** C8, on the code.  The id of the band returned by [addSlider] is the id
    carried by the band specification when it carries one, and the clock
    reading otherwise.  So a specification carrying the id of a band of the
    collection gives a collection with that id twice, and so do two calls
    that read the same clock. *)
Theorem C8_addSlider_takes_the_id_from_the_spec_or_the_clock
  (current : list Slider) (now k : Z) (c w g : option num)
  (l : option string) :
  id (fst (addSlider current now (mkData (Some k) c w g l))) = k
  /\ id (fst (addSlider current now (mkData None c w g l))) = now
  /\ (In k (map id current) ->
      ~ NoDup (map id (snd (addSlider current now (mkData (Some k) c w g l)))))
  /\ ~ NoDup
       (map id
          (snd (addSlider
                  (snd (addSlider current now (mkData None c w g l)))
                  now (mkData None c w g l))))
  /\ map id (snd (addSlider [bass] 1700000000000
                    (mkData (Some 1%Z) None None None None)))
     = [1%Z; 1%Z].
Proof.
  split; [reflexivity |]. split; [reflexivity |]. split; [| split].
  - intros Hin Hnodup. unfold addSlider in Hnodup. cbn [snd] in Hnodup.
    rewrite map_app in Hnodup. cbn [map merge spread opt_id id] in Hnodup.
    apply NoDup_remove_2 in Hnodup. rewrite app_nil_r in Hnodup.
    contradiction.
  - intros Hnodup. unfold addSlider in Hnodup. cbn [snd] in Hnodup.
    rewrite !map_app in Hnodup. cbn [map merge spread opt_id id] in Hnodup.
    rewrite <- app_assoc in Hnodup. cbn [app] in Hnodup.
    apply NoDup_remove_2 in Hnodup. apply Hnodup.
    apply in_or_app. right. left. reflexivity.
  - reflexivity.
Qed.

End BandSetTheorems.

(* ================================================================== *)
(** * The gain preview of a selected region *)
(* ================================================================== *)

Module PreviewTheorems.

Import Audio Preview NumFacts Examples.
Local Open Scope Z_scope.

Lemma typed_set_middle (pre suf : list num) (x v : num) :
  typed_set (pre ++ x :: suf) (List.length pre) v = pre ++ v :: suf.
Proof.
  unfold typed_set. induction pre as [| p pre IH]; simpl.
  - reflexivity.
  - rewrite IH. reflexivity.
Qed.

Lemma copy_step_middle (channelData : list num) (startSample : Z)
  (useGain : bool) (gainValue : num) (pre suf : list num) (x : num) :
  copy_step channelData startSample useGain gainValue (List.length pre)
    (pre ++ x :: suf)
  = pre ++ region_sample channelData startSample useGain gainValue
             (List.length pre) x :: suf.
Proof.
  unfold copy_step, region_sample. cbv zeta.
  destruct (startSample + Z.of_nat (List.length pre)
            <? Z.of_nat (List.length channelData)).
  - destruct (useGain && negb (num_eqb gainValue (Fin 1)))%bool;
      rewrite typed_set_middle; reflexivity.
  - reflexivity.
Qed.

Lemma copy_loop_from (channelData : list num) (startSample : Z)
  (useGain : bool) (gainValue : num) (suf : list num) :
  forall pre,
    JsArray.for_range (List.length pre) (List.length suf)
      (copy_step channelData startSample useGain gainValue) (pre ++ suf)
    = pre ++ map (fun io =>
                    region_sample channelData startSample useGain gainValue
                      (fst io) (snd io))
                 (combine (seq (List.length pre) (List.length suf)) suf).
Proof.
  unfold JsArray.for_range.
  induction suf as [| x suf IH]; intros pre.
  - reflexivity.
  - cbn [List.length seq fold_left combine map fst snd].
    rewrite copy_step_middle.
    replace (pre ++ region_sample channelData startSample useGain gainValue
                      (List.length pre) x :: suf)
      with ((pre ++ [region_sample channelData startSample useGain gainValue
                       (List.length pre) x]) ++ suf)
      by (rewrite <- app_assoc; reflexivity).
    replace (S (List.length pre))
      with (List.length
              (pre ++ [region_sample channelData startSample useGain
                         gainValue (List.length pre) x]))
      by (rewrite length_app; simpl; lia).
    rewrite IH. rewrite <- app_assoc. reflexivity.
Qed.

(** The array filled by the loop, sample by sample. *)
Lemma copy_region_map (channelData : list num) (startSample : Z)
  (segmentLength : nat) (useGain : bool) (gainValue : num) :
  copy_region channelData startSample segmentLength useGain gainValue
  = map (fun i => region_sample channelData startSample useGain gainValue
                    i (Fin 0))
        (seq 0 segmentLength).
Proof.
  unfold copy_region, JsArray.fill.
  pose proof (@copy_loop_from channelData startSample useGain gainValue
                (repeat (Fin 0) segmentLength) []) as H.
  rewrite repeat_length in H. cbn [List.length app] in H.
  rewrite H. clear H.
  generalize 0%nat.
  induction segmentLength as [| n IH]; intros lo; simpl.
  - reflexivity.
  - rewrite IH. reflexivity.
Qed.

(** A clamped value is never above 1 nor below -1. *)
Lemma clamp_within_full_scale (z : num) :
  num_ltb (Fin 1) (Math_max (Fin (-1)) (Math_min (Fin 1) z)) = false
  /\ num_ltb (Math_max (Fin (-1)) (Math_min (Fin 1) z)) (Fin (-1)) = false.
Proof.
  destruct z as [r | | |];
    repeat (cbn [Math_min Math_max num_leb num_ltb]; unfold Rle_b, Rlt_b;
            match goal with
            | |- context [Rle_dec ?a ?b] => destruct (Rle_dec a b)
            | |- context [Rlt_dec ?a ?b] => destruct (Rlt_dec a b)
            end);
    cbn [Math_min Math_max num_leb num_ltb];
    split; try reflexivity; exfalso; lra.
Qed.

Lemma copy_region_nth (channelData : list num) (startSample : Z)
  (segmentLength : nat) (useGain : bool) (gainValue : num) (i : nat) :
  (i < segmentLength)%nat ->
  nth_error
    (copy_region channelData startSample segmentLength useGain gainValue) i
  = Some (region_sample channelData startSample useGain gainValue i (Fin 0)).
Proof.
  intros Hi. rewrite copy_region_map, nth_error_map, nth_error_seq.
  destruct (Nat.ltb_spec i segmentLength) as [_ | Hge]; [reflexivity | lia].
Qed.

(** C10.  A selection whose sample range [startSample, endSample) is not
    empty: [playSelectedRegion] builds [endSample - startSample] samples.
    For each index [i] whose source index [startSample + i] holds the input
    sample [x]: with [useGain] and a gain different from 1, the sample built
    is [max(-1, min(1, x * gainValue))]; otherwise it is [x] itself.  With
    [useGain] and a gain different from 1, no sample built is above 1 or
    below -1. *)
Theorem C10_region_preview_multiplies_and_clamps
  (currentSelection selection : option Selection) (sel : Selection)
  (input : AudioBuffer) (useGain : bool) (gainValue : num)
  (startSample endSample : Z) :
  match currentSelection with Some s => Some s | None => selection end
  = Some sel ->
  sample_range sel input = (startSample, endSample) ->
  startSample < endSample ->
  exists audioData,
    playSelectedRegion currentSelection selection (Some input) useGain
      gainValue = Some audioData
    /\ Z.of_nat (List.length audioData) = endSample - startSample
    /\ (forall (i : nat) (x : num),
          Z.of_nat i < endSample - startSample ->
          0 <= startSample + Z.of_nat i ->
          nth_error (nth 0 (channels input) [])
            (Z.to_nat (startSample + Z.of_nat i)) = Some x ->
          nth_error audioData i
          = Some (if useGain && negb (num_eqb gainValue (Fin 1))
                  then Math_max (Fin (-1))
                         (Math_min (Fin 1) (num_mul x gainValue))
                  else x))
    /\ (useGain && negb (num_eqb gainValue (Fin 1)) = true ->
        forall i : nat,
          Z.of_nat i < endSample - startSample ->
          exists y,
            nth_error audioData i = Some y
            /\ num_ltb (Fin 1) y = false
            /\ num_ltb y (Fin (-1)) = false).
Proof.
  intros Hsel Hrange Hlt.
  unfold playSelectedRegion. rewrite Hsel, Hrange.
  destruct (Z.leb_spec (endSample - startSample) 0) as [Hle | _]; [lia |].
  eexists. split; [reflexivity |]. split; [| split].
  - rewrite copy_region_map, length_map, length_seq. lia.
  - intros i x Hi Hpos Hx.
    assert (Hin : startSample + Z.of_nat i
                  < Z.of_nat (List.length (nth 0 (channels input) []))).
    { assert (Hsome : nth_error (nth 0 (channels input) [])
                        (Z.to_nat (startSample + Z.of_nat i)) <> None)
        by congruence.
      apply nth_error_Some in Hsome. lia. }
    assert (Hsample : sample_at (nth 0 (channels input) [])
                        (startSample + Z.of_nat i) = x).
    { unfold sample_at.
      destruct (Z.ltb_spec (startSample + Z.of_nat i) 0) as [Hneg | _];
        [lia |].
      unfold JsArray.get. rewrite Hx. reflexivity. }
    rewrite copy_region_nth by lia.
    unfold region_sample. cbv zeta.
    apply Z.ltb_lt in Hin. rewrite Hin, Hsample. reflexivity.
  - intros Hgain i Hi.
    rewrite copy_region_nth by lia.
    eexists. split; [reflexivity |].
    unfold region_sample. cbv zeta. rewrite Hgain.
    destruct (startSample + Z.of_nat i
              <? Z.of_nat (List.length (nth 0 (channels input) []))).
    + apply clamp_within_full_scale.
    + cbn [num_ltb]. rewrite !Rlt_b_false by lra. auto.
Qed.

Lemma C10_region_preview_multiplies_and_clamps_witness :
  exists audioData,
    playSelectedRegion None (Some first_two)
      (Some example_input) true (Fin 3) = Some audioData
    /\ Z.of_nat (List.length audioData) = 2 - 0
    /\ (forall (i : nat) (x : num),
          Z.of_nat i < 2 - 0 ->
          0 <= 0 + Z.of_nat i ->
          nth_error (nth 0 (channels example_input) [])
            (Z.to_nat (0 + Z.of_nat i)) = Some x ->
          nth_error audioData i
          = Some (if true && negb (num_eqb (Fin 3) (Fin 1))
                  then Math_max (Fin (-1))
                         (Math_min (Fin 1) (num_mul x (Fin 3)))
                  else x))
    /\ (true && negb (num_eqb (Fin 3) (Fin 1)) = true ->
        forall i : nat,
          Z.of_nat i < 2 - 0 ->
          exists y,
            nth_error audioData i = Some y
            /\ num_ltb (Fin 1) y = false
            /\ num_ltb y (Fin (-1)) = false).
Proof.
  apply (@C10_region_preview_multiplies_and_clamps
           None (Some first_two) first_two
           example_input true (Fin 3) 0 2).
  - reflexivity.
  - reflexivity.
  - lia.
Defined.

End PreviewTheorems.

(* ================================================================== *)
(** * The provider: bins, log and the earlier gain array *)
(* ================================================================== *)

Module ProviderFacts.

Import JsArray Provider NumFacts SynthFacts SynthSpec.
Local Open Scope R_scope.

Lemma push_loop (g : nat -> num) (n : nat) :
  forall lo acc,
    for_range lo n (fun i frequencies => frequencies ++ [g i]) acc
    = acc ++ map g (seq lo n).
Proof.
  unfold for_range.
  induction n as [| n IH]; intros lo acc; simpl.
  - rewrite app_nil_r. reflexivity.
  - rewrite IH. rewrite <- app_assoc. reflexivity.
Qed.

Lemma getFrequencyBins_map (binCount : nat) (rate : option num) :
  getFrequencyBins (Some binCount) rate
  = map (fun i =>
           num_div
             (num_mul (Fin (INR i))
                (num_div (BandSet.or_num rate (Fin 44100)) (Fin 2)))
             (Fin (INR binCount)))
        (seq 0 binCount).
Proof. unfold getFrequencyBins. rewrite push_loop. reflexivity. Qed.

Lemma bin_value (r : R) (binCount i : nat) :
  (i < binCount)%nat ->
  num_div (num_mul (Fin (INR i)) (num_div (Fin r) (Fin 2)))
    (Fin (INR binCount))
  = Fin (INR i * (r / 2) / INR binCount).
Proof.
  intros Hi. rewrite num_div_by_2. cbn [num_mul num_div].
  rewrite Req_b_false; [reflexivity |].
  apply not_0_INR. lia.
Qed.

Lemma bin_nth (r : R) (rate : option num) (binCount i : nat) :
  BandSet.or_num rate (Fin 44100) = Fin r ->
  (i < binCount)%nat ->
  nth_error (getFrequencyBins (Some binCount) rate) i
  = Some (Fin (INR i * (r / 2) / INR binCount)).
Proof.
  intros Hr Hi. rewrite getFrequencyBins_map, nth_error_map, nth_error_seq.
  destruct (Nat.ltb_spec i binCount) as [_ | Hge]; [| lia].
  cbn [option_map Nat.add]. rewrite Hr, bin_value by assumption.
  reflexivity.
Qed.

(** [getFrequencyBins]: without an analyser the axis is empty.  With an
    analyser of [binCount] bins and a sample rate [r > 0] (44100 when the
    context gives none), the axis has [binCount] entries, entry [i] is
    [i * (r / 2) / binCount], every entry is at least 0 and below the
    Nyquist frequency [r / 2], and the entries increase strictly. *)
Theorem getFrequencyBins_axis (rate : option num) (r : R) (binCount : nat) :
  BandSet.or_num rate (Fin 44100) = Fin r ->
  0 < r ->
  getFrequencyBins None rate = []
  /\ List.length (getFrequencyBins (Some binCount) rate) = binCount
  /\ (forall i, (i < binCount)%nat ->
        nth_error (getFrequencyBins (Some binCount) rate) i
        = Some (Fin (INR i * (r / 2) / INR binCount))
        /\ 0 <= INR i * (r / 2) / INR binCount < r / 2)
  /\ (forall i j, (i < j)%nat -> (j < binCount)%nat ->
        INR i * (r / 2) / INR binCount < INR j * (r / 2) / INR binCount).
Proof.
  intros Hr Hpos. split; [reflexivity |]. split.
  { rewrite getFrequencyBins_map, length_map, length_seq. reflexivity. }
  assert (Hscale : forall n, (0 < n)%nat -> 0 < r / 2 / INR n).
  { intros n Hn. apply Rdiv_lt_0_compat; [lra |].
    apply lt_0_INR. assumption. }
  split.
  - intros i Hi. split; [apply bin_nth; assumption |].
    assert (Hn : 0 < INR binCount) by (apply lt_0_INR; lia).
    assert (Hi' : INR i < INR binCount) by (apply lt_INR; assumption).
    assert (H0 : 0 <= INR i) by apply pos_INR.
    pose proof (Hscale binCount ltac:(lia)) as Hs.
    replace (INR i * (r / 2) / INR binCount)
      with (INR i * (r / 2 / INR binCount)) by (field; lra).
    replace (r / 2) with (INR binCount * (r / 2 / INR binCount)) at 3
      by (field; lra).
    split; nra.
  - intros i j Hij Hj.
    assert (Hn : 0 < INR binCount) by (apply lt_0_INR; lia).
    assert (Hij' : INR i < INR j) by (apply lt_INR; assumption).
    pose proof (Hscale binCount ltac:(lia)) as Hs.
    replace (INR i * (r / 2) / INR binCount)
      with (INR i * (r / 2 / INR binCount)) by (field; lra).
    replace (INR j * (r / 2) / INR binCount)
      with (INR j * (r / 2 / INR binCount)) by (field; lra).
    nra.
Qed.

Lemma getFrequencyBins_axis_witness :
  getFrequencyBins None None = []
  /\ List.length (getFrequencyBins (Some 1024%nat) None) = 1024%nat
  /\ (forall i, (i < 1024)%nat ->
        nth_error (getFrequencyBins (Some 1024%nat) None) i
        = Some (Fin (INR i * (44100 / 2) / INR 1024))
        /\ 0 <= INR i * (44100 / 2) / INR 1024 < 44100 / 2)
  /\ (forall i j, (i < j)%nat -> (j < 1024)%nat ->
        INR i * (44100 / 2) / INR 1024 < INR j * (44100 / 2) / INR 1024).
Proof.
  apply (@getFrequencyBins_axis None 44100 1024%nat).
  - reflexivity.
  - lra.
Defined.

Lemma Rabs_le_bounds (x a : R) : Rabs x <= a -> - a <= x <= a.
Proof. unfold Rabs. destruct (Rcase_abs x); lra. Qed.

(** The test of the log and the test of the synthesizer agree on bands and
    frequencies that are finite numbers. *)
Lemma affects_covers (b : Slider) (f : R) :
  real_band b -> affects (Fin f) b = Synth.covers b (Fin f).
Proof.
  intros Hb.
  destruct (SynthTheorems.real_band_fields Hb) as (Hc & Hw & _).
  unfold affects, num_geb, Synth.covers, Synth.distance_of,
    Synth.halfWidth_of.
  rewrite Hc, Hw. rewrite !num_div_by_2.
  cbn [num_sub num_neg num_add num_leb Math_abs].
  set (c := to_R (centerFreq b)). set (w := to_R (width b)).
  unfold Rle_b.
  destruct (Rle_dec (c + - (w / 2)) f) as [H1 | H1];
    destruct (Rle_dec f (c + w / 2)) as [H2 | H2];
    destruct (Rle_dec (Rabs (f + - c)) (w / 2)) as [H3 | H3];
    cbn [andb]; try reflexivity; exfalso.
  - apply H3. apply Rabs_le. lra.
  - apply Rabs_le_bounds in H3. lra.
  - apply Rabs_le_bounds in H3. lra.
  - apply Rabs_le_bounds in H3. lra.
Qed.

Lemma filter_affects_covers (bands : list Slider) (f : R) :
  Forall real_band bands ->
  filter (affects (Fin f)) bands
  = filter (fun b => Synth.covers b (Fin f)) bands.
Proof.
  induction 1 as [| b bands Hb _ IH]; [reflexivity |].
  cbn [filter]. rewrite affects_covers by assumption. rewrite IH.
  reflexivity.
Qed.







End ProviderFacts.

(* ================================================================== *)
(** * The samples written by the local processing *)
(* ================================================================== *)

Module AudioContent.

Import Audio AudioFacts AudioPure Provider NumFacts.

Lemma deref_ok (h : Heap) (r : ref) (b : AudioBuffer) :
  nth_error h r = Some b -> deref r h = Normal b h.
Proof. intros H. unfold deref. rewrite H. reflexivity. Qed.

Lemma getChannelData_ok (h : Heap) (r : ref) (b : AudioBuffer) (ch : nat) :
  nth_error h r = Some b -> (ch < numberOfChannels b)%nat ->
  getChannelData r ch h = Normal (mkView r ch) h.
Proof.
  intros H Hch. unfold getChannelData, bind. rewrite (@deref_ok _ _ _ H).
  apply Nat.ltb_lt in Hch. rewrite Hch. reflexivity.
Qed.

Lemma view_get_ok (h : Heap) (r : ref) (b : AudioBuffer) (ch i : nat) :
  nth_error h r = Some b ->
  view_get (mkView r ch) i h = Normal (sample_of b ch i) h.
Proof.
  intros H. unfold view_get, bind. cbn [view_buffer view_channel].
  rewrite (@deref_ok _ _ _ H). reflexivity.
Qed.

Lemma view_set_last (h0 : Heap) (out : AudioBuffer) (ch i : nat) (x : num) :
  view_set (mkView (List.length h0) ch) i x (h0 ++ [out])
  = Normal tt (h0 ++ [write_sample out ch i x]).
Proof.
  unfold view_set. cbn [view_buffer view_channel].
  rewrite list_update_last. reflexivity.
Qed.

Lemma nth_error_old (h0 : Heap) (out : AudioBuffer) (r : ref)
  (b : AudioBuffer) :
  nth_error h0 r = Some b -> nth_error (h0 ++ [out]) r = Some b.
Proof.
  intros H. rewrite nth_error_app1; [assumption |].
  apply nth_error_Some. congruence.
Qed.

Lemma nth_error_new (h0 : Heap) (out : AudioBuffer) :
  nth_error (h0 ++ [out]) (List.length h0) = Some out.
Proof. rewrite nth_error_app2 by lia. rewrite Nat.sub_diag. reflexivity. Qed.

(** The inner loop, as a fold of writes on the clone. *)
Lemma inner_loop_writes (h0 : Heap) (a : ref) (src : AudioBuffer)
  (gainArray : list num) (ch : nat) :
  nth_error h0 a = Some src ->
  forall n lo out,
    for_loop_from lo n
      (fun i =>
         x <- view_get (mkView a ch) i ;;
         view_set (mkView (List.length h0) ch) i
           (num_mul x (JsArray.get gainArray i)))
      (h0 ++ [out])
    = Normal tt
        (h0 ++ [fold_left
                  (fun o i =>
                     write_sample o ch i (processed_value src gainArray ch i))
                  (seq lo n) out]).
Proof.
  intros Hsrc. induction n as [| n IH]; intros lo out.
  - reflexivity.
  - cbn [for_loop_from seq fold_left]. unfold bind at 1. unfold bind at 1.
    rewrite (@view_get_ok _ _ _ ch lo (@nth_error_old h0 out a src Hsrc)).
    rewrite view_set_last. apply IH.
Qed.

Lemma write_sample_channels (b : AudioBuffer) (ch i : nat) (x : num) :
  numberOfChannels (write_sample b ch i x) = numberOfChannels b.
Proof.
  unfold numberOfChannels, write_sample, write_channels. cbn [channels].
  apply list_update_length.
Qed.

Lemma fold_write_channels (src : AudioBuffer) (gainArray : list num)
  (ch : nat) (l : list nat) :
  forall out,
    numberOfChannels
      (fold_left
         (fun o i => write_sample o ch i (processed_value src gainArray ch i))
         l out)
    = numberOfChannels out.
Proof.
  induction l as [| i l IH]; intros out; cbn [fold_left].
  - reflexivity.
  - rewrite IH. apply write_sample_channels.
Qed.

(** The two loops, as a fold of folds of writes on the clone. *)
Lemma outer_loop_writes (h0 : Heap) (a : ref) (src : AudioBuffer)
  (gainArray : list num) (len : nat) :
  nth_error h0 a = Some src ->
  forall n lo out,
    (lo + n <= numberOfChannels src)%nat ->
    numberOfChannels out = numberOfChannels src ->
    for_loop_from lo n
      (fun ch =>
         inputData <- getChannelData a ch ;;
         outputData <- getChannelData (List.length h0) ch ;;
         for_loop len
           (fun i =>
              x <- view_get inputData i ;;
              view_set outputData i (num_mul x (JsArray.get gainArray i))))
      (h0 ++ [out])
    = Normal tt
        (h0 ++ [fold_left
                  (fun o ch =>
                     fold_left
                       (fun o i =>
                          write_sample o ch i
                            (processed_value src gainArray ch i))
                       (seq 0 len) o)
                  (seq lo n) out]).
Proof.
  intros Hsrc. induction n as [| n IH]; intros lo out Hle Hnch.
  - reflexivity.
  - cbn [for_loop_from seq fold_left]. unfold bind at 1. unfold bind at 1.
    rewrite (@getChannelData_ok _ _ _ lo (@nth_error_old h0 out a src Hsrc))
      by lia.
    unfold bind at 1.
    rewrite (@getChannelData_ok _ _ _ lo (nth_error_new h0 out)) by lia.
    unfold for_loop.
    rewrite (@inner_loop_writes h0 a src gainArray lo Hsrc).
    apply IH; [lia |].
    rewrite fold_write_channels. assumption.
Qed.

Lemma list_update_ext {A} (l : list A) (i : nat) (f g : A -> A) :
  (forall x, f x = g x) -> list_update l i f = list_update l i g.
Proof.
  intros Hfg. revert i.
  induction l as [| x l IH]; intros [| i]; simpl; try reflexivity.
  - rewrite Hfg. reflexivity.
  - rewrite IH. reflexivity.
Qed.

Lemma list_update_same {A} (l : list A) (i : nat) :
  list_update l i (fun x => x) = l.
Proof.
  revert i. induction l as [| x l IH]; intros [| i]; simpl;
    try reflexivity.
  rewrite IH. reflexivity.
Qed.

Lemma list_update_twice {A} (l : list A) (i : nat) (f g : A -> A) :
  list_update (list_update l i f) i g = list_update l i (fun x => g (f x)).
Proof.
  revert i. induction l as [| x l IH]; intros [| i]; simpl;
    try reflexivity.
  rewrite IH. reflexivity.
Qed.

(** Updates that all go to element [k] are one update of element [k]. *)
Lemma fold_update_at {A B} (k : nat) (F : B -> A -> A) (l : list B) :
  forall xs : list A,
    fold_left (fun xs b => list_update xs k (F b)) l xs
    = list_update xs k (fun x => fold_left (fun x b => F b x) l x).
Proof.
  induction l as [| b l IH]; intros xs; cbn [fold_left].
  - symmetry. apply list_update_same.
  - rewrite IH, list_update_twice. reflexivity.
Qed.

Lemma list_update_middle {A} (pre suf : list A) (x : A) (f : A -> A) :
  list_update (pre ++ x :: suf) (List.length pre) f = pre ++ f x :: suf.
Proof.
  induction pre as [| p pre IH]; simpl; [reflexivity |].
  rewrite IH. reflexivity.
Qed.

(** Element [i] updated by [G i], for every index in turn. *)
Lemma fold_update_each {A} (G : nat -> A -> A) (suf : list A) :
  forall pre,
    fold_left (fun xs i => list_update xs i (G i))
      (seq (List.length pre) (List.length suf)) (pre ++ suf)
    = pre ++ map (fun ix => G (fst ix) (snd ix))
               (combine (seq (List.length pre) (List.length suf)) suf).
Proof.
  induction suf as [| x suf IH]; intros pre.
  - reflexivity.
  - cbn [List.length seq fold_left combine map fst snd].
    rewrite list_update_middle.
    replace (pre ++ G (List.length pre) x :: suf)
      with ((pre ++ [G (List.length pre) x]) ++ suf)
      by (rewrite <- app_assoc; reflexivity).
    replace (S (List.length pre))
      with (List.length (pre ++ [G (List.length pre) x]))
      by (rewrite length_app; simpl; lia).
    rewrite IH. rewrite <- app_assoc. reflexivity.
Qed.

Lemma fold_write_fields (src : AudioBuffer) (gainArray : list num)
  (ch : nat) (l : list nat) :
  forall out,
    fold_left
      (fun o i => write_sample o ch i (processed_value src gainArray ch i))
      l out
    = mkBuffer (sampleRate out) (length out)
        (fold_left
           (fun chs i =>
              write_channels chs ch i (processed_value src gainArray ch i))
           l (channels out)).
Proof.
  induction l as [| i l IH]; intros out; cbn [fold_left].
  - destruct out. reflexivity.
  - rewrite IH. reflexivity.
Qed.

Lemma fold_channels_fields (src : AudioBuffer) (gainArray : list num)
  (len : nat) (l : list nat) :
  forall out,
    fold_left
      (fun o ch =>
         fold_left
           (fun o i =>
              write_sample o ch i (processed_value src gainArray ch i))
           (seq 0 len) o)
      l out
    = mkBuffer (sampleRate out) (length out)
        (fold_left
           (fun chs ch =>
              list_update chs ch
                (fun data =>
                   fold_left
                     (fun data i =>
                        list_update data i
                          (fun _ => processed_value src gainArray ch i))
                     (seq 0 len) data))
           l (channels out)).
Proof.
  induction l as [| ch l IH]; intros out; cbn [fold_left].
  - destruct out. reflexivity.
  - rewrite IH. rewrite fold_write_fields. cbn [sampleRate length channels].
    unfold write_channels.
    rewrite (@fold_update_at (list num) nat ch
               (fun i data =>
                  list_update data i
                    (fun _ => processed_value src gainArray ch i))).
    reflexivity.
Qed.

(** A channel of [len] samples written at every index. *)
Lemma fill_channel (g : nat -> num) (data : list num) :
  fold_left (fun data i => list_update data i (fun _ => g i))
    (seq 0 (List.length data)) data
  = map g (seq 0 (List.length data)).
Proof.
  pose proof (@fold_update_each num (fun i _ => g i) data []) as H.
  cbn [List.length app] in H. rewrite H. clear H.
  generalize 0%nat. induction data as [| x data IH]; intros lo.
  - reflexivity.
  - cbn [List.length seq combine map fst snd]. rewrite IH. reflexivity.
Qed.

Lemma values_of_channel (F : num -> nat -> num) (data : list num) :
  forall pre,
    map (fun i => F (undefined_to_num (nth_error (pre ++ data) i)) i)
        (seq (List.length pre) (List.length data))
    = map (fun ix => F (snd ix) (fst ix))
          (combine (seq (List.length pre) (List.length data)) data).
Proof.
  induction data as [| x data IH]; intros pre.
  - reflexivity.
  - cbn [List.length seq combine map fst snd].
    rewrite nth_error_app2 by lia. rewrite Nat.sub_diag. cbn [nth_error].
    f_equal.
    specialize (IH (pre ++ [x])).
    rewrite <- app_assoc in IH. cbn [app] in IH.
    rewrite length_app in IH. cbn [List.length] in IH.
    rewrite Nat.add_1_r in IH. exact IH.
Qed.

(** The channels of the clone when both loops are done. *)
Lemma processed_channels (src : AudioBuffer) (gainArray : list num)
  (suf : list (list num)) :
  Forall (fun data => List.length data = length src) suf ->
  forall pre zeros,
    channels src = pre ++ suf ->
    List.length zeros = List.length suf ->
    Forall (fun data => List.length data = length src) zeros ->
    map (fun ix =>
           fold_left
             (fun data i =>
                list_update data i
                  (fun _ => processed_value src gainArray (fst ix) i))
             (seq 0 (length src)) (snd ix))
        (combine (seq (List.length pre) (List.length zeros)) zeros)
    = map (processed_channel gainArray) suf.
Proof.
  induction 1 as [| data suf Hdata _ IH]; intros pre zeros Hsrc Hlen Hzeros.
  - destruct zeros; [reflexivity | discriminate].
  - destruct zeros as [| z zeros]; [discriminate |].
    inversion Hzeros as [| ? ? Hz Hzs]; subst.
    cbn [List.length seq combine map fst snd]. f_equal.
    + rewrite <- Hz. rewrite fill_channel. rewrite Hz, <- Hdata.
      unfold processed_channel, processed_value, sample_of.
      rewrite Hsrc. rewrite nth_error_app2 by lia.
      rewrite Nat.sub_diag. cbn [nth_error].
      exact (@values_of_channel
               (fun x i => num_mul x (JsArray.get gainArray i)) data []).
    + specialize (IH (pre ++ [data]) zeros).
      rewrite length_app in IH. cbn [List.length] in IH.
      rewrite Nat.add_1_r in IH. apply IH.
      * rewrite <- app_assoc. exact Hsrc.
      * simpl in Hlen. lia.
      * assumption.
Qed.

Lemma nth_combine_seq (data : list num) :
  forall lo i x,
    nth_error data i = Some x ->
    nth_error (combine (seq lo (List.length data)) data) i
    = Some ((lo + i)%nat, x).
Proof.
  induction data as [| y data IH]; intros lo i x Hx.
  - destruct i; discriminate.
  - destruct i as [| i].
    + simpl in Hx. injection Hx as ->. simpl.
      rewrite Nat.add_0_r. reflexivity.
    + simpl in Hx. cbn [List.length seq combine nth_error].
      rewrite (IH (S lo) i x Hx). f_equal. f_equal. lia.
Qed.

(** The run of [applySimpleProcessing] on a valid buffer. *)
Lemma applySimpleProcessing_run
  (h : Heap) (audioBuffer : ref) (src : AudioBuffer) (gainArray : list num) :
  nth_error h audioBuffer = Some src ->
  valid_buffer src ->
  exists out,
    applySimpleProcessing audioBuffer gainArray h
    = Normal (List.length h) (h ++ [out])
    /\ channels out = map (processed_channel gainArray) (channels src).
Proof.
  intros Hsrc Hvalid. pose proof Hvalid as (Hnch & Hlen & Hdata).
  unfold applySimpleProcessing.
  unfold bind at 1. rewrite (@deref_ok _ _ _ Hsrc).
  unfold bind at 1. unfold createBuffer.
  assert (Hnz : ((numberOfChannels src =? 0)%nat
                 || (length src =? 0)%nat)%bool = false).
  { apply orb_false_iff. split; apply Nat.eqb_neq; lia. }
  rewrite Hnz.
  unfold bind at 1. unfold for_loop at 1.
  rewrite (@outer_loop_writes h audioBuffer src gainArray (length src) Hsrc
             (numberOfChannels src) 0%nat).
  2: lia.
  2: { unfold numberOfChannels at 1. cbn [channels]. apply repeat_length. }
  unfold ret. eexists. split; [reflexivity |].
  rewrite fold_channels_fields. cbn [sampleRate length channels].
  set (zeros := repeat (repeat (Fin 0) (length src))
                  (numberOfChannels src)).
  assert (Hzlen : List.length zeros = numberOfChannels src)
    by apply repeat_length.
  assert (Hz : Forall (fun data => List.length data = length src) zeros).
  { apply Forall_forall. intros data Hin. apply repeat_spec in Hin.
    subst data. apply repeat_length. }
  pose proof (@fold_update_each (list num)
                (fun ch data =>
                   fold_left
                     (fun data i =>
                        list_update data i
                          (fun _ => processed_value src gainArray ch i))
                     (seq 0 (length src)) data)
                zeros []) as H.
  cbn [List.length app] in H. rewrite Hzlen in H. rewrite H.
  rewrite <- Hzlen.
  apply (@processed_channels src gainArray (channels src) Hdata [] zeros).
  - reflexivity.
  - exact Hzlen.
  - exact Hz.
Qed.

(** One sample of a buffer whose channels are the processed channels. *)
Lemma processed_sample (src out : AudioBuffer) (gainArray : list num)
  (ch i : nat) (data : list num) (x : num) :
  channels out = map (processed_channel gainArray) (channels src) ->
  nth_error (channels src) ch = Some data ->
  nth_error data i = Some x ->
  sample_of out ch i = num_mul x (JsArray.get gainArray i).
Proof.
  intros Hch Hdat Hx. unfold sample_of. rewrite Hch.
  rewrite nth_error_map, Hdat. cbn [option_map].
  unfold processed_channel. rewrite nth_error_map.
  rewrite (@nth_combine_seq data 0%nat i x Hx). reflexivity.
Qed.

Lemma gain_missing (gainArray : list num) (i : nat) (x : num) :
  (List.length gainArray <= i)%nat ->
  num_mul x (JsArray.get gainArray i) = NaN.
Proof.
  intros Hge.
  assert (Hnone : nth_error gainArray i = None)
    by (apply nth_error_None; assumption).
  unfold JsArray.get. rewrite Hnone. apply num_mul_NaN_r.
Qed.

(** [applySimpleProcessing]: the buffer it returns holds, for every channel
    of the input, the samples of that channel each multiplied by the entry
    of the gain array of the same index; where the gain array has no entry
    of that index ([gainArray[i]] is [undefined]) the sample is NaN. *)
Theorem applySimpleProcessing_samples
  (h : Heap) (audioBuffer : ref) (src : AudioBuffer) (gainArray : list num) :
  nth_error h audioBuffer = Some src ->
  valid_buffer src ->
  exists out,
    applySimpleProcessing audioBuffer gainArray h
    = Normal (List.length h) (h ++ [out])
    /\ channels out = map (processed_channel gainArray) (channels src)
    /\ (forall ch data i x,
          nth_error (channels src) ch = Some data ->
          nth_error data i = Some x ->
          sample_of out ch i = num_mul x (JsArray.get gainArray i)
          /\ ((List.length gainArray <= i)%nat ->
              sample_of out ch i = NaN)).
Proof.
  intros Hsrc Hvalid.
  destruct (@applySimpleProcessing_run h audioBuffer src gainArray Hsrc
              Hvalid) as (out & Hrun & Hch).
  exists out. split; [exact Hrun |]. split; [exact Hch |].
  intros ch data i x Hdat Hx.
  rewrite (@processed_sample src out gainArray ch i data x Hch Hdat Hx).
  split; [reflexivity |]. apply gain_missing.
Qed.

Lemma applySimpleProcessing_samples_witness :
  exists out,
    applySimpleProcessing 0%nat [Fin 2] [Examples.example_input]
    = Normal (List.length [Examples.example_input])
        ([Examples.example_input] ++ [out])
    /\ channels out
       = map (processed_channel [Fin 2]) (channels Examples.example_input)
    /\ (forall ch data i x,
          nth_error (channels Examples.example_input) ch = Some data ->
          nth_error data i = Some x ->
          sample_of out ch i = num_mul x (JsArray.get [Fin 2] i)
          /\ ((List.length [Fin 2] <= i)%nat -> sample_of out ch i = NaN)).
Proof.
  apply (@applySimpleProcessing_samples [Examples.example_input] 0%nat
           Examples.example_input [Fin 2]).
  - reflexivity.
  - exact AudioTheorems.example_input_valid.
Defined.

Lemma failed_request_runs_local_processing
  (backend : Backend) (currentMode : string) (h : Heap) (audioBuffer : ref)
  (src : AudioBuffer) (bands : list Slider) (gainArray : list num) :
  nth_error h audioBuffer = Some src ->
  valid_buffer src ->
  request_failed
    (backend (mkRequest (nth 0 (channels src) []) gainArray (sampleRate src)
                bands currentMode)) = true ->
  processWithBackend backend currentMode audioBuffer bands gainArray h
  = applySimpleProcessing audioBuffer gainArray h.
Proof.
  intros Hsrc (Hnch & _) Hfail.
  unfold processWithBackend, try_catch.
  unfold bind at 1.
  rewrite (@getChannelData_ok h audioBuffer src 0%nat Hsrc Hnch).
  unfold bind at 1. unfold array_from, bind at 1.
  cbn [view_buffer view_channel]. rewrite (@deref_ok _ _ _ Hsrc).
  unfold ret at 1. unfold bind at 1. rewrite (@deref_ok _ _ _ Hsrc).
  destruct (backend _) as [| ok status body]; [reflexivity |].
  destruct ok; cbn [negb]; [| reflexivity].
  destruct body as [| result]; [reflexivity |].
  cbn [request_failed] in Hfail.
  destruct result as [| b | x | s | items | members]; try reflexivity.
  unfold bind at 1. cbn [read_processedAudio]. unfold ret at 1.
  destruct (member members "processedAudio") as [[| | | | |] |];
    try discriminate Hfail; reflexivity.
Qed.

(** [applyEqualizer]: without an input signal, or without an audio context,
    nothing changes.  With a valid input buffer, an analyser of [binCount]
    bins and a request that fails: the call ends with [isProcessing] false,
    [sliders] the given bands and [outputSignal] a new buffer, the input
    being kept; the gain array has [binCount] entries and is indexed by the
    sample index, so every output sample of index [binCount] or more is
    NaN. *)
Theorem applyEqualizer_local_output
  (backend : Backend) (currentMode : string) (rate : num) (binCount : nat)
  (st : ProviderState) (bands : list Slider) (h : Heap) (input : ref)
  (src : AudioBuffer) :
  inputSignal st = Some input ->
  nth_error h input = Some src ->
  valid_buffer src ->
  request_failed
    (backend
       (mkRequest (nth 0 (channels src) [])
          (Synth.generateGainArray bands
             (getFrequencyBins (Some binCount) (Some rate)))
          (sampleRate src) bands currentMode)) = true ->
  (exists out,
     applyEqualizer backend currentMode (Some rate) (Some binCount) st bands h
     = Normal (mkState (Some input) (Some (List.length h)) bands false)
         (h ++ [out])
     /\ forall ch data i x,
          nth_error (channels src) ch = Some data ->
          nth_error data i = Some x ->
          (i < binCount)%nat
          /\ sample_of out ch i
             = num_mul x
                 (JsArray.get
                    (Synth.generateGainArray bands
                       (getFrequencyBins (Some binCount) (Some rate))) i)
          \/ (binCount <= i)%nat /\ sample_of out ch i = NaN)
  /\ applyEqualizer backend currentMode None (Some binCount) st bands h
     = Normal st h
  /\ applyEqualizer backend currentMode (Some rate) (Some binCount)
       (mkState None (outputSignal st) (sliders st) (isProcessing st))
       bands h
     = Normal (mkState None (outputSignal st) (sliders st) (isProcessing st))
         h.
Proof.
  intros Hin Hsrc Hvalid Hfail. split; [| split].
  - set (gains := Synth.generateGainArray bands
                    (getFrequencyBins (Some binCount) (Some rate))) in *.
    destruct (@applySimpleProcessing_run h input src gains Hsrc Hvalid)
      as (out & Hrun & Hch).
    exists out. split.
    + unfold applyEqualizer. rewrite Hin. cbv zeta.
      unfold bind at 1. unfold try_catch. unfold bind at 1.
      fold gains.
      rewrite (@failed_request_runs_local_processing backend currentMode h
                 input src bands gains Hsrc Hvalid Hfail).
      rewrite Hrun. reflexivity.
    + intros ch data i x Hdat Hx.
      pose proof (@processed_sample src out gains ch i data x Hch Hdat Hx)
        as Hval.
      assert (Hlen : List.length gains = binCount).
      { unfold gains. rewrite SynthFacts.generateGainArray_length.
        rewrite ProviderFacts.getFrequencyBins_map, length_map, length_seq.
        reflexivity. }
      destruct (Nat.lt_ge_cases i binCount) as [Hlt | Hge].
      * left. split; assumption.
      * right. split; [assumption |]. rewrite Hval.
        apply gain_missing. lia.
  - unfold applyEqualizer. destruct (inputSignal st); reflexivity.
  - reflexivity.
Qed.

Lemma applyEqualizer_local_output_witness :
  (exists out,
     applyEqualizer (fun _ => Rejected) "generic" (Some (Fin 44100))
       (Some 1%nat) (mkState (Some 0%nat) None [] false)
       [Examples.example_band] [Examples.example_input]
     = Normal
         (mkState (Some 0%nat)
            (Some (List.length [Examples.example_input]))
            [Examples.example_band] false)
         ([Examples.example_input] ++ [out])
     /\ forall ch data i x,
          nth_error (channels Examples.example_input) ch = Some data ->
          nth_error data i = Some x ->
          (i < 1)%nat
          /\ sample_of out ch i
             = num_mul x
                 (JsArray.get
                    (Synth.generateGainArray [Examples.example_band]
                       (getFrequencyBins (Some 1%nat) (Some (Fin 44100))))
                    i)
          \/ (1 <= i)%nat /\ sample_of out ch i = NaN)
  /\ applyEqualizer (fun _ => Rejected) "generic" None (Some 1%nat)
       (mkState (Some 0%nat) None [] false) [Examples.example_band]
       [Examples.example_input]
     = Normal (mkState (Some 0%nat) None [] false) [Examples.example_input]
  /\ applyEqualizer (fun _ => Rejected) "generic" (Some (Fin 44100))
       (Some 1%nat) (mkState None None [] false) [Examples.example_band]
       [Examples.example_input]
     = Normal (mkState None None [] false) [Examples.example_input].
Proof.
  apply (@applyEqualizer_local_output (fun _ => Rejected) "generic"%string
           (Fin 44100) 1%nat (mkState (Some 0%nat) None [] false)
           [Examples.example_band] [Examples.example_input] 0%nat
           Examples.example_input).
  - reflexivity.
  - reflexivity.
  - exact AudioTheorems.example_input_valid.
  - reflexivity.
Defined.

End AudioContent.

(* ================================================================== *)
(** * The earlier gain array, and removing a band *)
(* ================================================================== *)

Module ProviderV1Facts.

Import JsArray ProviderV1 SynthFacts NumFacts SynthSpec.

Lemma v1_bin_step_middle (s : Slider) (bpre bsuf gpre gsuf : list num)
  (f g : num) :
  List.length gpre = List.length bpre ->
  bin_step (bpre ++ f :: bsuf) s
    (num_sub (centerFreq s) (num_div (width s) (Fin 2)))
    (num_add (centerFreq s) (num_div (width s) (Fin 2)))
    (List.length bpre) (gpre ++ g :: gsuf)
  = gpre ++ replace_gain f g s :: gsuf.
Proof.
  intros Hlen. unfold bin_step, replace_gain, Provider.affects.
  rewrite get_middle. cbv zeta. rewrite <- Hlen.
  destruct (Provider.num_geb f _ && num_leb f _)%bool.
  - rewrite set_middle. reflexivity.
  - reflexivity.
Qed.

Lemma v1_inner_loop_from (s : Slider) (bsuf : list num) :
  forall bpre gpre gsuf,
    List.length gpre = List.length bpre ->
    List.length gsuf = List.length bsuf ->
    for_range (List.length bpre) (List.length bsuf)
      (bin_step (bpre ++ bsuf) s
         (num_sub (centerFreq s) (num_div (width s) (Fin 2)))
         (num_add (centerFreq s) (num_div (width s) (Fin 2))))
      (gpre ++ gsuf)
    = gpre ++ map (fun fg => replace_gain (fst fg) (snd fg) s)
                  (combine bsuf gsuf).
Proof.
  unfold for_range.
  induction bsuf as [| f bsuf IH]; intros bpre gpre gsuf Hpre Hsuf.
  - destruct gsuf; [reflexivity | discriminate].
  - destruct gsuf as [| g gsuf]; [discriminate |].
    simpl in Hsuf. injection Hsuf as Hsuf.
    cbn [List.length seq fold_left combine map fst snd].
    rewrite v1_bin_step_middle by assumption.
    replace (bpre ++ f :: bsuf) with ((bpre ++ [f]) ++ bsuf)
      by (rewrite <- app_assoc; reflexivity).
    replace (gpre ++ replace_gain f g s :: gsuf)
      with ((gpre ++ [replace_gain f g s]) ++ gsuf)
      by (rewrite <- app_assoc; reflexivity).
    replace (S (List.length bpre)) with (List.length (bpre ++ [f]))
      by (rewrite length_app; simpl; lia).
    rewrite IH.
    + rewrite <- app_assoc. reflexivity.
    + rewrite !length_app. simpl. lia.
    + assumption.
Qed.

Lemma map_combine_map {A B C} (F : A -> B -> C) (h : A -> B) (l : list A) :
  map (fun ab => F (fst ab) (snd ab)) (combine l (map h l))
  = map (fun a => F a (h a)) l.
Proof.
  induction l as [| a l IH]; [reflexivity |].
  cbn [map combine fst snd]. rewrite IH. reflexivity.
Qed.

Lemma v1_outer_loop (sliders : list Slider) (bins : list num) :
  forall h : num -> num,
    fold_left
      (fun gains slider =>
         for_range 0 (List.length bins)
           (bin_step bins slider
              (num_sub (centerFreq slider) (num_div (width slider) (Fin 2)))
              (num_add (centerFreq slider) (num_div (width slider) (Fin 2))))
           gains)
      sliders (map h bins)
    = map (fun f => fold_left (replace_gain f) sliders (h f)) bins.
Proof.
  induction sliders as [| s sliders IH]; intros h; cbn [fold_left].
  - reflexivity.
  - pose proof (@v1_inner_loop_from s bins [] [] (map h bins) eq_refl) as H.
    cbn [List.length app] in H. rewrite H by apply length_map. clear H.
    rewrite (@map_combine_map num num num
               (fun f g => replace_gain f g s) h bins).
    apply (IH (fun f => replace_gain f (h f) s)).
Qed.

Lemma v1_generateGainArray_map (sliders : list Slider) (bins : list num) :
  generateGainArray sliders bins
  = map (fun f => fold_left (replace_gain f) sliders (Fin 1)) bins.
Proof.
  unfold generateGainArray, fill.
  replace (repeat (Fin 1) (List.length bins))
    with (map (fun _ : num => Fin 1) bins)
    by (induction bins; simpl; congruence).
  apply v1_outer_loop.
Qed.

Lemma fold_replace_gain (freq : num) (sliders : list Slider) (g : num) :
  fold_left (replace_gain freq) sliders g
  = match last_affecting sliders freq with
    | Some b => gain b
    | None => g
    end.
Proof.
  unfold last_affecting.
  induction sliders as [| s sliders IH] using rev_ind.
  - reflexivity.
  - rewrite fold_left_app, rev_app_distr. cbn [fold_left rev app find].
    unfold replace_gain at 1.
    destruct (Provider.affects freq s); [reflexivity | exact IH].
Qed.

(** The earlier [generateGainArray] (rectangular window): the entry for a
    frequency is the gain of the last band of the list whose range
    [centerFreq - width/2 .. centerFreq + width/2] holds the frequency, and
    1 when there is none.  It never divides: a band of bandwidth 0, centre
    [c] and gain [g] gives exactly [g] at [c]. *)
Theorem earlier_generateGainArray_last_band_wins
  (sliders : list Slider) (frequencyBins : list num) (i : Z) (c : R)
  (g : num) (l : string) :
  generateGainArray sliders frequencyBins
  = map (fun freq =>
           match last_affecting sliders freq with
           | Some b => gain b
           | None => Fin 1
           end)
        frequencyBins
  /\ generateGainArray [mkSlider i (Fin c) (Fin 0) g l] [Fin c] = [g].
Proof.
  split.
  - rewrite v1_generateGainArray_map. apply map_ext. intros freq.
    apply fold_replace_gain.
  - rewrite v1_generateGainArray_map. cbn [map fold_left]. f_equal.
    unfold replace_gain, Provider.affects, Provider.num_geb.
    cbn [centerFreq width gain]. rewrite num_div_by_2.
    cbn [num_sub num_neg num_add num_leb].
    rewrite !Rle_b_true by lra. reflexivity.
Qed.

End ProviderV1Facts.

Module RemoveFacts.

Import BandSet.

Lemma removeSlider_absent (sliders : list Slider) (sliderId : Z) :
  (forall s, In s sliders -> id s <> sliderId) ->
  removeSlider sliders sliderId = sliders.
Proof.
  unfold removeSlider.
  induction sliders as [| s sliders IH]; intros H; [reflexivity |].
  cbn [filter]. destruct (Z.eqb_spec (id s) sliderId) as [Heq | _].
  - exfalso. exact (H s (or_introl eq_refl) Heq).
  - cbn [negb]. f_equal. apply IH. intros s' Hin. apply H. right.
    assumption.
Qed.

(** [removeSlider]: a band is in the result exactly when it was in the
    collection and has another id; the bands kept stay in their order; a
    second removal of the same id, and the removal of an id that no band
    has, change nothing. *)
Theorem removeSlider_removes_the_id_and_nothing_else
  (sliders : list Slider) (sliderId : Z) :
  (forall s, In s (removeSlider sliders sliderId)
             <-> In s sliders /\ id s <> sliderId)
  /\ removeSlider sliders sliderId
     = filter (fun s => negb (Z.eqb (id s) sliderId)) sliders
  /\ removeSlider (removeSlider sliders sliderId) sliderId
     = removeSlider sliders sliderId
  /\ ((forall s, In s sliders -> id s <> sliderId) ->
      removeSlider sliders sliderId = sliders)
  /\ (List.length (removeSlider sliders sliderId) <= List.length sliders)%nat.
Proof.
  split; [| split; [reflexivity | split; [| split]]].
  - intros s. unfold removeSlider. rewrite filter_In.
    destruct (Z.eqb_spec (id s) sliderId); cbn [negb]; intuition congruence.
  - apply removeSlider_absent. intros s Hin.
    unfold removeSlider in Hin. apply filter_In in Hin.
    destruct Hin as [_ Hne].
    destruct (Z.eqb_spec (id s) sliderId); [discriminate | assumption].
  - apply removeSlider_absent.
  - unfold removeSlider. apply filter_length_le.
Qed.

End RemoveFacts.

(* ================================================================== *)
(** * The generic-mode components: resets, selections, new bands *)
(* ================================================================== *)

Module GenericModeFacts.

Import BandSet GenericModeOld GenericModeNew Audio Preview NumFacts.
Local Open Scope R_scope.

Lemma merge_gain_1 (b : Slider) :
  merge b (mkData None None None (Some (Fin 1)) None) = unit_gain b.
Proof. reflexivity. Qed.

Lemma forEach_calls_last {A} (f : A -> completion (list Slider))
  (xs : list A) (x : A) (cell : list Slider) :
  (forall y, exists l, f y = Returned l) ->
  forEach_calls f (xs ++ [x]) cell = f x.
Proof.
  intros Hf. unfold forEach_calls. rewrite fold_left_app. cbn [fold_left].
  assert (H : exists l, fold_left
                          (fun acc y =>
                             match acc with
                             | Returned _ => f y
                             | Thrown e => Thrown e
                             end) xs (Returned cell) = Returned l).
  { generalize cell. induction xs as [| y xs IH]; intros c.
    - exists c. reflexivity.
    - cbn [fold_left]. destruct (Hf y) as [l ->]. apply IH. }
  destruct H as [l ->]. reflexivity.
Qed.

(** [handleResetAll] of components/GenericMode.jsx: every [updateSlider]
    call of the [forEach] starts from the same [sliders], so the list left
    in the state is [sliders] with gain 1 only for the bands that have the
    id of the last band; a band with another id keeps its gain.  On an
    empty collection nothing is stored. *)
Theorem handleResetAll_resets_the_last_id_only
  (bands : list Slider) (s : Slider) (cell : list Slider) :
  handleResetAll (bands ++ [s]) cell
  = Returned
      (map (fun b => if Z.eqb (id b) (id s) then unit_gain b else b)
           (bands ++ [s]))
  /\ handleResetAll [] cell = Returned cell.
Proof.
  split; [| reflexivity].
  unfold handleResetAll. cbv zeta. rewrite map_app. cbn [map].
  rewrite forEach_calls_last.
  - reflexivity.
  - intros y. eexists. reflexivity.
Qed.

Lemma reset_fold (l : list Slider) :
  forall prev,
    handleResetAllGains l prev
    = map (fun b =>
             if existsb (fun s => Z.eqb (id b) (id s)) l
             then unit_gain b else b)
          prev.
Proof.
  unfold handleResetAllGains.
  induction l as [| s l IH]; intros prev; cbn [fold_left].
  - cbn [existsb]. symmetry. apply map_id.
  - rewrite IH. unfold handleUpdateSlider. rewrite map_map.
    apply map_ext. intros b. cbn [existsb].
    destruct (Z.eqb (id b) (id s)) eqn:Hb.
    + rewrite merge_gain_1. cbn [unit_gain id orb].
      destruct (existsb _ l); reflexivity.
    + cbn [orb]. reflexivity.
Qed.

(** [handleResetAllGains] of components/modes/GenericMode.jsx: the updates
    of the local list are applied one after the other, and every band of
    the local list ends with gain 1, its id, centre, width and label being
    kept. *)
Theorem handleResetAllGains_resets_every_band (sliders : list Slider) :
  handleResetAllGains sliders sliders = map unit_gain sliders.
Proof.
  rewrite reset_fold. apply map_ext_in. intros b Hin.
  replace (existsb (fun s => Z.eqb (id b) (id s)) sliders) with true;
    [reflexivity |].
  symmetry. apply existsb_exists. exists b. split; [assumption |].
  apply Z.eqb_refl.
Qed.

(** [handleMouseMove]: when the drag started inside the canvas
    ([0 <= start <= 800]), the selection stored for any mouse position has
    [0 <= start <= end <= 800] and [width = end - start]. *)
Theorem handleMouseMove_keeps_selection_in_canvas (sel : Drag) (x : R) :
  0 <= drag_start sel <= 800 ->
  exists d,
    handleMouseMove true (Some sel) true x = Some d
    /\ 0 <= drag_start d /\ drag_start d <= drag_end d
    /\ drag_end d <= 800
    /\ drag_width d = drag_end d - drag_start d.
Proof.
  intros [H0 H800]. eexists. split; [reflexivity |].
  cbn [drag_start drag_end drag_width].
  set (b := Rmax 0 (Rmin 800 x)).
  assert (Hb : 0 <= b <= 800).
  { unfold b, Rmax, Rmin.
    destruct (Rle_dec 800 x); destruct (Rle_dec 0 _); lra. }
  unfold Rmin, Rmax, Rabs.
  destruct (Rle_dec (drag_start sel) b);
    destruct (Rcase_abs (b - drag_start sel)); lra.
Qed.

Lemma handleMouseMove_keeps_selection_in_canvas_witness :
  exists d,
    handleMouseMove true (Some (mkDrag 300 300 0)) true 950 = Some d
    /\ 0 <= drag_start d /\ drag_start d <= drag_end d
    /\ drag_end d <= 800
    /\ drag_width d = drag_end d - drag_start d.
Proof.
  apply (@handleMouseMove_keeps_selection_in_canvas (mkDrag 300 300 0) 950).
  simpl. lra.
Defined.

Lemma floor_bounds (r : R) : IZR (Int_part r) <= r < IZR (Int_part r) + 1.
Proof. destruct (base_Int_part r) as [H1 H2]. lra. Qed.

Lemma floor_monotone (x y : R) : x <= y -> (Int_part x <= Int_part y)%Z.
Proof.
  intros Hxy. pose proof (floor_bounds x) as Hx.
  pose proof (floor_bounds y) as Hy.
  assert (H : IZR (Int_part x) < IZR (Int_part y + 1)).
  { rewrite plus_IZR. lra. }
  apply lt_IZR in H. lia.
Qed.

Lemma floor_of_nat (n : nat) : Int_part (INR n) = Z.of_nat n.
Proof. apply Int_part_INR. Qed.

Lemma floor_zero : Int_part 0 = 0%Z.
Proof. exact (Int_part_INR 0). Qed.

(** The sample indices calculated for a selection inside the canvas. *)
Lemma selection_indices (a b : R) (n : nat) :
  0 <= a -> a <= b -> b <= 800 ->
  (0 <= Math_floor (a / 800 * INR n)
   <= Math_floor (b / 800 * INR n))%Z
  /\ (Math_floor (b / 800 * INR n) <= Z.of_nat n)%Z.
Proof.
  intros H0 Hab H800. unfold Math_floor.
  assert (Hn : 0 <= INR n) by apply pos_INR.
  repeat split.
  - rewrite <- floor_zero. apply floor_monotone. 
    apply Rmult_le_pos; [lra | assumption].
  - apply floor_monotone. apply Rmult_le_compat_r; [assumption | lra].
  - rewrite <- floor_of_nat. apply floor_monotone.
    replace (INR n) with (1 * INR n) at 2 by ring.
    apply Rmult_le_compat_r; [assumption | lra].
Qed.

Section BandFromSelectionFacts.

Variable Number_toString : Z -> string.

(** [createBandFromSelection]: whatever the selection, the band created has
    its centre between 20 and 20000, its bandwidth between 50 and 5000 (so
    never 0) and gain 1; the local list gets that band at its end.  For a
    selection inside the canvas ([0 <= start <= end <= 800]) the sample
    indices stored with the region satisfy
    [0 <= startSample <= endSample <= inputSignal.length].  Without a
    selection or without an input signal nothing is created. *)
Theorem createBandFromSelection_band_and_region
  (sel : Drag) (input : AudioBuffer) (providerSliders : list Slider)
  (now : Z) (prev : list Slider) :
  exists region band c w s e,
    createBandFromSelection Number_toString (Some sel) (Some input)
      providerSliders now prev
    = Some (region, band, prev ++ [band])
    /\ id band = now
    /\ centerFreq band = Fin c /\ 20 <= c <= 20000
    /\ width band = Fin w /\ 50 <= w <= 5000
    /\ gain band = Fin 1
    /\ startSample region = Some s /\ endSample region = Some e
    /\ (0 <= drag_start sel -> drag_start sel <= drag_end sel ->
        drag_end sel <= 800 ->
        (0 <= s <= e)%Z /\ (e <= Z.of_nat (length input))%Z)
    /\ createBandFromSelection Number_toString None (Some input)
         providerSliders now prev = None
    /\ createBandFromSelection Number_toString (Some sel) None
         providerSliders now prev = None.
Proof.
  do 6 eexists. split; [reflexivity |].
  split; [reflexivity |]. split; [reflexivity |]. split.
  { unfold Rmax, Rmin.
    repeat match goal with
           | |- context [Rle_dec ?a ?b] => destruct (Rle_dec a b)
           end; lra. }
  split; [reflexivity |]. split.
  { unfold Rmax, Rmin.
    repeat match goal with
           | |- context [Rle_dec ?a ?b] => destruct (Rle_dec a b)
           end; lra. }
  split; [reflexivity |]. split; [reflexivity |]. split; [reflexivity |].
  split; [| split; reflexivity].
  intros H0 Hab H800.
  destruct (@selection_indices (drag_start sel) (drag_end sel)
              (length input) H0 Hab H800) as [H1 H2].
  split; assumption.
Qed.

End BandFromSelectionFacts.

Lemma region_sample_in_range (data : list num) (s i : nat) (x : num)
  (useGain : bool) (gainValue : num) (old : num) :
  nth_error data (s + i) = Some x ->
  Preview.region_sample data (Z.of_nat s) useGain gainValue i old
  = preview_sample useGain gainValue x.
Proof.
  intros Hx. unfold Preview.region_sample, preview_sample. cbv zeta.
  assert (Hlt : (s + i < List.length data)%nat)
    by (apply nth_error_Some; congruence).
  destruct (Z.ltb_spec (Z.of_nat s + Z.of_nat i)
              (Z.of_nat (List.length data))) as [_ | Hge]; [| lia].
  unfold sample_at.
  destruct (Z.ltb_spec (Z.of_nat s + Z.of_nat i) 0) as [Hneg | _]; [lia |].
  replace (Z.to_nat (Z.of_nat s + Z.of_nat i)) with (s + i)%nat by lia.
  unfold JsArray.get. rewrite Hx. reflexivity.
Qed.

(** The region copied by the loop when it lies inside the input: the slice
    of the input, each sample through [preview_sample]. *)
Lemma copy_region_slice (data : list num) (s n : nat) (useGain : bool)
  (gainValue : num) :
  (s + n <= List.length data)%nat ->
  copy_region data (Z.of_nat s) n useGain gainValue
  = map (preview_sample useGain gainValue) (firstn n (skipn s data)).
Proof.
  intros Hle. rewrite PreviewTheorems.copy_region_map.
  apply nth_error_ext. intros i.
  rewrite !nth_error_map, nth_error_seq, nth_error_firstn, nth_error_skipn.
  destruct (Nat.ltb_spec i n) as [Hi | Hi]; [| reflexivity].
  cbn [option_map Nat.add].
  destruct (nth_error data (s + i)) as [x |] eqn:Hx.
  - cbn [option_map]. f_equal.
    apply region_sample_in_range. assumption.
  - apply nth_error_None in Hx. lia.
Qed.

Lemma channel0_length (input : AudioBuffer) :
  valid_buffer input ->
  List.length (nth 0 (channels input) []) = length input.
Proof.
  intros (Hnch & _ & Hdata). unfold numberOfChannels in Hnch.
  destruct (channels input) as [| data chs]; [simpl in Hnch; lia |].
  inversion Hdata. assumption.
Qed.

Section PreviewOfCreatedBand.

Variable Number_toString : Z -> string.

(** A band is created from a selection inside the canvas and previewed with
    [handleBandPreview].  The region has sample indices [s] and [e].  When
    [0 < s < e], what is played is the slice [s, e) of channel 0 of the
    input, each sample multiplied by the gain and clamped to [-1, 1] (or
    left as it is for a gain of 1).  When [s = 0], that is for a region that
    starts with the first sample, nothing is played: the region is reported
    as incomplete. *)
Theorem preview_of_created_band
  (sel : Drag) (input : AudioBuffer) (providerSliders : list Slider)
  (now : Z) (prev : list Slider) (selection : option Selection)
  (gainValue : num) :
  valid_buffer input ->
  0 <= drag_start sel -> drag_start sel <= drag_end sel ->
  drag_end sel <= 800 ->
  exists region band local (s e : nat),
    createBandFromSelection Number_toString (Some sel) (Some input)
      providerSliders now prev
    = Some (region, band, local)
    /\ startSample region = Some (Z.of_nat s)
    /\ endSample region = Some (Z.of_nat e)
    /\ (s <= e <= length input)%nat
    /\ ((0 < s)%nat -> (s < e)%nat ->
        handleBandPreview (Some input) (Some region) selection gainValue
        = Played
            (Some (map (preview_sample true gainValue)
                     (firstn (e - s)
                        (skipn s (nth 0 (channels input) []))))))
    /\ (s = 0%nat ->
        handleBandPreview (Some input) (Some region) selection gainValue
        = IncompleteRegion).
Proof.
  intros Hvalid H0 Hab H800.
  destruct (@selection_indices (drag_start sel) (drag_end sel)
              (length input) H0 Hab H800) as [[Hs Hse] He].
  set (zs := Math_floor (drag_start sel / 800 * INR (length input))) in *.
  set (ze := Math_floor (drag_end sel / 800 * INR (length input))) in *.
  exists (mkSelection (Rmax 0 (drag_start sel)) (Rmin 800 (drag_end sel))
            (Some zs) (Some ze)).
  eexists. eexists. exists (Z.to_nat zs), (Z.to_nat ze).
  split; [reflexivity |].
  cbn [startSample endSample].
  rewrite !Z2Nat.id by lia.
  split; [reflexivity |]. split; [reflexivity |]. split; [lia |]. split.
  - intros Hpos Hlt. unfold handleBandPreview.
    cbn [startSample endSample falsy_index].
    destruct (Z.eqb_spec zs 0) as [Hz | _]; [lia |].
    destruct (Z.eqb_spec ze 0) as [Hz | _]; [lia |].
    cbn [orb]. f_equal.
    unfold playSelectedRegion, sample_range. cbn [startSample endSample].
    destruct (Z.leb_spec (ze - zs) 0) as [Hle | _]; [lia |].
    f_equal.
    replace zs with (Z.of_nat (Z.to_nat zs)) at 1 by lia.
    replace (Z.to_nat (ze - zs)) with (Z.to_nat ze - Z.to_nat zs)%nat
      by lia.
    apply copy_region_slice.
    rewrite channel0_length by assumption. lia.
  - intros Hzero. unfold handleBandPreview.
    cbn [startSample endSample falsy_index].
    destruct (Z.eqb_spec zs 0) as [_ | Hz]; [reflexivity | lia].
Qed.

End PreviewOfCreatedBand.

Lemma preview_of_created_band_witness :
  exists region band local (s e : nat),
    createBandFromSelection (fun _ => "1000"%string)
      (Some (mkDrag 400 800 400)) (Some Examples.example_input) [] 7 []
    = Some (region, band, local)
    /\ startSample region = Some (Z.of_nat s)
    /\ endSample region = Some (Z.of_nat e)
    /\ (s <= e <= length Examples.example_input)%nat
    /\ ((0 < s)%nat -> (s < e)%nat ->
        handleBandPreview (Some Examples.example_input) (Some region) None
          (Fin 3)
        = Played
            (Some (map (preview_sample true (Fin 3))
                     (firstn (e - s)
                        (skipn s
                           (nth 0 (channels Examples.example_input) []))))))
    /\ (s = 0%nat ->
        handleBandPreview (Some Examples.example_input) (Some region) None
          (Fin 3)
        = IncompleteRegion).
Proof.
  apply (@preview_of_created_band (fun _ => "1000"%string)
           (mkDrag 400 800 400) Examples.example_input [] 7%Z [] None
           (Fin 3)).
  - exact AudioTheorems.example_input_valid.
  - simpl. lra.
  - simpl. lra.
  - simpl. lra.
Defined.








Lemma addSlider_record_without_id (cur : list Slider) (now : Z)
  (s : Slider) :
  addSlider cur now
    (mkData None (Some (centerFreq s)) (Some (width s)) (Some (gain s))
            (Some (label s)))
  = (with_id now s, cur ++ [with_id now s]).
Proof. reflexivity. Qed.

Lemma add_each_without_id (clock : nat -> Z) (saved : list Slider) :
  forall k start,
    fold_left
      (fun '(k, cur) sliderData =>
         (S k, snd (addSlider cur (clock k) sliderData)))
      (map (fun slider =>
              mkData None (Some (centerFreq slider))
                     (Some (width slider)) (Some (gain slider))
                     (Some (label slider))) saved)
      (k, start)
    = ((k + List.length saved)%nat,
       start ++ map (fun ks => with_id (clock (fst ks)) (snd ks))
                    (combine (seq k (List.length saved)) saved)).
Proof.
  induction saved as [| s saved IH]; intros k start;
    cbn [map fold_left List.length seq combine fst snd].
  - rewrite Nat.add_0_r, app_nil_r. reflexivity.
  - rewrite addSlider_record_without_id. cbn [snd]. rewrite IH.
    rewrite <- app_assoc. rewrite Nat.add_succ_r. reflexivity.
Qed.

(** The file written by [handleSaveSettings] has mode "generic", version
    "1.0" and one record per band, without id.  Fed one by one to
    [addSlider], each call seeing the list left by the one before, the
    records give the saved bands back in order with their centre, width,
    gain and label (a gain of 0 and an empty label included), each with
    the clock reading of its call as id. *)
Theorem handleSaveSettings_records_come_back_with_new_ids
  (clock : nat -> Z) (saved : list Slider) (isoNow : string) :
  BandSet.mode (handleSaveSettings saved isoNow) = "generic"%string
  /\ BandSet.version (handleSaveSettings saved isoNow) = "1.0"%string
  /\ exists loaded,
       BandSet.sliders (handleSaveSettings saved isoNow) = Some loaded
       /\ List.length loaded = List.length saved
       /\ Forall (fun record => opt_id record = None) loaded
       /\ add_each clock loaded []
          = map (fun ks => with_id (clock (fst ks)) (snd ks))
                (combine (seq 0 (List.length saved)) saved).
Proof.
  split; [reflexivity |]. split; [reflexivity |].
  eexists. split; [reflexivity |]. split; [apply length_map |]. split.
  - apply Forall_forall. intros record Hin.
    apply in_map_iff in Hin. destruct Hin as (s & <- & _). reflexivity.
  - unfold add_each. rewrite add_each_without_id. reflexivity.
Qed.

End GenericModeFacts.

(* ================================================================== *)
(** * The frequency graph: snapping, ranges, gains, ids *)
(* ================================================================== *)

Module FrequencyGraphFacts.

Import FrequencyGraph NumFacts.
Local Open Scope R_scope.

(** Decides the comparisons of reals met in the goal and lets [lra] finish:
    for goals about [Math_min], [Math_max] and comparisons of finite
    numbers. *)
Ltac decide_reals :=
  repeat match goal with
         | |- context [Rle_dec ?a ?b] => destruct (Rle_dec a b)
         | |- context [Rlt_dec ?a ?b] => destruct (Rlt_dec a b)
         | |- context [Req_dec_T ?a ?b] => destruct (Req_dec_T a b)
         end.

Ltac crunch :=
  cbn [Math_min Math_max num_leb num_ltb num_sub num_add num_neg fst snd];
  unfold Rle_b, Rlt_b;
  repeat (decide_reals;
          cbn [Math_min Math_max num_leb num_ltb num_sub num_add num_neg
               fst snd];
          unfold Rle_b, Rlt_b).

(** [snapToStep]: for a finite value and a step > 0 the result is a whole
    number of steps, at most half a step away from the value. *)
Theorem snapToStep_nearest_multiple (v step : R) :
  0 < step ->
  exists k : Z,
    snapToStep (Fin v) (Fin step) = Fin (IZR k * step)
    /\ - (step / 2) < IZR k * step - v <= step / 2.
Proof.
  intros Hstep. exists (Int_part (v / step + 1 / 2)). split.
  - unfold snapToStep. cbn [num_div]. rewrite Req_b_false by lra.
    reflexivity.
  - destruct (base_Int_part (v / step + 1 / 2)) as [H1 H2].
    set (k := IZR (Int_part (v / step + 1 / 2))) in *.
    assert (Hv : v / step * step = v) by (field; lra).
    split; nra.
Qed.

Lemma snapToStep_nearest_multiple_witness :
  exists k : Z,
    snapToStep (Fin 1234) (Fin 10) = Fin (IZR k * 10)
    /\ - (10 / 2) < IZR k * 10 - 1234 <= 10 / 2.
Proof. apply (@snapToStep_nearest_multiple 1234 10). lra. Defined.

(** The adjustment made when [safeMaxHz] changes: whatever the finite ends
    of a range were, the adjusted range lies in [0, safeMaxHz] and is at
    least [STEP_HZ] wide; a range that already was so is not changed. *)
Theorem adjust_range_fits (safeMax : num) (m a b : R) :
  wide_enough safeMax m ->
  exists a' b',
    adjust_range safeMax (Fin a) (Fin b) = (Fin a', Fin b')
    /\ 0 <= a' /\ b' <= m /\ 10 <= b' - a'
    /\ (0 <= a -> b <= m -> 10 <= b - a -> a' = a /\ b' = b).
Proof.
  intros [-> Hm]. unfold adjust_range, STEP_HZ. cbv zeta.
  crunch; do 2 eexists; (split; [reflexivity |]);
    repeat split; intros; lra.
Qed.

Lemma adjust_range_fits_witness :
  exists a' b',
    adjust_range (Fin 8000) (Fin 9000) (Fin 9500) = (Fin a', Fin b')
    /\ 0 <= a' /\ b' <= 8000 /\ 10 <= b' - a'
    /\ (0 <= 9000 -> 9500 <= 8000 -> 10 <= 9500 - 9000 ->
        a' = 9000 /\ b' = 9500).
Proof.
  apply (@adjust_range_fits (Fin 8000) 8000 9000 9500).
  split; [reflexivity | lra].
Defined.

Lemma snap_is_a_number (raw : num) :
  raw <> NaN -> snapToStep raw STEP_HZ <> NaN.
Proof.
  intros Hraw. unfold snapToStep, STEP_HZ.
  destruct raw as [r | | |]; [| | | contradiction].
  - cbn [num_div]. rewrite Req_b_false by lra. discriminate.
  - cbn [num_div]. rewrite Rle_b_true by lra.
    cbn [Math_round num_mul]. rewrite inf_times_pos by lra. discriminate.
  - cbn [num_div]. rewrite Rle_b_true by lra.
    cbn [Math_round num_mul]. rewrite inf_times_pos by lra. discriminate.
Qed.

(** Moving one end of a range with finite ends to a value that is a
    number: the range is at least [STEP_HZ] wide afterwards, a start that
    was at least 0 stays so, and an end that was at most [safeMaxHz] stays
    so. *)
Lemma move_end_gap (safeMax : num) (m : R) (field : string) (numeric : num)
  (a b : R) :
  wide_enough safeMax m ->
  numeric <> NaN ->
  exists a' b',
    move_end safeMax field numeric (Fin a) (Fin b) = (Fin a', Fin b')
    /\ 10 <= b' - a'
    /\ (0 <= a -> 0 <= a')
    /\ (b <= m -> b' <= m).
Proof.
  intros [-> Hm] Hnum. unfold move_end, STEP_HZ, num_gtb. cbv zeta.
  destruct (String.eqb field "startHz");
    destruct numeric as [r | | |]; try contradiction;
    crunch; do 2 eexists; (split; [reflexivity |]);
    repeat split; intros; lra.
Qed.

(** [handleDraftRangeChange]: after a change of either end of a draft with
    finite ends to a value that is a number, the draft is at least
    [STEP_HZ] wide, so that [canAddDraft] holds. *)
Theorem handleDraftRangeChange_keeps_draft_addable
  (safeMax : num) (m : R) (field : string) (raw : num) (a b : R) :
  wide_enough safeMax m ->
  raw <> NaN ->
  exists a' b',
    handleDraftRangeChange safeMax field raw (mkDraft (Fin a) (Fin b))
    = mkDraft (Fin a') (Fin b')
    /\ 10 <= b' - a'
    /\ (0 <= a -> 0 <= a')
    /\ (b <= m -> b' <= m)
    /\ canAddDraft
         (handleDraftRangeChange safeMax field raw (mkDraft (Fin a) (Fin b)))
       = true.
Proof.
  intros Hwide Hraw.
  destruct (@move_end_gap safeMax m field (snapToStep raw STEP_HZ) a b
              Hwide (snap_is_a_number Hraw))
    as (a' & b' & Hmove & Hgap & Ha & Hb).
  exists a', b'.
  assert (Heq : handleDraftRangeChange safeMax field raw
                  (mkDraft (Fin a) (Fin b))
                = mkDraft (Fin a') (Fin b')).
  { unfold handleDraftRangeChange. cbv zeta.
    cbn [draft_startHz draft_endHz]. rewrite Hmove. reflexivity. }
  split; [exact Heq |]. repeat (split; [assumption |]).
  rewrite Heq. unfold canAddDraft, STEP_HZ.
  cbn [draft_startHz draft_endHz num_sub num_neg num_add num_leb].
  apply Rle_b_true. lra.
Qed.

Lemma handleDraftRangeChange_keeps_draft_addable_witness :
  exists a' b',
    handleDraftRangeChange (Fin 8000) "startHz" (Fin 1497)
      (mkDraft (Fin 500) (Fin 1500))
    = mkDraft (Fin a') (Fin b')
    /\ 10 <= b' - a'
    /\ (0 <= 500 -> 0 <= a')
    /\ (1500 <= 8000 -> b' <= 8000)
    /\ canAddDraft
         (handleDraftRangeChange (Fin 8000) "startHz" (Fin 1497)
            (mkDraft (Fin 500) (Fin 1500)))
       = true.
Proof.
  apply (@handleDraftRangeChange_keeps_draft_addable
           (Fin 8000) 8000 "startHz"%string (Fin 1497) 500 1500).
  - split; [reflexivity | lra].
  - discriminate.
Defined.

(** [updateSliderRange]: the list keeps its length and its order; every
    slider keeps its id, gain and label; a slider with another id is not
    changed; a slider with the id and finite ends, moved to a value that is
    a number, is at least [STEP_HZ] wide afterwards, with a start that
    stays at least 0 and an end that stays at most [safeMaxHz]. *)
Theorem updateSliderRange_keeps_ranges_wide
  (safeMax : num) (m : R) (sliderId : Z) (field : string) (raw : num)
  (prev : list RangeSlider) :
  wide_enough safeMax m ->
  raw <> NaN ->
  List.length (updateSliderRange safeMax sliderId field raw prev)
  = List.length prev
  /\ forall k s,
       nth_error prev k = Some s ->
       exists s',
         nth_error (updateSliderRange safeMax sliderId field raw prev) k
         = Some s'
         /\ id s' = id s /\ gain s' = gain s /\ label s' = label s
         /\ (id s <> sliderId -> s' = s)
         /\ (id s = sliderId ->
             forall a b,
               startHz s = Fin a -> endHz s = Fin b ->
               exists a' b',
                 startHz s' = Fin a' /\ endHz s' = Fin b'
                 /\ 10 <= b' - a'
                 /\ (0 <= a -> 0 <= a')
                 /\ (b <= m -> b' <= m)).
Proof.
  intros Hwide Hraw. split; [apply length_map |].
  intros k s Hk. unfold updateSliderRange. cbv zeta.
  rewrite nth_error_map, Hk. cbn [option_map].
  eexists. split; [reflexivity |].
  destruct (Z.eqb_spec (id s) sliderId) as [Heq | Hne]; cbn [negb].
  - destruct (move_end safeMax field (snapToStep raw STEP_HZ)
                (startHz s) (endHz s)) as [a1 b1] eqn:Hmove.
    cbn [id gain label startHz endHz].
    split; [reflexivity |]. split; [reflexivity |]. split; [reflexivity |].
    split; [intros Hc; contradiction |].
    intros _ a b Ha Hb. rewrite Ha, Hb in Hmove.
    destruct (@move_end_gap safeMax m field (snapToStep raw STEP_HZ) a b
                Hwide (snap_is_a_number Hraw))
      as (a' & b' & Hmove' & Hgap & H0 & Hm).
    rewrite Hmove' in Hmove. injection Hmove as <- <-.
    exists a', b'. repeat split; assumption.
  - split; [reflexivity |]. split; [reflexivity |]. split; [reflexivity |].
    split; [reflexivity |]. intros Hc. contradiction.
Qed.

Lemma updateSliderRange_keeps_ranges_wide_witness :
  List.length
    (updateSliderRange (Fin 8000) 1 "endHz" (Fin 3)
       [mkRange 1 (Fin 500) (Fin 1500) (Fin 1) "Range 1"])
  = List.length [mkRange 1 (Fin 500) (Fin 1500) (Fin 1) "Range 1"]
  /\ forall k s,
       nth_error [mkRange 1 (Fin 500) (Fin 1500) (Fin 1) "Range 1"] k
       = Some s ->
       exists s',
         nth_error
           (updateSliderRange (Fin 8000) 1 "endHz" (Fin 3)
              [mkRange 1 (Fin 500) (Fin 1500) (Fin 1) "Range 1"]) k
         = Some s'
         /\ id s' = id s /\ gain s' = gain s /\ label s' = label s
         /\ (id s <> 1%Z -> s' = s)
         /\ (id s = 1%Z ->
             forall a b,
               startHz s = Fin a -> endHz s = Fin b ->
               exists a' b',
                 startHz s' = Fin a' /\ endHz s' = Fin b'
                 /\ 10 <= b' - a'
                 /\ (0 <= a -> 0 <= a')
                 /\ (b <= 8000 -> b' <= 8000)).
Proof.
  apply (@updateSliderRange_keeps_ranges_wide (Fin 8000) 8000 1%Z
           "endHz"%string (Fin 3)
           [mkRange 1 (Fin 500) (Fin 1500) (Fin 1) "Range 1"]).
  - split; [reflexivity | lra].
  - discriminate.
Defined.

(** [updateSliderGain]: the list keeps its length and its order; a slider
    with another id is not changed; a slider with the id keeps its id, ends
    and label, and its gain becomes the given number limited to [0, 2]:
    the number itself from 0 to 2, 0 for a number below 0 and for
    [-Infinity], 2 for a number above 2 and for [Infinity], and NaN for
    NaN. *)
Theorem updateSliderGain_limits_the_gain
  (sliderId : Z) (raw : num) (prev : list RangeSlider) :
  updateSliderGain sliderId raw prev
  = map (fun s =>
           if Z.eqb (id s) sliderId
           then mkRange (id s) (startHz s) (endHz s)
                  match raw with
                  | Fin r => Fin (Rmin 2 (Rmax 0 r))
                  | PInf => Fin 2
                  | NInf => Fin 0
                  | NaN => NaN
                  end
                  (label s)
           else s)
        prev
  /\ updateSliderGain 1 (Fin 5)
       [mkRange 1 (Fin 500) (Fin 1500) (Fin 1) "Range 1";
        mkRange 2 (Fin 100) (Fin 200) (Fin 1) "Range 2"]
     = [mkRange 1 (Fin 500) (Fin 1500) (Fin 2) "Range 1";
        mkRange 2 (Fin 100) (Fin 200) (Fin 1) "Range 2"]
  /\ updateSliderGain 1 (Fin (-1))
       [mkRange 1 (Fin 500) (Fin 1500) (Fin 1) "Range 1"]
     = [mkRange 1 (Fin 500) (Fin 1500) (Fin 0) "Range 1"].
Proof.
  assert (Hlimit : Math_min (Fin 2) (Math_max (Fin 0) raw)
                   = match raw with
                     | Fin r => Fin (Rmin 2 (Rmax 0 r))
                     | PInf => Fin 2
                     | NInf => Fin 0
                     | NaN => NaN
                     end).
  { destruct raw as [r | | |]; [| reflexivity | | reflexivity].
    - cbn [Math_max num_leb]. unfold Rle_b, Rmax.
      destruct (Rle_dec 0 r) as [H0 | H0]; cbn [Math_min num_leb];
        unfold Rle_b, Rmin.
      + destruct (Rle_dec 2 r) as [H2 | H2]; reflexivity.
      + destruct (Rle_dec 2 0) as [H2 | H2]; [lra | reflexivity].
    - cbn [Math_max num_leb Math_min]. rewrite Rle_b_false by lra.
      reflexivity. }
  split; [| split].
  - unfold updateSliderGain. cbv zeta. rewrite Hlimit. reflexivity.
  - unfold updateSliderGain. cbv zeta. cbn [map id Z.eqb Pos.eqb].
    cbn [Math_max num_leb]. rewrite Rle_b_true by lra.
    cbn [Math_min num_leb]. rewrite Rle_b_true by lra. reflexivity.
  - unfold updateSliderGain. cbv zeta. cbn [map id Z.eqb Pos.eqb].
    cbn [Math_max num_leb]. rewrite Rle_b_false by lra.
    cbn [Math_min num_leb]. rewrite Rle_b_false by lra. reflexivity.
Qed.

Lemma sorted_snoc (l : list Z) (b : Z) :
  StronglySorted Z.lt l -> (forall x, In x l -> (x < b)%Z) ->
  StronglySorted Z.lt (l ++ [b]).
Proof.
  induction 1 as [| a l Hl IH Ha]; intros Hb; cbn [app].
  - repeat constructor.
  - constructor.
    + apply IH. intros x Hx. apply Hb. right. assumption.
    + apply Forall_app. split; [assumption |].
      constructor; [| constructor]. apply Hb. left. reflexivity.
Qed.

Lemma sorted_last_max (l : list Z) (a : Z) :
  StronglySorted Z.lt (l ++ [a]) -> forall x, In x l -> (x < a)%Z.
Proof.
  induction l as [| y l IH]; intros Hs x Hx; [destruct Hx |].
  cbn [app] in Hs. inversion Hs as [| ? ? Hl Hy]; subst.
  destruct Hx as [<- | Hx].
  - rewrite Forall_forall in Hy. apply Hy. apply in_or_app. right.
    left. reflexivity.
  - apply IH; assumption.
Qed.

Lemma sorted_filter (p : Z -> bool) (l : list Z) :
  StronglySorted Z.lt l -> StronglySorted Z.lt (filter p l).
Proof.
  induction 1 as [| a l Hl IH Ha]; cbn [filter]; [constructor |].
  destruct (p a); [| assumption].
  constructor; [assumption |].
  rewrite Forall_forall in *. intros x Hx. apply Ha.
  apply filter_In in Hx. tauto.
Qed.

Lemma sorted_NoDup (l : list Z) : StronglySorted Z.lt l -> NoDup l.
Proof.
  induction 1 as [| a l Hl IH Ha]; constructor; [| assumption].
  intros Hin. rewrite Forall_forall in Ha. specialize (Ha a Hin). lia.
Qed.

Lemma map_id_filter (sliderId : Z) (l : list RangeSlider) :
  map id (removeSlider sliderId l)
  = filter (fun i => negb (Z.eqb i sliderId)) (map id l).
Proof.
  unfold removeSlider. induction l as [| s l IH]; [reflexivity |].
  cbn [filter map]. destruct (negb (Z.eqb (id s) sliderId)); cbn [map];
    rewrite IH; reflexivity.
Qed.

Section IdsOfTheGraph.

Variable Number_toString : Z -> string.

(** [addSliderFromDraft] appends one slider to the list: its ends are the
    ends of the draft in increasing order, its gain is 1, its id is 1 when
    the list of the render is empty and the id of the last slider of that
    list plus 1 otherwise, and its label is [Range] followed by the id.  So,
    when the update is applied to the list of the render and the ids of
    that list increase strictly, they still do afterwards and are pairwise
    distinct; when the handler runs twice with the list of one render, the
    two sliders get the same id.  Removing a slider keeps increasing ids
    increasing; moving an end, changing a gain or a label and the
    adjustment to [safeMaxHz] leave every id where it was. *)
Theorem range_slider_ids_stay_distinct
  (sliderList prev : list RangeSlider) (draft draft' : DraftRange)
  (safeMax : num) (sliderId : Z) (field value : string) (raw : num) :
  StronglySorted Z.lt (map id prev) ->
  (exists new,
     addSliderFromDraft Number_toString sliderList draft prev
     = prev ++ [new]
     /\ (startHz new, endHz new)
        = normalizeRange (draft_startHz draft) (draft_endHz draft)
     /\ gain new = Fin 1
     /\ label new = ("Range " ++ Number_toString (id new))%string
     /\ (sliderList = [] -> id new = 1%Z)
     /\ (forall l last, sliderList = l ++ [last] ->
           id new = (id last + 1)%Z)
     /\ map id
          (addSliderFromDraft Number_toString sliderList draft'
             (addSliderFromDraft Number_toString sliderList draft prev))
        = map id prev ++ [id new; id new])
  /\ StronglySorted Z.lt
       (map id (addSliderFromDraft Number_toString prev draft prev))
  /\ NoDup (map id (addSliderFromDraft Number_toString prev draft prev))
  /\ StronglySorted Z.lt (map id (removeSlider sliderId prev))
  /\ map id (updateSliderRange safeMax sliderId field raw prev) = map id prev
  /\ map id (updateSliderGain sliderId raw prev) = map id prev
  /\ map id (updateSliderLabel sliderId value prev) = map id prev
  /\ map id (adjust_sliders safeMax prev) = map id prev.
Proof.
  intros Hsorted.
  assert (Hadd : StronglySorted Z.lt
                   (map id (addSliderFromDraft Number_toString prev draft
                              prev))).
  { unfold addSliderFromDraft.
    destruct (normalizeRange _ _) as [start end_].
    rewrite map_app. cbn [map id].
    apply sorted_snoc; [assumption |].
    intros x Hx.
    destruct prev as [| s0 prev0] using rev_ind; [destruct Hx |].
    rewrite rev_app_distr. cbn [rev app].
    rewrite map_app in Hx, Hsorted. cbn [map] in Hx, Hsorted.
    apply in_app_or in Hx. destruct Hx as [Hx | [<- | []]].
    - pose proof (sorted_last_max _ _ Hsorted x Hx). lia.
    - lia. }
  split.
  { unfold addSliderFromDraft.
    destruct (normalizeRange (draft_startHz draft) (draft_endHz draft))
      as [start end_].
    destruct (normalizeRange (draft_startHz draft') (draft_endHz draft'))
      as [start' end'].
    eexists. split; [reflexivity |].
    cbn [startHz endHz gain label id].
    split; [reflexivity |]. split; [reflexivity |].
    split; [reflexivity |]. split.
    { intros ->. reflexivity. }
    split.
    { intros l last ->. rewrite rev_app_distr. reflexivity. }
    rewrite !map_app. cbn [map id]. rewrite <- app_assoc. reflexivity. }
  split; [exact Hadd |]. split; [apply sorted_NoDup; exact Hadd |].
  split.
  { rewrite map_id_filter. apply sorted_filter. assumption. }
  split.
  { unfold updateSliderRange. cbv zeta. rewrite map_map.
    apply map_ext. intros s.
    destruct (negb (Z.eqb (id s) sliderId)); [reflexivity |].
    destruct (move_end _ _ _ _ _). reflexivity. }
  split.
  { unfold updateSliderGain. cbv zeta. rewrite map_map.
    apply map_ext. intros s.
    destruct (Z.eqb (id s) sliderId); reflexivity. }
  split.
  { unfold updateSliderLabel. rewrite map_map.
    apply map_ext. intros s.
    destruct (Z.eqb (id s) sliderId); reflexivity. }
  unfold adjust_sliders. rewrite map_map.
  apply map_ext. intros s.
  destruct (adjust_range _ _ _). reflexivity.
Qed.

End IdsOfTheGraph.

(** One slider with id 1 in the list of the render and in the list
    updated: the slider added from the draft 2000 .. 1800 has id 2 and the
    ends 1800 and 2000. *)
Lemma range_slider_ids_stay_distinct_witness :
  addSliderFromDraft (fun _ => "2"%string)
    [mkRange 1 (Fin 500) (Fin 1500) (Fin 1) "Range 1"]
    (mkDraft (Fin 2000) (Fin 1800))
    [mkRange 1 (Fin 500) (Fin 1500) (Fin 1) "Range 1"]
  = [mkRange 1 (Fin 500) (Fin 1500) (Fin 1) "Range 1";
     mkRange 2 (Fin 1800) (Fin 2000) (Fin 1) "Range 2"]
  /\ NoDup
       (map id
          (addSliderFromDraft (fun _ => "2"%string)
             [mkRange 1 (Fin 500) (Fin 1500) (Fin 1) "Range 1"]
             (mkDraft (Fin 2000) (Fin 1800))
             [mkRange 1 (Fin 500) (Fin 1500) (Fin 1) "Range 1"]))
  /\ map id
       (addSliderFromDraft (fun _ => "2"%string)
          [mkRange 1 (Fin 500) (Fin 1500) (Fin 1) "Range 1"]
          (mkDraft (Fin 100) (Fin 200))
          (addSliderFromDraft (fun _ => "2"%string)
             [mkRange 1 (Fin 500) (Fin 1500) (Fin 1) "Range 1"]
             (mkDraft (Fin 2000) (Fin 1800))
             [mkRange 1 (Fin 500) (Fin 1500) (Fin 1) "Range 1"]))
     = [1%Z; 2%Z; 2%Z].
Proof.
  destruct (@range_slider_ids_stay_distinct (fun _ => "2"%string)
              [mkRange 1 (Fin 500) (Fin 1500) (Fin 1) "Range 1"]
              [mkRange 1 (Fin 500) (Fin 1500) (Fin 1) "Range 1"]
              (mkDraft (Fin 2000) (Fin 1800)) (mkDraft (Fin 100) (Fin 200))
              (Fin 8000) 1%Z "endHz"%string "Low"%string (Fin 3))
    as ((new & Hrun & Hends & Hgain & Hlabel & _ & Hid & Htwice)
        & _ & Hnodup & _).
  { repeat constructor. }
  specialize (Hid [] (mkRange 1 (Fin 500) (Fin 1500) (Fin 1) "Range 1")
                eq_refl).
  cbn [id] in Hid.
  assert (Hnorm : normalizeRange (Fin 2000) (Fin 1800)
                  = (Fin 1800, Fin 2000)).
  { unfold normalizeRange. cbn [num_leb]. rewrite Rle_b_false by lra.
    reflexivity. }
  cbn [draft_startHz draft_endHz] in Hends. rewrite Hnorm in Hends.
  injection Hends as Hstart Hend.
  rewrite Hid in Htwice. cbv beta in Hlabel.
  assert (Hnew : new = mkRange 2 (Fin 1800) (Fin 2000) (Fin 1) "Range 2").
  { destruct new as [i a b g l]. cbn [id startHz endHz gain label] in *.
    subst. reflexivity. }
  split; [rewrite Hrun, Hnew; reflexivity |].
  split; [exact Hnodup | exact Htwice].
Defined.





End FrequencyGraphFacts.

(* ================================================================== *)
(** * The synthetic signal stays within full scale *)
(* ================================================================== *)

Module SyntheticSignalFacts.

Import SyntheticSignal NumFacts.
Local Open Scope R_scope.

Lemma combine_seq_repeat {A B} (F : nat -> B) (z : A) (n : nat) :
  forall lo,
    map (fun ix : nat * A => F (fst ix)) (combine (seq lo n) (repeat z n))
    = map F (seq lo n).
Proof.
  induction n as [| n IH]; intros lo; [reflexivity |].
  cbn [seq repeat combine map fst]. rewrite IH. reflexivity.
Qed.

Lemma generateSignal_map (g : Generator) :
  generateSignal g
  = map (sample_at g) (seq 0 (duration g * sampleRate g)).
Proof.
  unfold generateSignal, JsArray.for_range, JsArray.fill, Preview.typed_set.
  set (n := (duration g * sampleRate g)%nat).
  pose proof (@AudioContent.fold_update_each num
                (fun i _ => sample_at g i) (repeat (Fin 0) n) []) as H.
  rewrite repeat_length in H. cbn [List.length app] in H.
  rewrite H. apply (@combine_seq_repeat num num (sample_at g) (Fin 0) n 0).
Qed.

Lemma sine_term (a f t : R) :
  num_mul (Fin a)
    (Math_sin (num_mul (num_mul (num_mul (Fin 2) Math_PI) (Fin f)) (Fin t)))
  = Fin (a * sin (2 * PI * f * t))
  /\ Rabs (a * sin (2 * PI * f * t)) <= Rabs a.
Proof.
  split; [reflexivity |].
  rewrite Rabs_mult.
  assert (Hs : Rabs (sin (2 * PI * f * t)) <= 1).
  { apply Rabs_le. pose proof (SIN_bound (2 * PI * f * t)). lra. }
  pose proof (Rabs_pos a). nra.
Qed.

(** The sum of the sine waves: a finite number, within the sum of the
    absolute amplitudes of the value it started from. *)
Lemma sum_of_sines (t : R) (fs : list R) :
  forall (rest pre : list R) (acc : R),
    List.length rest = List.length fs ->
    exists s,
      fold_left
        (fun sample index_freq =>
           num_add sample
             (num_mul
                (JsArray.get (map Fin (pre ++ rest)) (fst index_freq))
                (Math_sin
                   (num_mul
                      (num_mul (num_mul (Fin 2) Math_PI) (snd index_freq))
                      (Fin t)))))
        (combine (seq (List.length pre) (List.length fs)) (map Fin fs))
        (Fin acc)
      = Fin s
      /\ Rabs (s - acc) <= sum_abs rest.
Proof.
  induction fs as [| f fs IH]; intros rest pre acc Hlen.
  - exists acc. split; [reflexivity |].
    destruct rest; [| discriminate]. cbn [sum_abs fold_right].
    replace (acc - acc) with 0 by ring. rewrite Rabs_R0. lra.
  - destruct rest as [| a rest]; [discriminate |].
    injection Hlen as Hlen.
    cbn [List.length seq map combine fold_left fst snd].
    assert (Hget : JsArray.get (map Fin (pre ++ a :: rest))
                     (List.length pre) = Fin a).
    { unfold JsArray.get. rewrite nth_error_map.
      rewrite nth_error_app2 by lia. rewrite Nat.sub_diag. reflexivity. }
    rewrite Hget.
    destruct (sine_term a f t) as [-> Hterm]. cbn [num_add].
    specialize (IH rest (pre ++ [a]) (acc + a * sin (2 * PI * f * t)) Hlen).
    rewrite <- app_assoc in IH. cbn [app] in IH.
    rewrite length_app in IH. cbn [List.length] in IH.
    rewrite Nat.add_1_r in IH.
    destruct IH as (s & Hs & Hbound).
    exists s. split; [exact Hs |].
    cbn [sum_abs fold_right]. fold (sum_abs rest).
    replace (s - acc)
      with ((s - (acc + a * sin (2 * PI * f * t)))
            + a * sin (2 * PI * f * t)) by ring.
    pose proof (Rabs_triang (s - (acc + a * sin (2 * PI * f * t)))
                  (a * sin (2 * PI * f * t))).
    lra.
Qed.

(** [generateSignal]: for a generator with finite frequencies, one finite
    amplitude per frequency, at least one frequency and a sample rate above
    0, the signal has [duration * sampleRate] samples, and every sample is
    a finite number whose absolute value is at most the sum of the absolute
    amplitudes divided by the number of frequencies. *)
Theorem generateSignal_samples_are_bounded
  (g : Generator) (fs amps : list R) :
  frequencies g = map Fin fs ->
  amplitudes g = map Fin amps ->
  List.length amps = List.length fs ->
  (0 < List.length fs)%nat ->
  (0 < sampleRate g)%nat ->
  List.length (generateSignal g) = (duration g * sampleRate g)%nat
  /\ forall i,
       (i < duration g * sampleRate g)%nat ->
       exists s,
         nth_error (generateSignal g) i = Some (Fin s)
         /\ Rabs s <= sum_abs amps / INR (List.length fs).
Proof.
  intros Hf Ha Hlen Hn Hrate.
  rewrite generateSignal_map. split.
  - rewrite length_map, length_seq. reflexivity.
  - intros i Hi. rewrite nth_error_map, nth_error_seq.
    destruct (Nat.ltb_spec i (duration g * sampleRate g)) as [_ | Hge];
      [| lia].
    cbn [option_map Nat.add]. unfold sample_at. cbv zeta.
    rewrite Hf, Ha, length_map.
    assert (Hr : INR (sampleRate g) <> 0) by (apply not_0_INR; lia).
    assert (Hn' : 0 < INR (List.length fs)) by (apply lt_0_INR; assumption).
    cbn [num_div]. rewrite (@Req_b_false (INR (sampleRate g)) 0) by exact Hr.
    destruct (@sum_of_sines (INR i / INR (sampleRate g)) fs amps [] 0 Hlen)
      as (s & Hs & Hbound).
    cbn [List.length app] in Hs. rewrite Hs.
    cbn [num_div]. rewrite Req_b_false by lra.
    eexists. split; [reflexivity |].
    replace (s - 0) with s in Hbound by ring.
    unfold Rdiv. rewrite Rabs_mult.
    rewrite (Rabs_right (/ INR (List.length fs))).
    + apply Rmult_le_compat_r; [| assumption].
      apply Rlt_le. apply Rinv_0_lt_compat. assumption.
    + apply Rle_ge. apply Rlt_le. apply Rinv_0_lt_compat. assumption.
Qed.

Lemma generateSignal_samples_are_bounded_witness :
  List.length (generateSignal newGenerator)
  = (duration newGenerator * sampleRate newGenerator)%nat
  /\ forall i,
       (i < duration newGenerator * sampleRate newGenerator)%nat ->
       exists s,
         nth_error (generateSignal newGenerator) i = Some (Fin s)
         /\ Rabs s
            <= sum_abs [3 / 10; 5 / 10; 4 / 10; 6 / 10; 8 / 10; 5 / 10;
                        4 / 10; 3 / 10; 2 / 10]
               / INR (List.length
                        [50; 100; 250; 500; 1000; 2000; 4000; 8000; 12000]).
Proof.
  apply (@generateSignal_samples_are_bounded newGenerator
           [50; 100; 250; 500; 1000; 2000; 4000; 8000; 12000]
           [3 / 10; 5 / 10; 4 / 10; 6 / 10; 8 / 10; 5 / 10; 4 / 10; 3 / 10;
            2 / 10]).
  - reflexivity.
  - reflexivity.
  - reflexivity.
  - simpl. lia.
  - unfold newGenerator, sampleRate. apply Nat.lt_0_succ || lia.
Defined.

End SyntheticSignalFacts.

(* ================================================================== *)
(** * The layout of the WAV file *)
(* ================================================================== *)

Module WavFacts.

Import Wav NumFacts.
Local Open Scope Z_scope.

Lemma skipn_repeat {A} (z : A) (k m : nat) :
  skipn k (repeat z m) = repeat z (m - k).
Proof.
  revert m. induction k as [| k IH]; intros m.
  - rewrite Nat.sub_0_r. reflexivity.
  - destruct m as [| m]; [reflexivity |]. cbn [skipn repeat Nat.sub].
    apply IH.
Qed.

(** A write just after the part already written, the rest being zeros. *)
Lemma store_next (pre bs : list Z) (m off : nat) :
  off = List.length pre ->
  (List.length bs <= m)%nat ->
  store (pre ++ repeat 0 m) off bs
  = Some ((pre ++ bs) ++ repeat 0 (m - List.length bs)).
Proof.
  intros -> Hle. unfold store.
  rewrite length_app, repeat_length.
  destruct (Nat.leb_spec (List.length pre + List.length bs)
              (List.length pre + m)) as [_ | Hgt]; [| lia].
  rewrite firstn_app, Nat.sub_diag, firstn_all. cbn [firstn].
  rewrite app_nil_r.
  rewrite skipn_app, skipn_all2 by lia.
  replace (List.length pre + List.length bs - List.length pre)%nat
    with (List.length bs) by lia.
  rewrite skipn_repeat. cbn [app]. rewrite <- app_assoc. reflexivity.
Qed.

Lemma le_bytes_2 (v : Z) : le_bytes 2 v = [v mod 256; (v / 256) mod 256].
Proof.
  unfold le_bytes. cbn [seq map]. rewrite Z.pow_0_r, Z.div_1_r.
  reflexivity.
Qed.

Lemma le_bytes_4 (v : Z) :
  le_bytes 4 v
  = [v mod 256; (v / 256) mod 256; (v / 65536) mod 256;
     (v / 16777216) mod 256].
Proof.
  unfold le_bytes. cbn [seq map]. rewrite Z.pow_0_r, Z.div_1_r.
  reflexivity.
Qed.

Lemma le_value_2 (v : Z) : le_value (le_bytes 2 v) = v mod 65536.
Proof.
  rewrite le_bytes_2. cbn [le_value].
  change 65536 with (256 * 256).
  rewrite Z.rem_mul_r by lia. lia.
Qed.

Lemma le_value_4 (v : Z) : le_value (le_bytes 4 v) = v mod 4294967296.
Proof.
  rewrite le_bytes_4. cbn [le_value].
  change 4294967296 with (256 * (256 * (256 * 256))).
  rewrite (Z.rem_mul_r v 256 (256 * (256 * 256))) by lia.
  rewrite (Z.rem_mul_r (v / 256) 256 (256 * 256)) by lia.
  rewrite (Z.rem_mul_r (v / 256 / 256) 256 256) by lia.
  rewrite !Z.div_div by lia.
  change (256 * 256) with 65536. change (65536 * 256) with 16777216.
  lia.
Qed.

Lemma write_samples_next (audioData : list num) :
  forall (pre : list Z) (m off : nat),
    off = List.length pre ->
    (List.length audioData * 2 <= m)%nat ->
    write_samples (pre ++ repeat 0 m) off audioData
    = Some ((pre ++ flat_map sample_bytes audioData)
            ++ repeat 0 (m - List.length audioData * 2)).
Proof.
  induction audioData as [| x rest IH]; intros pre m off Hoff Hm.
  - cbn [write_samples flat_map List.length Nat.mul].
    rewrite app_nil_r, Nat.sub_0_r. reflexivity.
  - cbn [write_samples flat_map]. unfold setInt16.
    cbn [List.length Nat.mul] in Hm.
    rewrite store_next by (rewrite ?le_bytes_2; cbn [List.length]; lia).
    cbn [and_then].
    rewrite (IH (pre ++ le_bytes 2 (ToInt16 (scaled_sample x)))
               (m - List.length (le_bytes 2 (ToInt16 (scaled_sample x))))%nat
               (off + 2)%nat).
    + unfold sample_bytes. rewrite <- !app_assoc.
      rewrite le_bytes_2. cbn [List.length].
      replace (m - 2 - List.length rest * 2)%nat
        with (m - S (List.length rest) * 2)%nat by lia.
      reflexivity.
    + rewrite length_app, le_bytes_2. cbn [List.length]. lia.
    + rewrite le_bytes_2. cbn [List.length]. lia.
Qed.

Lemma header_length (n rate : Z) : List.length (header n rate) = 44%nat.
Proof. unfold header. rewrite !length_app. reflexivity. Qed.

Ltac next_store :=
  rewrite store_next by
      (rewrite ?le_bytes_2, ?le_bytes_4; cbn [List.length app]; lia);
  cbn [and_then fold_left fst].

(** The buffer built by [createWavBuffer]: the header, then the samples. *)
Lemma createWavBuffer_bytes (audioData : list num) (sampleRate : nat) :
  createWavBuffer audioData sampleRate
  = Some (header (Z.of_nat (List.length audioData)) (Z.of_nat sampleRate)
          ++ flat_map sample_bytes audioData).
Proof.
  unfold createWavBuffer. cbv zeta.
  set (n := Z.of_nat (List.length audioData)).
  set (rate := Z.of_nat sampleRate).
  change (repeat 0 (44 + List.length audioData * 2))
    with ([] ++ repeat 0 (44 + List.length audioData * 2)).
  unfold writeString, setUint8, setUint16, setUint32.
  cbn [charCodes list_ascii_of_string map fold_left fst and_then].
  repeat next_store.
  rewrite write_samples_next.
  - f_equal.
    rewrite ?le_bytes_2, ?le_bytes_4. cbn [List.length].
    replace (44 + List.length audioData * 2 - 1 - 1 - 1 - 1 - 4 - 1 - 1 - 1
             - 1 - 1 - 1 - 1 - 1 - 4 - 2 - 2 - 4 - 4 - 2 - 2 - 1 - 1 - 1 - 1
             - 4 - List.length audioData * 2)%nat with 0%nat by lia.
    cbn [repeat]. rewrite app_nil_r.
    unfold header. rewrite ?le_bytes_2, ?le_bytes_4.
    cbn [charCodes list_ascii_of_string map app].
    reflexivity.
  - rewrite ?le_bytes_2, ?le_bytes_4. cbn [List.length app]. lia.
  - rewrite ?le_bytes_2, ?le_bytes_4. cbn [List.length]. lia.
Qed.

Lemma Int_part_bounds (r : R) (lo hi : Z) :
  (IZR lo <= r)%R -> (r <= IZR hi)%R -> lo <= Int_part r <= hi.
Proof.
  intros Hlo Hhi.
  destruct (base_Int_part r) as [H1 H2].
  split.
  - assert (H : lo < Int_part r + 1); [| lia].
    apply lt_IZR. rewrite plus_IZR. lra.
  - apply le_IZR. lra.
Qed.

Lemma truncate_IZR (z : Z) : truncate (IZR z) = z.
Proof.
  unfold truncate. destruct (Rle_dec 0 (IZR z)) as [H | H].
  - pose proof (@Int_part_bounds (IZR z) z z) as B.
    specialize (B ltac:(lra) ltac:(lra)). lia.
  - rewrite <- opp_IZR.
    pose proof (@Int_part_bounds (IZR (- z)) (- z) (- z)) as B.
    specialize (B ltac:(lra) ltac:(lra)). lia.
Qed.

Lemma truncate_bounds (r : R) (lo hi : Z) :
  lo <= 0 <= hi -> (IZR lo <= r)%R -> (r <= IZR hi)%R ->
  lo <= truncate r <= hi.
Proof.
  intros [Hl Hh] Hlo Hhi. unfold truncate.
  destruct (Rle_dec 0 r) as [H | H].
  - pose proof (@Int_part_bounds r 0 hi H Hhi). lia.
  - assert (B : 0 <= Int_part (- r) <= - lo).
    { apply Int_part_bounds; [lra | rewrite opp_IZR; lra]. }
    lia.
Qed.

(** The clamped sample of lines 136 to 139, for a finite sample. *)
Lemma scaled_sample_Fin (r : R) :
  scaled_sample (Fin r)
  = Fin (if Rle_dec 1 r then 32767
         else if Rlt_dec r (-1) then -32768
         else if Rlt_dec r 0 then r * 32768 else r * 32767)%R.
Proof.
  unfold scaled_sample. cbv zeta.
  cbn [Math_min num_leb].
  destruct (Rle_dec 1 r) as [H1 | H1].
  - rewrite Rle_b_true by lra.
    cbn [Math_max num_leb]. rewrite Rle_b_true by lra.
    cbn [num_ltb]. rewrite Rlt_b_false by lra.
    cbn [num_mul]. f_equal. lra.
  - rewrite Rle_b_false by lra.
    cbn [Math_max num_leb].
    destruct (Rlt_dec r (-1)) as [H2 | H2].
    + rewrite Rle_b_false by lra. cbn [num_ltb].
      rewrite Rlt_b_true by lra. cbn [num_mul]. f_equal. lra.
    + rewrite Rle_b_true by lra. cbn [num_ltb].
      destruct (Rlt_dec r 0) as [H3 | H3].
      * rewrite Rlt_b_true by lra. reflexivity.
      * rewrite Rlt_b_false by lra. reflexivity.
Qed.

Lemma scaled_sample_PInf : scaled_sample PInf = Fin (1 * 32767).
Proof.
  unfold scaled_sample. cbv zeta. cbn [Math_min num_leb].
  cbn [Math_max num_leb]. rewrite Rle_b_true by lra.
  cbn [num_ltb]. rewrite Rlt_b_false by lra. reflexivity.
Qed.

Lemma scaled_sample_NInf : scaled_sample NInf = Fin (-1 * 32768).
Proof.
  unfold scaled_sample. cbv zeta. cbn [Math_min num_leb].
  cbn [Math_max num_leb].
  cbn [num_ltb]. rewrite Rlt_b_true by lra. reflexivity.
Qed.

(** The value handed to [setInt16] is NaN or within the 16-bit range. *)
Lemma scaled_sample_cases (x : num) :
  scaled_sample x = NaN
  \/ exists s : R,
       scaled_sample x = Fin s /\ (-32768 <= s)%R /\ (s <= 32767)%R.
Proof.
  destruct x as [r | | |].
  - right. rewrite scaled_sample_Fin. eexists. split; [reflexivity |].
    destruct (Rle_dec 1 r); [lra |].
    destruct (Rlt_dec r (-1)); [lra |].
    destruct (Rlt_dec r 0); split; nra.
  - right. rewrite scaled_sample_PInf. eexists. split; [reflexivity | lra].
  - right. rewrite scaled_sample_NInf. eexists. split; [reflexivity | lra].
  - left. reflexivity.
Qed.

Lemma pcm_range (x : num) : -32768 <= pcm x <= 32767.
Proof.
  unfold pcm.
  destruct (scaled_sample_cases x) as [-> | (s & -> & Hlo & Hhi)]; [lia |].
  apply truncate_bounds; [lia | lra | lra].
Qed.

Lemma ToInt16_pcm (x : num) : ToInt16 (scaled_sample x) = pcm x mod 65536.
Proof.
  unfold pcm, ToInt16. destruct (scaled_sample x); reflexivity.
Qed.

Lemma signed_16 (v : Z) :
  -32768 <= v <= 32767 ->
  (if v mod 65536 <? 32768 then v mod 65536 else v mod 65536 - 65536) = v.
Proof.
  intros Hv.
  destruct (Z_lt_le_dec v 0) as [Hneg | Hpos].
  - replace (v mod 65536) with (v + 65536).
    + destruct (Z.ltb_spec (v + 65536) 32768); lia.
    + apply Z.mod_unique with (q := -1); lia.
  - rewrite Z.mod_small by lia.
    destruct (Z.ltb_spec v 32768); lia.
Qed.

Lemma sample_bytes_length (x : num) : List.length (sample_bytes x) = 2%nat.
Proof. unfold sample_bytes. rewrite le_bytes_2. reflexivity. Qed.

Lemma sample_bytes_at (audioData : list num) :
  forall (i : nat) (x : num),
    nth_error audioData i = Some x ->
    firstn 2 (skipn (i * 2) (flat_map sample_bytes audioData))
    = sample_bytes x.
Proof.
  induction audioData as [| y rest IH]; intros [| i] x Hx;
    try discriminate.
  - cbn [nth_error] in Hx. injection Hx as ->.
    cbn [Nat.mul skipn flat_map].
    rewrite firstn_app, sample_bytes_length, Nat.sub_diag, firstn_O.
    rewrite app_nil_r. apply firstn_all2. rewrite sample_bytes_length. lia.
  - cbn [nth_error] in Hx. cbn [flat_map].
    replace (S i * 2)%nat with (List.length (sample_bytes y) + i * 2)%nat
      by (rewrite sample_bytes_length; lia).
    rewrite skipn_app.
    rewrite skipn_all2 by lia. cbn [app].
    replace (List.length (sample_bytes y) + i * 2
             - List.length (sample_bytes y))%nat with (i * 2)%nat by lia.
    apply IH. exact Hx.
Qed.

Lemma getInt16_sample (audioData : list num) (n rate : Z) (i : nat)
      (x : num) :
  nth_error audioData i = Some x ->
  getInt16 (header n rate ++ flat_map sample_bytes audioData) (44 + i * 2)
  = pcm x.
Proof.
  intros Hx. unfold getInt16, getUint. cbv zeta.
  rewrite skipn_app, header_length.
  rewrite skipn_all2 by (rewrite header_length; lia). cbn [app].
  replace (44 + i * 2 - 44)%nat with (i * 2)%nat by lia.
  rewrite (@sample_bytes_at audioData i x Hx).
  unfold sample_bytes. rewrite le_value_2, ToInt16_pcm, Z.mod_mod by lia.
  apply signed_16, pcm_range.
Qed.

Lemma getUint_at (pre bs post : list Z) (size off : nat) :
  off = List.length pre -> size = List.length bs ->
  getUint size (pre ++ bs ++ post) off = le_value bs.
Proof.
  intros -> ->. unfold getUint.
  rewrite skipn_app, skipn_all, Nat.sub_diag. cbn [skipn app].
  rewrite firstn_app, firstn_all, Nat.sub_diag, firstn_O, app_nil_r.
  reflexivity.
Qed.

Tactic Notation "header_field" integer(k) :=
  unfold header; rewrite <- !app_assoc; do k rewrite app_assoc;
  rewrite getUint_at by (rewrite ?length_app; reflexivity);
  rewrite ?le_value_4, ?le_value_2, ?Z.mod_mod by lia;
  try reflexivity.

Lemma header_fields (n rate : Z) (samples : list Z) :
  getUint 4 (header n rate ++ samples) 4 = (36 + n * 2) mod 4294967296
  /\ getUint 4 (header n rate ++ samples) 16 = 16
  /\ getUint 2 (header n rate ++ samples) 20 = 1
  /\ getUint 2 (header n rate ++ samples) 22 = 1
  /\ getUint 4 (header n rate ++ samples) 24 = rate mod 4294967296
  /\ getUint 4 (header n rate ++ samples) 28 = (rate * 2) mod 4294967296
  /\ getUint 2 (header n rate ++ samples) 32 = 2
  /\ getUint 2 (header n rate ++ samples) 34 = 16
  /\ getUint 4 (header n rate ++ samples) 40 = (n * 2) mod 4294967296.
Proof.
  repeat match goal with |- _ /\ _ => split end.
  - header_field 0.
  - header_field 3.
  - header_field 4.
  - header_field 5.
  - header_field 6.
  - header_field 7.
  - header_field 8.
  - header_field 9.
  - header_field 11.
Qed.

Lemma header_tags (n rate : Z) (samples : list Z) :
  firstn 4 (header n rate ++ samples) = charCodes "RIFF"
  /\ firstn 8 (skipn 8 (header n rate ++ samples)) = charCodes "WAVEfmt "
  /\ firstn 4 (skipn 36 (header n rate ++ samples)) = charCodes "data".
Proof.
  unfold header. rewrite !le_bytes_2, !le_bytes_4.
  cbn [charCodes list_ascii_of_string map app skipn firstn].
  repeat split.
Qed.

Lemma pcm_high (x : num) : num_leb (Fin 1) x = true -> pcm x = 32767.
Proof.
  unfold pcm. destruct x as [r | | |]; cbn [num_leb]; try discriminate.
  - unfold Rle_b. destruct (Rle_dec 1 r) as [H | H]; [| discriminate].
    intros _. rewrite scaled_sample_Fin.
    destruct (Rle_dec 1 r); [| contradiction].
    apply truncate_IZR.
  - intros _. rewrite scaled_sample_PInf.
    replace (1 * 32767)%R with 32767%R by lra. apply truncate_IZR.
Qed.

Lemma pcm_low (x : num) : num_leb x (Fin (-1)) = true -> pcm x = -32768.
Proof.
  unfold pcm. destruct x as [r | | |]; cbn [num_leb]; try discriminate.
  - unfold Rle_b. destruct (Rle_dec r (-1)) as [H | H]; [| discriminate].
    intros _. rewrite scaled_sample_Fin.
    destruct (Rle_dec 1 r); [lra |].
    destruct (Rlt_dec r (-1)) as [H2 | H2]; [apply truncate_IZR |].
    destruct (Rlt_dec r 0); [| lra].
    replace (r * 32768)%R with (-32768)%R by lra. apply truncate_IZR.
  - intros _. rewrite scaled_sample_NInf.
    replace (-1 * 32768)%R with (-32768)%R by lra. apply truncate_IZR.
Qed.

(** X22.  [createWavBuffer] returns a buffer of 44 bytes plus two for each
    sample.  It starts with the tags RIFF, WAVE, fmt and data at bytes 0, 8,
    12 and 36, and as long as the sizes fit in 32 bits its little-endian
    fields read back as: the file size less 8 at byte 4, the format header
    size 16 at 16, the format 1 at 20, one channel at 22, the sample rate
    at 24, the byte rate (twice the sample rate) at 28, the block size 2 at
    32, 16 bits a sample at 34 and the size of the samples at 40. *)
Theorem createWavBuffer_header (audioData : list num) (sampleRate : nat) :
  36 + Z.of_nat (List.length audioData) * 2 < 4294967296 ->
  Z.of_nat sampleRate * 2 < 4294967296 ->
  exists buf : Bytes,
    createWavBuffer audioData sampleRate = Some buf
    /\ List.length buf = (44 + List.length audioData * 2)%nat
    /\ firstn 4 buf = charCodes "RIFF"
    /\ firstn 8 (skipn 8 buf) = charCodes "WAVEfmt "
    /\ firstn 4 (skipn 36 buf) = charCodes "data"
    /\ getUint 4 buf 4 = 36 + Z.of_nat (List.length audioData) * 2
    /\ getUint 4 buf 16 = 16
    /\ getUint 2 buf 20 = 1
    /\ getUint 2 buf 22 = 1
    /\ getUint 4 buf 24 = Z.of_nat sampleRate
    /\ getUint 4 buf 28 = Z.of_nat sampleRate * 2
    /\ getUint 2 buf 32 = 2
    /\ getUint 2 buf 34 = 16
    /\ getUint 4 buf 40 = Z.of_nat (List.length audioData) * 2.
Proof.
  intros Hsize Hrate.
  eexists. split; [apply createWavBuffer_bytes |].
  set (n := Z.of_nat (List.length audioData)) in *.
  set (rate := Z.of_nat sampleRate) in *.
  assert (Hn : 0 <= n) by apply Nat2Z.is_nonneg.
  assert (Hr : 0 <= rate) by apply Nat2Z.is_nonneg.
  destruct (header_fields n rate (flat_map sample_bytes audioData))
    as (F4 & F16 & F20 & F22 & F24 & F28 & F32 & F34 & F40).
  destruct (header_tags n rate (flat_map sample_bytes audioData))
    as (T0 & T8 & T36).
  rewrite Z.mod_small in F4, F24, F28, F40 by lia.
  split.
  { rewrite length_app, header_length. f_equal.
    rewrite (@flat_map_constant_length _ _ 2%nat).
    - lia.
    - intros x _. apply sample_bytes_length. }
  repeat match goal with |- _ /\ _ => split end; assumption.
Qed.

Lemma createWavBuffer_header_witness :
  exists buf : Bytes,
    createWavBuffer [Fin (1 / 2); Fin (-1)] 4000 = Some buf
    /\ List.length buf = 48%nat
    /\ firstn 4 buf = charCodes "RIFF"
    /\ firstn 8 (skipn 8 buf) = charCodes "WAVEfmt "
    /\ firstn 4 (skipn 36 buf) = charCodes "data"
    /\ getUint 4 buf 4 = 40
    /\ getUint 4 buf 16 = 16
    /\ getUint 2 buf 20 = 1
    /\ getUint 2 buf 22 = 1
    /\ getUint 4 buf 24 = 4000
    /\ getUint 4 buf 28 = 8000
    /\ getUint 2 buf 32 = 2
    /\ getUint 2 buf 34 = 16
    /\ getUint 4 buf 40 = 4.
Proof.
  apply (@createWavBuffer_header [Fin (1 / 2); Fin (-1)] 4000);
    vm_compute; reflexivity.
Defined.

(** The integer part towards zero of a number, between its neighbours. *)
Lemma truncate_neighbours (s : R) :
  (0 <= s -> IZR (truncate s) <= s < IZR (truncate s) + 1)%R
  /\ (s < 0 -> IZR (truncate s) - 1 < s <= IZR (truncate s))%R.
Proof.
  unfold truncate. split; intros Hs.
  - destruct (Rle_dec 0 s) as [_ | Hn]; [| lra].
    destruct (base_Int_part s) as [H1 H2]. lra.
  - destruct (Rle_dec 0 s) as [Hp | _]; [lra |].
    destruct (base_Int_part (- s)) as [H1 H2].
    rewrite opp_IZR. lra.
Qed.

(** The sample handed to [setInt16], from the clamped sample. *)
Lemma scaled_sample_clamped (r : R) :
  scaled_sample (Fin r)
  = Fin (if Rlt_dec (Rmax (-1) (Rmin 1 r)) 0
         then Rmax (-1) (Rmin 1 r) * 32768
         else Rmax (-1) (Rmin 1 r) * 32767)%R.
Proof.
  rewrite scaled_sample_Fin. f_equal. unfold Rmax, Rmin.
  destruct (Rle_dec 1 r) as [H1 | H1].
  - destruct (Rle_dec (-1) 1) as [_ | Hn]; [| lra].
    destruct (Rlt_dec 1 0); lra.
  - destruct (Rle_dec (-1) r) as [H2 | H2].
    + destruct (Rlt_dec r (-1)) as [H3 | _]; [lra |].
      destruct (Rlt_dec r 0); reflexivity.
    + destruct (Rlt_dec r (-1)) as [_ | H3]; [| lra].
      destruct (Rlt_dec (-1) 0); lra.
Qed.

(** X23.  The two bytes that [createWavBuffer] stores for the finite sample
    [r] of index [i], at byte 44 + 2 i, read back as a signed 16-bit number
    [k]: with [c] the sample clamped to [-1, 1], [k] is the integer part
    towards zero of [c * 32767] when [c >= 0] and of [c * 32768] when
    [c < 0], and lies from -32768 to 32767, so that no sample wraps
    around. *)
Theorem createWavBuffer_samples (audioData : list num) (sampleRate i : nat)
        (r : R) :
  nth_error audioData i = Some (Fin r) ->
  exists (buf : Bytes) (k : Z),
    createWavBuffer audioData sampleRate = Some buf
    /\ getInt16 buf (44 + i * 2) = k
    /\ -32768 <= k <= 32767
    /\ (0 <= Rmax (-1) (Rmin 1 r) ->
        IZR k <= Rmax (-1) (Rmin 1 r) * 32767 < IZR k + 1)%R
    /\ (Rmax (-1) (Rmin 1 r) < 0 ->
        IZR k - 1 < Rmax (-1) (Rmin 1 r) * 32768 <= IZR k)%R.
Proof.
  intros Hx. exists (header (Z.of_nat (List.length audioData))
                      (Z.of_nat sampleRate)
                    ++ flat_map sample_bytes audioData), (pcm (Fin r)).
  split; [apply createWavBuffer_bytes |].
  split; [apply getInt16_sample; exact Hx |].
  split; [apply pcm_range |].
  unfold pcm. rewrite scaled_sample_clamped.
  set (c := Rmax (-1) (Rmin 1 r)).
  assert (Hc : (-1 <= c <= 1)%R).
  { unfold c, Rmax, Rmin.
    destruct (Rle_dec 1 r); destruct (Rle_dec (-1) _); lra. }
  destruct (Rlt_dec c 0) as [Hneg | Hpos].
  - destruct (truncate_neighbours (c * 32768)) as [_ H].
    split; [intros; lra | intros _; apply H; lra].
  - destruct (truncate_neighbours (c * 32767)) as [H _].
    split; [intros _; apply H; lra | intros; lra].
Qed.

(** The sample 0.5 is stored as 16383, the integer part of 16383.5. *)
Lemma createWavBuffer_samples_witness :
  exists buf : Bytes,
    createWavBuffer [Fin (1 / 2); Fin (-1)] 4000 = Some buf
    /\ getInt16 buf 44 = 16383.
Proof.
  destruct (@createWavBuffer_samples [Fin (1 / 2); Fin (-1)] 4000 0
              (1 / 2) eq_refl) as (buf & k & Hbuf & Hk & _ & Hpos & _).
  exists buf. split; [exact Hbuf |].
  change (44 + 0 * 2)%nat with 44%nat in Hk. rewrite Hk.
  assert (Hc : Rmax (-1) (Rmin 1 (1 / 2)) = (1 / 2)%R).
  { unfold Rmax, Rmin.
    destruct (Rle_dec 1 (1 / 2)); [lra |].
    destruct (Rle_dec (-1) (1 / 2)); lra. }
  rewrite Hc in Hpos. destruct Hpos as [Hlo Hhi]; [lra |].
  assert (H1 : k < 16384).
  { apply lt_IZR. lra. }
  assert (H2 : 16382 < k).
  { apply lt_IZR. lra. }
  lia.
Defined.

(** X24.  Clipping in [createWavBuffer]: a sample of 1 or more (also
    Infinity) is stored as 32767, a sample of -1 or less (also -Infinity)
    as -32768, and NaN as 0. *)
Theorem createWavBuffer_clips (audioData : list num) (sampleRate i : nat)
        (x : num) :
  nth_error audioData i = Some x ->
  exists buf : Bytes,
    createWavBuffer audioData sampleRate = Some buf
    /\ (num_leb (Fin 1) x = true -> getInt16 buf (44 + i * 2) = 32767)
    /\ (num_leb x (Fin (-1)) = true -> getInt16 buf (44 + i * 2) = -32768)
    /\ (x = NaN -> getInt16 buf (44 + i * 2) = 0).
Proof.
  intros Hx. eexists. split; [apply createWavBuffer_bytes |].
  rewrite (@getInt16_sample audioData _ _ i x Hx).
  split; [| split].
  - intros Hle. apply pcm_high. exact Hle.
  - intros Hle. apply pcm_low. exact Hle.
  - intros ->. reflexivity.
Qed.

Lemma createWavBuffer_clips_witness :
  exists buf : Bytes,
    createWavBuffer [Fin 2; Fin (-1)] 4000 = Some buf
    /\ (num_leb (Fin 1) (Fin 2) = true -> getInt16 buf (44 + 0 * 2) = 32767)
    /\ (num_leb (Fin 2) (Fin (-1)) = true
        -> getInt16 buf (44 + 0 * 2) = -32768)
    /\ (Fin 2 = NaN -> getInt16 buf (44 + 0 * 2) = 0).
Proof.
  apply (@createWavBuffer_clips [Fin 2; Fin (-1)] 4000 0 (Fin 2)).
  reflexivity.
Defined.

End WavFacts.
